(** * Fintech usage dashboard (app.py): data preparation, filtering, KPIs

    A shallow embedding of the data layer of [app.py]: [load_data], [kpis],
    the time series of [trends_page], the value counts of [usecases_page]
    and [conclusion_page], the filter block of [main], and the data that
    each page and [main] hand to the screen.

    A pandas DataFrame is a list of column names together with a list of
    rows; a row is a finite map from column names to cells.  Floating-point
    numbers are modelled by exact rationals: a cell holds a canonical
    rational ([Qc]), and the rates computed by the code are rationals ([Q]).
    The order in which pandas returns value counts of equal count is not
    fixed by the code: it is a parameter ([SortValues]). *)

From Stdlib Require Import Ascii QArith Qcanon Lqa.
From stdpp Require Import gmap strings list fin_maps sorting.

#[local] Set Warnings "-clear-no-such-hyp".

Local Open Scope string_scope.
Local Open Scope list_scope.

(** ** Cells, errors, frames *)

Module Pandas.

(** A cell of a frame: a missing value (NaN), a string or a number. *)
Inductive cell : Type :=
  | NaN
  | Str (s : string)
  | Num (q : Qc).

#[global] Instance cell_eq_dec : EqDecision cell.
Proof. solve_decision. Defined.

(** The exceptions that the modelled code can raise. *)
Inductive error : Type :=
  | KeyError (c : string)
  | FileNotFoundError
  | PermissionError
  | IsADirectoryError
  | EmptyDataError
  | UnicodeDecodeError
  | ParserError.

#[global] Instance error_eq_dec : EqDecision error.
Proof. solve_decision. Defined.

Inductive result (A : Type) : Type :=
  | Ok (a : A)
  | Raise (e : error).
Arguments Ok {A} a.
Arguments Raise {A} e.

#[global] Instance result_ret : MRet result := fun A a => Ok a.

#[global] Instance result_bind : MBind result := fun A B k m =>
  match m with
  | Ok a => k a
  | Raise e => Raise e
  end.

Abbreviation Row := (gmap string cell).

Record DataFrame : Type := mkDF {
  columns : list string;
  rows : list Row
}.

#[global] Instance DataFrame_eq_dec : EqDecision DataFrame.
Proof. solve_decision. Defined.

(** [c in df.columns] *)
Definition has_column (df : DataFrame) (c : string) : bool :=
  bool_decide (c ∈ columns df).

(** The cell of row [r] under column [c]; a row without an entry for a
    column reads as NaN there. *)
Definition cell_at (r : Row) (c : string) : cell :=
  default NaN (r !! c).

(** [df[p(df[c])]]: boolean-mask selection by a predicate on one column;
    reading a column that does not exist raises [KeyError]. *)
Definition where_col (df : DataFrame) (c : string) (p : cell -> bool)
  : result DataFrame :=
  if has_column df c
  then Ok (mkDF (columns df) (filter (fun r => p (cell_at r c)) (rows df)))
  else Raise (KeyError c).

(** [df.iloc[0:0]] *)
Definition iloc_empty (df : DataFrame) : DataFrame := mkDF (columns df) [].

(** [len(df)] *)
Definition len (df : DataFrame) : nat := length (rows df).

(** [s.dropna()] *)
Definition notna (v : cell) : bool :=
  match v with NaN => false | _ => true end.

Definition dropna (s : list cell) : list cell := filter (fun v => notna v) s.

(** [str.lower], on the ASCII letters; no character outside A-Z lowers to
    one of the letters of "yes", the only string the code compares with. *)
Definition ascii_lower (a : Ascii.ascii) : Ascii.ascii :=
  let n := Ascii.N_of_ascii a in
  if ((65 <=? n) && (n <=? 90))%N then Ascii.ascii_of_N (n + 32) else a.

Fixpoint str_lower (s : string) : string :=
  match s with
  | EmptyString => EmptyString
  | String a s' => String (ascii_lower a) (str_lower s')
  end.

(** One element of [s.str.lower() == t] on a column of strings: a
    non-string element (a missing value) lowers to NaN, which equals
    nothing.  The [.str] accessor exists on such a column only; on a column
    that holds no string at all pandas raises AttributeError before any
    element is compared.  load_data leaves strings in every column the code
    applies this to. *)
Definition str_lower_eq (t : string) (v : cell) : bool :=
  match v with
  | Str s => bool_decide (str_lower s = t)
  | _ => false
  end.

(** One element of [s == t] for a string [t]. *)
Definition eq_str (t : string) (v : cell) : bool :=
  match v with
  | Str s => bool_decide (s = t)
  | _ => false
  end.

(** The number held by a cell; in a column that went through
    [pd.to_numeric] every cell is a number or NaN. *)
Definition as_num (v : cell) : option Qc :=
  match v with
  | Num q => Some q
  | _ => None
  end.

Definition Qc_leb (x y : Qc) : bool := Qle_bool x y.

Definition Qc_of_Z (z : Z) : Qc := Q2Qc (inject_Z z).

(** One element of [(s >= lo) & (s <= hi)]: comparisons with NaN are False. *)
Definition between (lo hi : Z) (v : cell) : bool :=
  match as_num v with
  | Some q => Qc_leb (Qc_of_Z lo) q && Qc_leb q (Qc_of_Z hi)
  | None => false
  end.

(** [s.unique()]: the distinct values in order of first appearance. *)
Fixpoint unique {A : Type} `{EqDecision A} (l : list A) : list A :=
  match l with
  | [] => []
  | x :: l' => x :: filter (fun y => y <> x) (unique l')
  end.

(** Number of occurrences of [x] in [l]. *)
Definition occurrences {A : Type} `{EqDecision A} (x : A) (l : list A) : nat :=
  length (filter (fun y => y = x) l).

(** [s.nunique()]: NaN is not counted. *)
Definition nunique (s : list cell) : nat := length (unique (dropna s)).

(** [groupby(key).size()]: one entry per distinct key, ascending by key,
    with the number of rows of the group.  Rows with a NaN key are dropped
    by the caller ([groupby] drops them by default). *)
Definition groupby_size {K : Type} `{EqDecision K} (le : relation K)
    `{forall x y, Decision (le x y)} (keys : list K) : list (K * nat) :=
  map (fun k => (k, occurrences k keys)) (merge_sort le (unique keys)).

(** [s.mean()] of a Series of counts. *)
Definition sum_counts {K : Type} (t : list (K * nat)) : nat :=
  foldr (fun kn acc => kn.2 + acc) 0 t.

Definition mean_counts {K : Type} (t : list (K * nat)) : Q :=
  inject_Z (Z.of_nat (sum_counts t)) / inject_Z (Z.of_nat (length t)).

End Pandas.

Export Pandas.

(** ** kpis *)

Module App.

Definition is_yes : cell -> bool := str_lower_eq "yes".

Record KPIs : Type := mkKPIs {
  total : nat;
  fintech_count : nat;
  adoption_rate : Q;
  monthly_avg_users : Q;
  total_countries : nat
}.

(** [count / total * 100] *)
Definition percent (count total : nat) : Q :=
  inject_Z (Z.of_nat count) / inject_Z (Z.of_nat total) * 100.

Definition Qcle_dec_rel : relation Qc := fun x y => Qc_leb x y = true.

#[global] Instance Qcle_dec_rel_dec x y : Decision (Qcle_dec_rel x y).
Proof. unfold Qcle_dec_rel. apply _. Defined.

(** The Year keys of a frame's rows, NaN keys dropped. *)
Definition year_keys (df : DataFrame) : list Qc :=
  omap (fun r => as_num (cell_at r "Year")) (rows df).

Definition kpis (df : DataFrame) : result KPIs :=
  let total := len df in
  fintech_users ←
    (if has_column df "Fintech_Used" then where_col df "Fintech_Used" is_yes
     else Ok (iloc_empty df));
  let fintech_count := len fintech_users in
  let adoption_rate :=
    if bool_decide (total <> 0%nat) then percent fintech_count total else 0%Q in
  monthly_avg_users ←
    (if has_column df "Year" then
       users ← where_col df "Fintech_Used" is_yes;
       let by_year := groupby_size Qcle_dec_rel (year_keys users) in
       Ok (if bool_decide (by_year <> []) then mean_counts by_year else 0%Q)
     else Ok 0%Q);
  let total_countries :=
    if has_column df "Country"
    then nunique (map (fun r => cell_at r "Country") (rows df))
    else 0%nat in
  Ok (mkKPIs total fintech_count adoption_rate monthly_avg_users total_countries).

(** ** trends_page: the frame [merged] *)

(** [int(x)] of a Python float: truncation toward zero, to an integer of
    any size. *)
Definition astype_int (q : Qc) : Z := Z.quot (Qnum q) (Z.pos (Qden q)).

(** [astype(int)] of one element of a float column: the cast to int64.  It
    truncates toward zero, and pandas does not check the range: a value
    whose integer part does not fit 64 bits comes out as -2^63, which is
    what the conversion leaves on x86-64. *)
Definition astype_int64 (q : Qc) : Z :=
  let z := astype_int q in
  if bool_decide (- 2 ^ 63 <= z < 2 ^ 63)%Z then z else (- 2 ^ 63)%Z.

Definition astype_int_cell (v : cell) : cell :=
  match v with
  | Num q => Num (Qc_of_Z (astype_int64 q))
  | _ => v
  end.

(** [df.dropna(subset=[c])] *)
Definition dropna_subset (df : DataFrame) (c : string) : DataFrame :=
  mkDF (columns df) (filter (fun r => notna (cell_at r c)) (rows df)).

(** [df[c] = f(df[c])] for a column that exists. *)
Definition set_column (df : DataFrame) (c : string) (f : cell -> cell)
  : DataFrame :=
  mkDF (columns df) (map (fun r => <[c := f (cell_at r c)]> r) (rows df)).

(** [left.merge(right, on='Year', how='left')] of two tables of counts:
    every left row is kept, once per matching right row, and once with a
    missing count when no right row matches. *)
Definition merge_left (left right : list (Qc * nat))
  : list (Qc * nat * option nat) :=
  flat_map (fun yt =>
    match filter (fun e => e.1 = yt.1) right with
    | [] => [(yt.1, yt.2, None)]
    | ms => map (fun e => (yt.1, yt.2, Some e.2)) ms
    end) left.

Record TrendRow : Type := mkTrendRow {
  Year : Qc;
  Total : nat;
  Fintech_Users : nat;
  Adoption_Rate : Q
}.

Definition Year_le : relation (Qc * nat * nat) :=
  fun a b => Qcle_dec_rel a.1.1 b.1.1.

#[global] Instance Year_le_dec a b : Decision (Year_le a b).
Proof. unfold Year_le. apply _. Defined.

(** Lines 146-154; [None] stands for the branch that only reports that
    there is no Year column. *)
Definition trends_page (df : DataFrame) : result (option (list TrendRow)) :=
  if has_column df "Year" then
    let df_year := dropna_subset df "Year" in
    let df_year := set_column df_year "Year" astype_int_cell in
    let total_by_year := groupby_size Qcle_dec_rel (year_keys df_year) in
    users ← where_col df_year "Fintech_Used" is_yes;
    let fintech_by_year := groupby_size Qcle_dec_rel (year_keys users) in
    let merged :=
      map (fun m => (m.1.1, m.1.2, default 0%nat m.2))
          (merge_left total_by_year fintech_by_year) in
    let merged := merge_sort Year_le merged in
    Ok (Some (map (fun m =>
                mkTrendRow m.1.1 m.1.2 m.2 (percent m.2 m.1.2)) merged))
  else Ok None.

(** ** Value counts of usecases_page and conclusion_page *)

(** [s.replace(old, new)] *)
Definition replace (old new : string) (s : list cell) : list cell :=
  map (fun v => if decide (v = Str old) then Str new else v) s.

(** [sort_values(ascending=False)] as [value_counts] applies it to its
    table of counts.  pandas hands the counts to numpy's quicksort, which is
    not a stable sort: the result holds the same entries with the counts
    descending, and which of two entries of equal count comes first is up to
    the sort (it changes with the size of the table and with the machine).
    The code is modelled for any such sort. *)
Class SortValues : Type := {
  sort_values : list (cell * nat) -> list (cell * nat);
  sort_values_Permutation t : sort_values t ≡ₚ t;
  sort_values_descending t :
    StronglySorted (fun a b => (b.2 <= a.2)%nat) (sort_values t)
}.

(** Insertion into a table that is descending by count; an entry goes in
    front of the entries that do not have a larger count. *)
Fixpoint insert_desc (x : cell * nat) (t : list (cell * nat))
  : list (cell * nat) :=
  match t with
  | [] => [x]
  | y :: t' => if decide (x.2 < y.2)%nat then y :: insert_desc x t'
               else x :: y :: t'
  end.

(** The same, but an entry goes behind the entries of its own count. *)
Fixpoint insert_desc_last (x : cell * nat) (t : list (cell * nat))
  : list (cell * nat) :=
  match t with
  | [] => [x]
  | y :: t' => if decide (x.2 <= y.2)%nat then y :: insert_desc_last x t'
               else x :: y :: t'
  end.

(** Two sorts that [sort_values] may be.  The stable one: entries of equal
    count stay in the order they had, the order of first appearance. *)
Definition ties_first_seen : SortValues.
Proof.
  assert (forall x t, insert_desc x t ≡ₚ x :: t) as Hperm.
  { intros x t. induction t as [|y t IH]; [done|]. simpl.
    case_decide; [|done]. rewrite IH. apply Permutation_swap. }
  refine (Build_SortValues (foldr insert_desc []) _ _).
  - intros t. induction t as [|x t IH]; [done|]. simpl. by rewrite Hperm, IH.
  - intros t. induction t as [|x t IH]; [constructor|]. simpl.
    revert IH. generalize (foldr insert_desc [] t). intros l.
    induction 1 as [|y l Hl IH Hy]; [repeat constructor|]. simpl.
    case_decide as Hxy.
    + constructor; [done|]. rewrite Hperm. constructor; [lia|done].
    + constructor; [by constructor|]. constructor; [lia|].
      eapply Forall_impl; [exact Hy|]. intros b Hb. simpl in Hb. lia.
Defined.

(** One that is not stable: entries of equal count come out in the reverse
    of the order they had. *)
Definition ties_last_seen : SortValues.
Proof.
  assert (forall x t, insert_desc_last x t ≡ₚ x :: t) as Hperm.
  { intros x t. induction t as [|y t IH]; [done|]. simpl.
    case_decide; [|done]. rewrite IH. apply Permutation_swap. }
  refine (Build_SortValues (foldr insert_desc_last []) _ _).
  - intros t. induction t as [|x t IH]; [done|]. simpl. by rewrite Hperm, IH.
  - intros t. induction t as [|x t IH]; [constructor|]. simpl.
    revert IH. generalize (foldr insert_desc_last [] t). intros l.
    induction 1 as [|y l Hl IH Hy]; [repeat constructor|]. simpl.
    case_decide as Hxy.
    + constructor; [done|]. rewrite Hperm. constructor; [lia|done].
    + constructor; [by constructor|]. constructor; [lia|].
      eapply Forall_impl; [exact Hy|]. intros b Hb. simpl in Hb. lia.
Defined.

(** [s.value_counts()]: the counts of the distinct values other than NaN,
    gathered in order of first appearance and then sorted descending by
    count. *)
Definition value_counts {sv : SortValues} (s : list cell) : list (cell * nat) :=
  let s := dropna s in
  sort_values (map (fun v => (v, occurrences v s)) (unique s)).

(** The pattern of lines 207-208, 228-229 and 233-234:
    [df[c].replace('nan', 'Unknown').value_counts().head(n)] under the guard
    [if c in df.columns]; [None] when the guard skips it. *)
Definition top_n_by_frequency {sv : SortValues}
    (df : DataFrame) (c : string) (n : nat) : option (list (cell * nat)) :=
  if has_column df c
  then Some (take n (value_counts
                       (replace "nan" "Unknown"
                          (map (fun r => cell_at r c) (rows df)))))
  else None.

(** [top_usecases] and [top_barriers] of conclusion_page: the index of the
    top three, or three placeholders. *)
Definition conclusion_top {sv : SortValues}
    (df : DataFrame) (c : string) : list cell :=
  match top_n_by_frequency df c 3 with
  | Some t => map fst t
  | None => [Str "N/A"; Str "N/A"; Str "N/A"]
  end.

(** ** The filter block of main (lines 315-326) *)

Record FilterSpec : Type := mkFilterSpec {
  country : option string;
  years : option (Z * Z);
  gender : option string;
  age_group : option string;
  location_sel : option string
}.

(** [sel and sel != 'All']: None and the empty string are falsy. *)
Definition active (sel : option string) : option string :=
  match sel with
  | Some s => if bool_decide (s <> "" /\ s <> "All") then Some s else None
  | None => None
  end.

(** [if sel and sel != 'All': df = df[df[c] == sel]] *)
Definition filter_eq (c : string) (sel : option string) (df : DataFrame)
  : result DataFrame :=
  match active sel with
  | Some s => where_col df c (eq_str s)
  | None => Ok df
  end.

(** [if years is not None: df = df[(df['Year'] >= years[0]) & (df['Year'] <= years[1])]] *)
Definition filter_years (yrs : option (Z * Z)) (df : DataFrame)
  : result DataFrame :=
  match yrs with
  | Some (lo, hi) => where_col df "Year" (between lo hi)
  | None => Ok df
  end.

Definition apply_filters (df : DataFrame) (spec : FilterSpec)
  : result DataFrame :=
  df_filtered ← filter_eq "Country" (country spec) df;
  df_filtered ← filter_years (years spec) df_filtered;
  df_filtered ← filter_eq "Gender" (gender spec) df_filtered;
  df_filtered ← filter_eq "Age_Group" (age_group spec) df_filtered;
  filter_eq "Urban_Rural" (location_sel spec) df_filtered.

(** ** The filter widgets of main (lines 292-313) *)

Definition str_le : relation string := fun a b => String.leb a b = true.

#[global] Instance str_le_dec a b : Decision (str_le a b).
Proof. unfold str_le. apply _. Defined.

Definition str_values (s : list cell) : list string :=
  omap (fun v => match v with Str t => Some t | _ => None end) s.

(** [['All'] + sorted(df[c].dropna().unique().tolist()) if c in df.columns
    else ['All']] *)
Definition options (df : DataFrame) (c : string) : list string :=
  if has_column df c
  then "All" :: merge_sort str_le
         (str_values (unique (dropna (map (fun r => cell_at r c) (rows df)))))
  else ["All"].

(** What the widgets can hand to the filter block: each selection is None
    (Conclusion page) or one of the options offered for its column, and a
    Year range exists only when the frame has a Year column. *)
Definition offered (df : DataFrame) (c : string) (sel : option string) : Prop :=
  match sel with
  | Some s => s ∈ options df c
  | None => True
  end.

Definition from_widgets (df : DataFrame) (spec : FilterSpec) : Prop :=
  offered df "Country" (country spec) /\
  (is_Some (years spec) -> has_column df "Year" = true) /\
  offered df "Gender" (gender spec) /\
  offered df "Age_Group" (age_group spec) /\
  offered df "Urban_Rural" (location_sel spec).

(** ** load_data and its cache *)

(** What [pd.read_csv] finds at a path: nothing (absent from the map), a
    file it may not open, a directory, a file without content, bytes that
    are not text in the expected encoding, text that does not parse as a
    table, or a table. *)
Inductive file : Type :=
  | Unreadable
  | Directory
  | Empty
  | Undecodable
  | Malformed
  | Csv (df : DataFrame).

(** [pd.read_csv(path)]: the table, or the exception pandas raises. *)
Definition read_csv (fs : gmap string file) (path : string)
  : result DataFrame :=
  match fs !! path with
  | None => Raise FileNotFoundError
  | Some Unreadable => Raise PermissionError
  | Some Directory => Raise IsADirectoryError
  | Some Empty => Raise EmptyDataError
  | Some Undecodable => Raise UnicodeDecodeError
  | Some Malformed => Raise ParserError
  | Some (Csv df) => Ok df
  end.

Definition fillna (d : string) (v : cell) : cell :=
  match v with
  | NaN => Str d
  | _ => v
  end.

(** [df[n] = v] for a column that does not exist: appended. *)
Definition add_column (df : DataFrame) (n : string) (v : cell) : DataFrame :=
  mkDF (columns df ++ [n]) (map (fun r => <[n := v]> r) (rows df)).

Definition str_cols_all : list string :=
  ["Fintech_Used"; "Country"; "Gender"; "Age_Group";
   "Use_Case_1"; "Use_Case_2"; "Urban_Rural"; "Phone_Type"].

Definition num_cols : list string :=
  ["Monthly_Transactions"; "Avg_Transaction_Value"].

Section load.

(** Two functions of pandas and Python that the loader relies on: the
    parser of [pd.to_numeric] for one string, and [str] of a number. *)
Variable parse_number : string -> option Qc.
Variable str_of_number : Qc -> string.

(** One element of [pd.to_numeric(s, errors='coerce')] *)
Definition to_numeric (v : cell) : cell :=
  match v with
  | Str s => match parse_number s with
             | Some q => Num q
             | None => NaN
             end
  | _ => v
  end.

(** One element of [s.astype(str)] *)
Definition astype_str (v : cell) : cell :=
  match v with
  | Str s => Str s
  | Num q => Str (str_of_number q)
  | NaN => Str "nan"
  end.

Definition load_data (fs : gmap string file) (path : string)
  : result DataFrame :=
  df ← read_csv fs path;
  let df :=
    if has_column df "Year" then set_column df "Year" to_numeric else df in
  let str_cols := filter (fun c => has_column df c) str_cols_all in
  let df :=
    foldl (fun df c => set_column df c (fun v => astype_str (fillna "Unknown" v)))
          df str_cols in
  let df :=
    foldl (fun df n => if has_column df n then df else add_column df n (Num 0%Qc))
          df num_cols in
  Ok df.

(** The state of one process: what [st.cache_data] has memoized, and the
    paths read from the file system so far, latest first. *)
Record Process : Type := mkProcess {
  memo : gmap string DataFrame;
  reads : list string
}.

(** [_cache]: [st.cache_data] when streamlit can be imported, which
    memoizes the value returned for an argument (an exception is not
    memoized); otherwise the decorator that returns the function itself. *)
Definition _cache (STREAMLIT_AVAILABLE : bool)
    (func : string -> result DataFrame) (path : string) (p : Process)
  : result DataFrame * Process :=
  if STREAMLIT_AVAILABLE then
    match memo p !! path with
    | Some df => (Ok df, p)
    | None =>
        match func path with
        | Ok df => (Ok df, mkProcess (<[path := df]> (memo p)) (path :: reads p))
        | Raise e => (Raise e, mkProcess (memo p) (path :: reads p))
        end
    end
  else (func path, mkProcess (memo p) (path :: reads p)).

(** [load_data] as decorated: [@_cache def load_data(path)]. *)
Definition load_data_cached (STREAMLIT_AVAILABLE : bool)
    (fs : gmap string file) : string -> Process -> result DataFrame * Process :=
  _cache STREAMLIT_AVAILABLE (load_data fs).

End load.

End App.

Export App.

(** * The pages and the body of main *)

Module Pages.

(** What a page or main can raise: an error of the data layer, the
    ValueError of [int(nan)], the TypeError of comparing a string with a
    number. *)
Inductive exception : Type :=
  | Error (e : error)
  | ValueError
  | TypeError.

#[global] Instance exception_eq_dec : EqDecision exception.
Proof. solve_decision. Defined.

Inductive outcome (A : Type) : Type :=
  | Returns (a : A)
  | Raises (x : exception).
Arguments Returns {A} a.
Arguments Raises {A} x.

#[global] Instance outcome_ret : MRet outcome := fun A a => Returns a.

#[global] Instance outcome_bind : MBind outcome := fun A B k m =>
  match m with
  | Returns a => k a
  | Raises x => Raises x
  end.

Definition lift {A : Type} (r : result A) : outcome A :=
  match r with
  | Ok a => Returns a
  | Raise e => Raises (Error e)
  end.

(** [df[c]]: the column as a Series, or KeyError. *)
Definition getitem (df : DataFrame) (c : string) : result (list cell) :=
  if has_column df c then Ok (map (fun r => cell_at r c) (rows df))
  else Raise (KeyError c).

(** ** overview_page (lines 60-141): the data behind the widgets *)

Record overview : Type := mkOverview {
  cards : KPIs;
  fig_bar : list (cell * nat);
  fig_map : list (cell * nat)
}.

(** The KPI cards come from [kpis(df)] (line 62); [country_counts] is
    [df['Country'].value_counts()] (line 122), read without a guard; the
    bar chart takes its first 15 rows, the map all of them. *)
Definition overview_page {sv : SortValues} (df : DataFrame)
  : result overview :=
  k ← kpis df;
  s ← getitem df "Country";
  let country_counts := value_counts s in
  Ok (mkOverview k (take 15 country_counts) country_counts).

(** ** demographics_page (lines 172-201) *)

(** The pairs of values of two Series, row by row; a row with a missing
    value in either is left out.  The four columns the page crosses went
    through [astype(str)] in the loader: their cells are strings. *)
Definition pairs (a b : list cell) : list (string * string) :=
  omap (fun xy => match xy.1, xy.2 with
                  | Str s, Str t => Some (s, t)
                  | _, _ => None
                  end) (zip a b).

(** [pd.crosstab(a, b)]: one row per value of [a] and one column per value
    of [b], both ascending, each cell the number of rows with that pair. *)
Definition crosstab (a b : list cell) : list (string * list (string * nat)) :=
  let ps := pairs a b in
  let index := merge_sort str_le (unique ps.*1) in
  let cols := merge_sort str_le (unique ps.*2) in
  map (fun i => (i, map (fun c => (c, occurrences (i, c) ps)) cols)) index.

Record demographics : Type := mkDemographics {
  gender_usage : option (list (string * list (string * nat)));
  age_groups : option (list (cell * nat));
  phone_location : option (list (string * list (string * nat)))
}.

(** Each chart is drawn when its columns exist; [None] is the branch that
    shows a note (or, for the third chart, nothing). *)
Definition demographics_page {sv : SortValues} (df : DataFrame)
  : result demographics :=
  ct ← (if has_column df "Gender" && has_column df "Fintech_Used" then
          g ← getitem df "Gender";
          f ← getitem df "Fintech_Used";
          Ok (Some (crosstab g f))
        else Ok None);
  ag ← (if has_column df "Age_Group" then
          a ← getitem df "Age_Group";
          Ok (Some (value_counts a))
        else Ok None);
  pt ← (if has_column df "Phone_Type" && has_column df "Urban_Rural" then
          t ← getitem df "Phone_Type";
          u ← getitem df "Urban_Rural";
          Ok (Some (crosstab t u))
        else Ok None);
  Ok (mkDemographics ct ag pt).

(** ** usecases_page (lines 204-222) *)

(** One element of [s > 0]: False for NaN, TypeError for a string. *)
Definition gt_zero (v : cell) : outcome bool :=
  match v with
  | Num q => Returns (bool_decide (0 < q)%Qc)
  | NaN => Returns false
  | Str _ => Raises TypeError
  end.

(** [s > 0] for a whole Series. *)
Fixpoint gt_zero_mask (s : list cell) : outcome (list bool) :=
  match s with
  | [] => Returns []
  | v :: s' =>
      b ← gt_zero v;
      m ← gt_zero_mask s';
      Returns (b :: m)
  end.

(** [df[mask]] *)
Definition select_rows (df : DataFrame) (mask : list bool) : DataFrame :=
  mkDF (columns df)
       (map fst (filter (fun rb => Is_true rb.2) (zip (rows df) mask))).

(** The second chart: the histogram over the rows with positive
    Monthly_Transactions, or the note that there are none. *)
Inductive transactions_chart : Type :=
  | Histogram (sub : DataFrame)
  | NoPositiveValues.

Record usecases : Type := mkUsecases {
  top_use_cases : option (list (cell * nat));
  transactions : option transactions_chart
}.

Definition usecases_page {sv : SortValues} (df : DataFrame)
  : outcome usecases :=
  let uc := top_n_by_frequency df "Use_Case_1" 15 in
  tr ← (if has_column df "Monthly_Transactions" then
          s ← lift (getitem df "Monthly_Transactions");
          mask ← gt_zero_mask s;
          let sub := select_rows df mask in
          Returns (Some (if bool_decide (0 < len sub)%nat
                         then Histogram sub else NoPositiveValues))
        else Returns None);
  Returns (mkUsecases uc tr).

(** ** conclusion_page (lines 225-241) *)

Record conclusion : Type := mkConclusion {
  top_usecases : list cell;
  top_barriers : list cell;
  percent_active : Q
}.

(** [(df['Fintech_Used'].str.lower() == 'yes').sum()] *)
Definition active_users (s : list cell) : nat :=
  length (filter (fun v => is_yes v) s).

Definition conclusion_page {sv : SortValues} (df : DataFrame)
  : result conclusion :=
  let top_usecases := conclusion_top df "Use_Case_1" in
  let top_barriers := conclusion_top df "Barrier" in
  percent_active ←
    (if has_column df "Fintech_Used" then
       let total := len df in
       s ← getitem df "Fintech_Used";
       let active := active_users s in
       Ok (if bool_decide (total <> 0%nat) then percent active total else 0%Q)
     else Ok 0%Q);
  Ok (mkConclusion top_usecases top_barriers percent_active).

(** ** main after the load (lines 289-335) *)

(** The pages the sidebar offers. *)
Inductive page : Type := Overview | Trends | Demographics | Conclusion.

#[global] Instance page_eq_dec : EqDecision page.
Proof. solve_decision. Defined.

(** The user at the widgets: what a select box returns for a label and a
    list of options, and what the slider returns for its bounds. *)
Record widgets : Type := mkWidgets {
  selectbox : string -> list string -> string;
  slider : Z -> Z -> Z * Z
}.

Definition Qc_min (x y : Qc) : Qc := if Qc_leb x y then x else y.
Definition Qc_max (x y : Qc) : Qc := if Qc_leb x y then y else x.

(** [int(df['Year'].dropna().min())] and the same for max: the minimum of
    no value is NaN, and [int] of NaN raises ValueError. *)
Definition year_bounds (df : DataFrame) : outcome (Z * Z) :=
  match year_keys df with
  | [] => Raises ValueError
  | q :: qs =>
      Returns (astype_int (foldr Qc_min q qs), astype_int (foldr Qc_max q qs))
  end.

(** Lines 292-313: the selections that reach the filter block. *)
Definition selections (pg : page) (w : widgets) (df : DataFrame)
  : outcome FilterSpec :=
  if decide (pg <> Conclusion) then
    let country := selectbox w "Country" (options df "Country") in
    years ← (if has_column df "Year" then
               b ← year_bounds df;
               Returns (Some (slider w b.1 b.2))
             else Returns None);
    let gender := selectbox w "Gender" (options df "Gender") in
    let age_group := selectbox w "Age group" (options df "Age_Group") in
    let location_sel := selectbox w "Location" (options df "Urban_Rural") in
    Returns (mkFilterSpec (Some country) years (Some gender)
               (Some age_group) (Some location_sel))
  else Returns (mkFilterSpec None None None None None).

(** What main hands to the screen: the data of the page it ran. *)
Inductive view : Type :=
  | OverviewView (v : overview)
  | TrendsView (v : option (list TrendRow))
  | DemographicsView (v : demographics)
  | ConclusionView (v : conclusion).

(** main from line 289 on, for the frame [df] that load_data returned. *)
Definition render {sv : SortValues}
    (df : DataFrame) (pg : page) (w : widgets) : outcome view :=
  spec ← selections pg w df;
  df_filtered ← lift (apply_filters df spec);
  match pg with
  | Overview => v ← lift (overview_page df_filtered); Returns (OverviewView v)
  | Trends => v ← lift (trends_page df_filtered); Returns (TrendsView v)
  | Demographics =>
      v ← lift (demographics_page df_filtered); Returns (DemographicsView v)
  | Conclusion =>
      v ← lift (conclusion_page df_filtered); Returns (ConclusionView v)
  end.

(** The widgets as they stand before the user touches them: every select
    box at its first option ([index=0]), the slider at its full range. *)
Definition untouched : widgets :=
  mkWidgets (fun _ opts => default "" (head opts)) (fun lo hi => (lo, hi)).

End Pages.

Export Pages.

(** * tests/test_smoke.py *)

Module Tests.

(** How a test ends: it passes, an assertion fails, or the code under test
    raises. *)
Inductive verdict : Type :=
  | Passed
  | AssertionError
  | Errored (e : error).

(** [test_load_data]: the frame is a frame (the first assertion cannot
    fail) and has at least one record. *)
Definition test_load_data (parse_number : string -> option Qc)
    (str_of_number : Qc -> string) (fs : gmap string file) : verdict :=
  match load_data parse_number str_of_number fs
          "datasets/fintech_usage_africa.csv" with
  | Ok df => if bool_decide (0 < len df)%nat then Passed else AssertionError
  | Raise e => Errored e
  end.

End Tests.

Export Tests.

(** * Vocabulary of the statements *)

(** The rows that count as fintech users. *)
Definition fintech_rows (df : DataFrame) : list Row :=
  filter (fun r => is_yes (cell_at r "Fintech_Used")) (rows df).

(** The number of fintech users whose Year is [y]. *)
Definition users_in_year (df : DataFrame) (y : Qc) : nat :=
  length (filter (fun r => cell_at r "Year" = Num y) (fintech_rows df)).


(** The Year of a row as trends_page groups it: the number in the Year
    cell cast to int64. *)
Definition int_year (r : Row) : option Qc :=
  (fun q => Qc_of_Z (astype_int64 q)) <$> as_num (cell_at r "Year").

(** The number of records, and of fintech users, of an integer Year. *)
Definition records_in_year (df : DataFrame) (y : Qc) : nat :=
  length (filter (fun r => int_year r = Some y) (rows df)).

Definition users_in_int_year (df : DataFrame) (y : Qc) : nat :=
  length (filter (fun r => int_year r = Some y) (fintech_rows df)).

(** The count found for a key by a left merge, when the right table has at
    most one row per key. *)
Definition find_count (y : Qc) (right : list (Qc * nat)) : option nat :=
  match filter (fun e => e.1 = y) right with
  | [] => None
  | e :: _ => Some e.2
  end.

(** The row of the trends table for an integer Year. *)
Definition trend_row (df : DataFrame) (y : Qc) : TrendRow :=
  mkTrendRow y (records_in_year df y) (users_in_int_year df y)
    (percent (users_in_int_year df y) (records_in_year df y)).

(** The position of the first occurrence of [x] in [l]. *)
Fixpoint first_index {A : Type} `{EqDecision A} (x : A) (l : list A) : nat :=
  match l with
  | [] => 0
  | y :: l' => if decide (y = x) then 0 else S (first_index x l')
  end.

(** The order of a table of value counts over the series [s]: a larger
    count first, and among equal counts the value that occurs first in [s]. *)
Definition ranks_before (s : list cell) (a b : cell * nat) : Prop :=
  (b.2 < a.2)%nat \/
  (a.2 = b.2 /\ (first_index a.1 s < first_index b.1 s)%nat).

(** [df[c] = f(df[c])] on one row. *)
Definition set_cell (c : string) (f : cell -> cell) (r : Row) : Row :=
  <[c := f (cell_at r c)]> r.

(** What the loader does to one row of the table [raw] it has read. *)
Definition clean_row (parse_number : string -> option Qc)
    (str_of_number : Qc -> string) (raw : DataFrame) (r : Row) : Row :=
  let r :=
    if has_column raw "Year" then set_cell "Year" (to_numeric parse_number) r
    else r in
  let r :=
    foldl (fun r c =>
             set_cell c (fun v => astype_str str_of_number (fillna "Unknown" v)) r)
          r (filter (fun c => has_column raw c) str_cols_all) in
  foldl (fun r n => if has_column raw n then r else <[n := Num 0%Qc]> r)
        r num_cols.

(** The columns that the last loop of the loader adds. *)
Definition added_columns (raw : DataFrame) : list string :=
  filter (fun n => has_column raw n = false) num_cols.

(** The cache holds, for the paths it has, what the loader returns. *)
Definition memo_sound (load : string -> result DataFrame) (p : Process) : Prop :=
  forall path df, memo p !! path = Some df -> load path = Ok df.

(** The process after calling the decorated function on each of the
    paths in turn. *)
Definition calls (STREAMLIT_AVAILABLE : bool)
    (func : string -> result DataFrame) (paths : list string) (p : Process)
  : Process :=
  foldl (fun p path => (_cache STREAMLIT_AVAILABLE func path p).2) p paths.

(** With streamlit, a path on which the function returns a frame is read
    at most once, and not at all before the cache holds it. *)
Definition read_once (func : string -> result DataFrame) (p : Process) : Prop :=
  forall path df, func path = Ok df ->
    (memo p !! path = None -> path ∉ reads p) /\
    (occurrences path (reads p) <= 1)%nat.

(** A process that has not called the loader yet. *)
Definition fresh : Process := mkProcess ∅ [].

(** A row from a list of (column, cell) pairs. *)
Definition row_of (l : list (string * cell)) : Row := list_to_map l.

(** A row passes the predicate that the selection [sel] puts on column
    [c]; a selection that is not [active] puts none. *)
Definition passes_eq (c : string) (sel : option string) (r : Row) : bool :=
  match active sel with
  | Some s => eq_str s (cell_at r c)
  | None => true
  end.

Definition passes_years (yrs : option (Z * Z)) (r : Row) : bool :=
  match yrs with
  | Some (lo, hi) => between lo hi (cell_at r "Year")
  | None => true
  end.

(** A row passes every predicate of the spec. *)
Definition passes (spec : FilterSpec) (r : Row) : bool :=
  passes_eq "Country" (country spec) r &&
  passes_years (years spec) r &&
  passes_eq "Gender" (gender spec) r &&
  passes_eq "Age_Group" (age_group spec) r &&
  passes_eq "Urban_Rural" (location_sel spec) r.

(** The same, as a proposition: string equality on the four columns whose
    selection is active, and membership of Year in the inclusive range. *)
Definition satisfies (spec : FilterSpec) (r : Row) : Prop :=
  (forall s, active (country spec) = Some s -> cell_at r "Country" = Str s) /\
  (forall lo hi, years spec = Some (lo, hi) ->
     exists q : Qc, cell_at r "Year" = Num q /\
                    (inject_Z lo <= q <= inject_Z hi)%Q) /\
  (forall s, active (gender spec) = Some s -> cell_at r "Gender" = Str s) /\
  (forall s, active (age_group spec) = Some s -> cell_at r "Age_Group" = Str s) /\
  (forall s, active (location_sel spec) = Some s ->
     cell_at r "Urban_Rural" = Str s).

(** Every column on which the spec puts a predicate exists in the frame. *)
Definition constrained_present (df : DataFrame) (spec : FilterSpec) : Prop :=
  (is_Some (active (country spec)) -> has_column df "Country" = true) /\
  (is_Some (years spec) -> has_column df "Year" = true) /\
  (is_Some (active (gender spec)) -> has_column df "Gender" = true) /\
  (is_Some (active (age_group spec)) -> has_column df "Age_Group" = true) /\
  (is_Some (active (location_sel spec)) -> has_column df "Urban_Rural" = true).

(** The spec puts no predicate at all. *)
Definition unconstrained (spec : FilterSpec) : Prop :=
  active (country spec) = None /\ years spec = None /\
  active (gender spec) = None /\ active (age_group spec) = None /\
  active (location_sel spec) = None.

(** The filter as the specification words it: a field puts a predicate
    whenever it is neither null nor "All", and the result is the records
    that satisfy all of them. *)
Definition spec_active (sel : option string) : option string :=
  match sel with
  | Some s => if decide (s = "All") then None else Some s
  | None => None
  end.

Definition spec_passes_eq (c : string) (sel : option string) (r : Row) : bool :=
  match spec_active sel with
  | Some s => eq_str s (cell_at r c)
  | None => true
  end.

Definition spec_apply (df : DataFrame) (spec : FilterSpec) : DataFrame :=
  mkDF (columns df)
    (filter (fun r =>
       spec_passes_eq "Country" (country spec) r &&
       passes_years (years spec) r &&
       spec_passes_eq "Gender" (gender spec) r &&
       spec_passes_eq "Age_Group" (age_group spec) r &&
       spec_passes_eq "Urban_Rural" (location_sel spec) r) (rows df)).

(** ** Sample frames *)

Definition num (z : Z) : cell := Num (Qc_of_Z z).

Definition respondent (c g a f : string) (y : cell) (u : string) : Row :=
  row_of [("Country", Str c); ("Gender", Str g); ("Age_Group", Str a);
          ("Fintech_Used", Str f); ("Year", y); ("Urban_Rural", Str u)].

Definition survey : DataFrame :=
  mkDF ["Country"; "Gender"; "Age_Group"; "Fintech_Used"; "Year"; "Urban_Rural"]
    [ respondent "Kenya" "Female" "18-24" "YES" (num 2020) "Urban";
      respondent "Ghana" "Male" "25-34" "no" (num 2020) "Rural";
      respondent "Kenya" "Male" "18-24" "Yes" NaN "Urban";
      respondent "Ghana" "Female" "25-34" "yes" (num 2021) "Urban";
      respondent "Kenya" "Female" "35-44" "No" (num 2021) "Rural" ].

(** A frame without a Country column and without a Year column. *)
Definition survey_gender_only : DataFrame :=
  mkDF ["Gender"]
    [ row_of [("Gender", Str "Female")]; row_of [("Gender", Str "Male")] ].

Definition no_filter : FilterSpec := mkFilterSpec None None None None None.

Definition only_country (c : string) : FilterSpec :=
  mkFilterSpec (Some c) None None None None.

Definition only_years (lo hi : Z) : FilterSpec :=
  mkFilterSpec None (Some (lo, hi)) None None None.

Definition all_selected (yrs : option (Z * Z)) : FilterSpec :=
  mkFilterSpec (Some "All") yrs (Some "All") (Some "All") (Some "All").


(** Frames without a Fintech_Used column: with and without a Year column. *)
Definition survey_country_year : DataFrame :=
  mkDF ["Country"; "Year"]
    [ row_of [("Country", Str "Kenya"); ("Year", num 2020)];
      row_of [("Country", Str "Kenya"); ("Year", num 2021)] ].

Definition survey_country_only : DataFrame :=
  mkDF ["Country"]
    [ row_of [("Country", Str "Kenya")]; row_of [("Country", Str "Ghana")] ].

(** The Use_Case_1 column of the specification's example, and one with
    "nan" strings, a missing value and a tie. *)
Definition use_cases (l : list cell) : DataFrame :=
  mkDF ["Use_Case_1"] (map (fun v => row_of [("Use_Case_1", v)]) l).

Definition use_cases_example : DataFrame :=
  use_cases [Str "A"; Str "A"; Str "B"; Str "Unknown"; Str "B"; Str "A"].

Definition use_cases_nan : DataFrame :=
  use_cases [Str "P2P"; Str "nan"; Str "Bills"; NaN; Str "Unknown";
             Str "Bills"; Str "P2P"; Str "Airtime"].

(** A file system with one table, and sample implementations of the two
    library functions: a parser that knows a few spellings, and a printer. *)
Definition sample_parse (s : string) : option Qc :=
  if decide (s = "2020") then Some (Qc_of_Z 2020)
  else if decide (s = "2021") then Some (Qc_of_Z 2021)
  else None.

Definition sample_str (q : Qc) : string :=
  if decide (q = Qc_of_Z 2020) then "2020.0" else "0.0".

Definition raw_table : DataFrame :=
  mkDF ["Country"; "Year"; "Fintech_Used"; "Barrier"]
    [ row_of [("Country", Str "Kenya"); ("Year", Str "2020");
              ("Fintech_Used", Str "Yes"); ("Barrier", Str "Trust")];
      row_of [("Country", NaN); ("Year", Str "n/a");
              ("Fintech_Used", NaN); ("Barrier", NaN)] ].

Definition disk : gmap string file :=
  {[ "datasets/fintech_usage_africa.csv" := Csv raw_table;
     "datasets/locked.csv" := Unreadable;
     "datasets/broken.csv" := Malformed;
     "datasets/empty.csv" := Empty;
     "datasets" := Directory ]}.

(** A frame whose Year column holds no number. *)
Definition survey_no_years : DataFrame :=
  mkDF ["Country"; "Fintech_Used"; "Year"]
    [ row_of [("Country", Str "Kenya"); ("Fintech_Used", Str "yes"); ("Year", NaN)] ].

(** A frame with nothing but a Monthly_Transactions column. *)
Definition transactions_frame (l : list cell) : DataFrame :=
  mkDF ["Monthly_Transactions"]
    (map (fun v => row_of [("Monthly_Transactions", v)]) l).

(** A frame with one record, of the year 10^20. *)
Definition survey_far_year : DataFrame :=
  mkDF ["Fintech_Used"; "Year"]
    [ row_of [("Fintech_Used", Str "yes"); ("Year", num (10 ^ 20))] ].

(** A select box returns one of the options it was given. *)
Definition picks_an_option (w : widgets) : Prop :=
  forall label opts, opts <> [] -> selectbox w label opts ∈ opts.

(** A cell of Monthly_Transactions that [> 0] keeps: a number above 0. *)
Definition positive (v : cell) : bool :=
  match v with
  | Num q => bool_decide (0 < q)%Qc
  | _ => false
  end.

(** * Properties *)

(** ** Lists: distinct values, occurrences, groups *)

Section lists.
Context {A : Type} `{EqDecision A}.
Implicit Types (x y : A) (l : list A).

Lemma elem_of_unique x l : x ∈ unique l <-> x ∈ l.
Proof.
  induction l as [|a l IH]; simpl; [done|].
  rewrite !elem_of_cons, list_elem_of_filter, IH.
  destruct (decide (x = a)); naive_solver.
Qed.

Lemma NoDup_unique l : NoDup (unique l).
Proof.
  induction l as [|a l IH]; simpl; [constructor|].
  constructor; [|by apply NoDup_filter].
  rewrite list_elem_of_filter. naive_solver.
Qed.

Lemma occurrences_cons x a l :
  occurrences x (a :: l) =
  if decide (a = x) then S (occurrences x l) else occurrences x l.
Proof.
  unfold occurrences. rewrite filter_cons. by destruct (decide (a = x)).
Qed.

Lemma occurrences_pos x l : x ∈ l <-> (0 < occurrences x l)%nat.
Proof.
  induction l as [|a l IH]; [by rewrite elem_of_nil; unfold occurrences; simpl; lia|].
  rewrite occurrences_cons, elem_of_cons.
  destruct (decide (a = x)); [naive_solver lia|]. rewrite <- IH. naive_solver.
Qed.

Lemma occurrences_zero x l : x ∉ l -> occurrences x l = 0%nat.
Proof. rewrite occurrences_pos. lia. Qed.

(** Summing a function over a duplicate-free list, one element apart. *)
Lemma sum_list_with_split (f : A -> nat) x (u : list A) :
  NoDup u ->
  sum_list_with f u =
  ((if decide (x ∈ u) then f x else 0) +
   sum_list_with f (filter (fun y => y <> x) u))%nat.
Proof.
  induction 1 as [|a u Ha Hu IH];
    [case_decide as Hx; [by apply elem_of_nil in Hx|done]|].
  rewrite filter_cons. cbn [sum_list_with]. rewrite IH.
  repeat case_decide; subst; cbn [sum_list_with];
    rewrite ?elem_of_cons in *; try lia; naive_solver.
Qed.

(** The counts of the distinct values add up to the length. *)
Lemma sum_occurrences_unique l :
  sum_list_with (fun k => occurrences k l) (unique l) = length l.
Proof.
  induction l as [|a l IH]; simpl; [done|].
  rewrite occurrences_cons, decide_True by done.
  rewrite <- IH.
  rewrite (sum_list_with_split (fun k => occurrences k l) a (unique l))
    by apply NoDup_unique.
  assert (sum_list_with (fun k => occurrences k (a :: l))
            (filter (fun y => y <> a) (unique l)) =
          sum_list_with (fun k => occurrences k l)
            (filter (fun y => y <> a) (unique l))) as ->.
  { generalize (unique l). intros u. induction u as [|b u IHu]; [done|].
    rewrite filter_cons. destruct (decide (b <> a)); [|done]. simpl.
    rewrite IHu, occurrences_cons. by rewrite decide_False by done. }
  destruct (decide (a ∈ unique l)) as [Hin|Hin]; [lia|].
  rewrite elem_of_unique in Hin. rewrite (occurrences_zero _ _ Hin). lia.
Qed.

Section groups.
Context (le : relation A) `{forall x y, Decision (le x y)}.

Lemma elem_of_groupby_size x n (keys : list A) :
  (x, n) ∈ groupby_size le keys <-> x ∈ keys /\ n = occurrences x keys.
Proof.
  unfold groupby_size. rewrite list_elem_of_fmap. split.
  - intros (k & [= -> ->] & Hk).
    rewrite merge_sort_Permutation, elem_of_unique in Hk. done.
  - intros [Hx ->]. exists x. split; [done|].
    by rewrite merge_sort_Permutation, elem_of_unique.
Qed.

Lemma groupby_size_keys (keys : list A) :
  (groupby_size le keys).*1 = merge_sort le (unique keys).
Proof.
  unfold groupby_size. rewrite <- list_fmap_compose.
  rewrite <- (list_fmap_id (merge_sort le (unique keys))) at 2.
  by apply list_fmap_ext.
Qed.

Lemma NoDup_groupby_size_keys (keys : list A) :
  NoDup (groupby_size le keys).*1.
Proof.
  rewrite groupby_size_keys, merge_sort_Permutation. apply NoDup_unique.
Qed.

Lemma sum_counts_groupby_size (keys : list A) :
  sum_counts (groupby_size le keys) = length keys.
Proof.
  unfold sum_counts, groupby_size.
  rewrite <- (sum_occurrences_unique keys).
  rewrite <- (sum_list_with_Permutation_proper _ _ _
                (merge_sort_Permutation le (unique keys))).
  generalize (merge_sort le (unique keys)). intros u.
  induction u as [|b u IHu]; simpl; [done|]. by rewrite IHu.
Qed.

Lemma length_groupby_size (keys : list A) :
  length (groupby_size le keys) = length (unique keys).
Proof.
  unfold groupby_size. by rewrite length_fmap, merge_sort_Permutation.
Qed.

End groups.
End lists.

(** ** Frames and cells *)


Lemma where_col_present df c p :
  has_column df c = true ->
  where_col df c p =
  Ok (mkDF (columns df) (filter (fun r => p (cell_at r c)) (rows df))).
Proof. unfold where_col. by intros ->. Qed.

Lemma where_col_absent df c p :
  has_column df c = false -> where_col df c p = Raise (KeyError c).
Proof. unfold where_col. by intros ->. Qed.

Lemma as_num_Some v q : as_num v = Some q <-> v = Num q.
Proof. destruct v; simpl; naive_solver. Qed.

Lemma notna_true v : notna v = true <-> v <> NaN.
Proof. by destruct v. Qed.

Lemma elem_of_dropna v s : v ∈ dropna s <-> v ∈ s /\ v <> NaN.
Proof.
  unfold dropna. rewrite list_elem_of_filter, Is_true_true, notna_true.
  naive_solver.
Qed.

Lemma ascii_lower_y a : ascii_lower a = "y"%char <-> a = "y"%char \/ a = "Y"%char.
Proof.
  split; [|by intros [-> | ->]].
  destruct a as [[] [] [] [] [] [] [] []]; vm_compute; intros; try discriminate; auto.
Qed.

Lemma ascii_lower_e a : ascii_lower a = "e"%char <-> a = "e"%char \/ a = "E"%char.
Proof.
  split; [|by intros [-> | ->]].
  destruct a as [[] [] [] [] [] [] [] []]; vm_compute; intros; try discriminate; auto.
Qed.

Lemma ascii_lower_s a : ascii_lower a = "s"%char <-> a = "s"%char \/ a = "S"%char.
Proof.
  split; [|by intros [-> | ->]].
  destruct a as [[] [] [] [] [] [] [] []]; vm_compute; intros; try discriminate; auto.
Qed.

(** The strings that [str.lower] sends to "yes" are its eight spellings. *)
Lemma str_lower_yes s :
  str_lower s = "yes" <->
  s ∈ ["yes"; "yeS"; "yEs"; "yES"; "Yes"; "YeS"; "YEs"; "YES"].
Proof.
  split.
  - destruct s as [|a [|b [|c [|d s]]]]; simpl; try discriminate.
    intros [= Ha Hb Hc].
    apply ascii_lower_y in Ha. apply ascii_lower_e in Hb.
    apply ascii_lower_s in Hc.
    destruct Ha as [-> | ->], Hb as [-> | ->], Hc as [-> | ->];
      repeat (first [left; reflexivity | right]).
  - rewrite !elem_of_cons, elem_of_nil.
    intros [->|[->|[->|[->|[->|[->|[->|[->|[]]]]]]]]]; reflexivity.
Qed.

Lemma is_yes_true v :
  is_yes v = true <-> exists s, v = Str s /\ str_lower s = "yes".
Proof.
  unfold is_yes. destruct v as [|s|q]; simpl; [naive_solver| |naive_solver].
  rewrite bool_decide_eq_true. naive_solver.
Qed.

Lemma occurrences_omap {B C : Type} `{EqDecision C} (f : B -> option C)
    (y : C) (l : list B) :
  occurrences y (omap f l) = length (filter (fun b => f b = Some y) l).
Proof.
  induction l as [|b l IH]; [done|].
  rewrite filter_cons.
  change (omap f (b :: l))
    with (match f b with Some c => c :: omap f l | None => omap f l end).
  destruct (f b) as [c|] eqn:Hb.
  - rewrite occurrences_cons, IH.
    destruct (decide (c = y)) as [->|Hne].
    + by rewrite decide_True by done.
    + rewrite decide_False; [done|]. congruence.
  - rewrite IH, decide_False; [done|]. congruence.
Qed.

(** ** Rates *)

Lemma percent_bounds c t :
  (c <= t)%nat -> (0 < t)%nat -> (0 <= percent c t <= 100)%Q.
Proof.
  intros Hct Ht. unfold percent.
  assert (0 <= inject_Z (Z.of_nat c))%Q as H0 by (rewrite <- (Zle_Qle 0); lia).
  assert (inject_Z (Z.of_nat c) <= inject_Z (Z.of_nat t))%Q as H1
    by (rewrite <- Zle_Qle; lia).
  assert (0 < inject_Z (Z.of_nat t))%Q as H2 by (rewrite <- (Zlt_Qlt 0); lia).
  set (a := inject_Z (Z.of_nat c)) in *. set (b := inject_Z (Z.of_nat t)) in *.
  assert (0 <= a / b <= 1)%Q as [? ?].
  { split.
    - apply Qle_shift_div_l; [done|]. lra.
    - apply Qle_shift_div_r; [done|]. lra. }
  split; lra.
Qed.

(** ** kpis *)

Lemma year_keys_occurrences df y :
  occurrences y (year_keys df) =
  length (filter (fun r => cell_at r "Year" = Num y) (rows df)).
Proof.
  unfold year_keys. rewrite occurrences_omap.
  f_equal. apply list_filter_iff. intros r. apply as_num_Some.
Qed.

(** What kpis returns on a frame that has the Fintech_Used column. *)
Lemma kpis_with_fintech_used df :
  has_column df "Fintech_Used" = true ->
  kpis df =
  Ok (mkKPIs
        (length (rows df))
        (length (fintech_rows df))
        (if bool_decide (length (rows df) <> 0%nat)
         then percent (length (fintech_rows df)) (length (rows df)) else 0%Q)
        (if has_column df "Year" then
           let by_year :=
             groupby_size Qcle_dec_rel
               (year_keys (mkDF (columns df) (fintech_rows df))) in
           if bool_decide (by_year <> []) then mean_counts by_year else 0%Q
         else 0%Q)
        (if has_column df "Country"
         then nunique (map (fun r => cell_at r "Country") (rows df))
         else 0%nat)).
Proof.
  intros Hfu. unfold kpis. rewrite Hfu, (where_col_present _ _ _ Hfu).
  by destruct (has_column df "Year").
Qed.

(** What kpis returns on a frame that has neither Fintech_Used nor Year. *)
Lemma kpis_without_both df :
  has_column df "Fintech_Used" = false ->
  has_column df "Year" = false ->
  kpis df =
  Ok (mkKPIs
        (length (rows df)) 0
        (if bool_decide (length (rows df) <> 0%nat)
         then percent 0 (length (rows df)) else 0%Q)
        0%Q
        (if has_column df "Country"
         then nunique (map (fun r => cell_at r "Country") (rows df))
         else 0%nat)).
Proof. intros Hfu Hy. unfold kpis. by rewrite Hfu, Hy. Qed.

(** The defect of line 53: with a Year column and no Fintech_Used column
    the second selection raises. *)
Lemma kpis_year_without_fintech_used df :
  has_column df "Year" = true ->
  has_column df "Fintech_Used" = false ->
  kpis df = Raise (KeyError "Fintech_Used").
Proof.
  intros Hy Hfu. unfold kpis.
  by rewrite Hfu, Hy, (where_col_absent _ _ _ Hfu).
Qed.

Lemma length_fintech_rows_le df : (length (fintech_rows df) <= length (rows df))%nat.
Proof. unfold fintech_rows. apply length_filter. Qed.

Lemma adoption_rate_bounds c t :
  (c <= t)%nat ->
  (0 <= (if bool_decide (t <> 0%nat) then percent c t else 0%Q) <= 100)%Q.
Proof.
  intros Hct. case_bool_decide; [apply percent_bounds; lia|]. split; lra.
Qed.

(** The table [by_year] of kpis: one entry per Year that has a fintech
    user, holding the number of fintech users of that Year. *)
Lemma by_year_entries df y n :
  (y, n) ∈ groupby_size Qcle_dec_rel
             (year_keys (mkDF (columns df) (fintech_rows df))) <->
  n = users_in_year df y /\ (0 < n)%nat.
Proof.
  rewrite elem_of_groupby_size, occurrences_pos, year_keys_occurrences.
  unfold users_in_year. simpl. naive_solver.
Qed.

Lemma nunique_distinct (s : list cell) :
  exists l, NoDup l /\ (forall v, v ∈ l <-> v <> NaN /\ v ∈ s) /\
            nunique s = length l.
Proof.
  exists (unique (dropna s)). split; [apply NoDup_unique|]. split; [|done].
  intros v. rewrite elem_of_unique, elem_of_dropna. naive_solver.
Qed.

(** kpis on every frame on which it returns: the five values. *)
Lemma kpis_returns df :
  has_column df "Fintech_Used" = true \/ has_column df "Year" = false ->
  exists k, kpis df = Ok k /\
    total k = length (rows df) /\
    fintech_count k =
      (if has_column df "Fintech_Used" then length (fintech_rows df) else 0%nat) /\
    adoption_rate k =
      (if decide (length (rows df) = 0%nat) then 0%Q
       else percent (fintech_count k) (length (rows df))) /\
    (0 <= adoption_rate k <= 100)%Q /\
    (if has_column df "Year" then
       exists by_year : list (Qc * nat),
         NoDup by_year.*1 /\
         (forall y n, (y, n) ∈ by_year <-> n = users_in_year df y /\ (0 < n)%nat) /\
         monthly_avg_users k =
           (if decide (by_year = []) then 0%Q else mean_counts by_year)
     else monthly_avg_users k = 0%Q) /\
    (if has_column df "Country" then
       exists l, NoDup l /\
         (forall v, v ∈ l <->
            v <> NaN /\ exists r, r ∈ rows df /\ cell_at r "Country" = v) /\
         total_countries k = length l
     else total_countries k = 0%nat).
Proof.
  intros Hdom.
  destruct (has_column df "Fintech_Used") eqn:Hfu.
  - eexists. split; [by apply kpis_with_fintech_used|]. simpl.
    split; [done|]. split; [done|]. split.
    { case_bool_decide; case_decide; done. }
    split; [apply adoption_rate_bounds, length_fintech_rows_le|]. split.
    + destruct (has_column df "Year"); [|done].
      exists (groupby_size Qcle_dec_rel
                (year_keys (mkDF (columns df) (fintech_rows df)))).
      split; [apply NoDup_groupby_size_keys|].
      split; [apply by_year_entries|].
      simpl. case_bool_decide; case_decide; done.
    + destruct (has_column df "Country"); [|done].
      destruct (nunique_distinct (map (fun r => cell_at r "Country") (rows df)))
        as (l & Hnd & Hl & Hlen).
      exists l. split; [done|]. split; [|done].
      intros v. rewrite Hl.
      change (v ∈ (fun r => cell_at r "Country") <$> rows df)
        with (v ∈ map (fun r => cell_at r "Country") (rows df)).
      setoid_rewrite list_elem_of_fmap. naive_solver.
  - destruct Hdom as [|Hy]; [done|].
    eexists. split; [by apply kpis_without_both|]. simpl. rewrite Hy.
    split; [done|]. split; [done|]. split.
    { case_bool_decide; case_decide; done. }
    split; [apply adoption_rate_bounds; lia|]. split; [done|].
    destruct (has_column df "Country"); [|done].
    destruct (nunique_distinct (map (fun r => cell_at r "Country") (rows df)))
      as (l & Hnd & Hl & Hlen).
    exists l. split; [done|]. split; [|done].
    intros v. rewrite Hl. setoid_rewrite list_elem_of_fmap. naive_solver.
Qed.

(** The fintech users are the records whose Fintech_Used is one of the
    eight spellings of "yes". *)
Lemma elem_of_fintech_rows df r :
  r ∈ fintech_rows df <->
  r ∈ rows df /\
  exists s, cell_at r "Fintech_Used" = Str s /\
            s ∈ ["yes"; "yeS"; "yEs"; "yES"; "Yes"; "YeS"; "YEs"; "YES"].
Proof.
  unfold fintech_rows.
  rewrite list_elem_of_filter, Is_true_true, is_yes_true.
  setoid_rewrite str_lower_yes. tauto.
Qed.

(** The mean of the per-Year counts: the number of keyed rows over the
    number of distinct keys. *)
Lemma mean_counts_groupby_size (keys : list Qc) :
  mean_counts (groupby_size Qcle_dec_rel keys) =
  (inject_Z (Z.of_nat (length keys)) /
   inject_Z (Z.of_nat (length (unique keys))))%Q.
Proof.
  unfold mean_counts.
  by rewrite sum_counts_groupby_size, length_groupby_size.
Qed.

(** ** The filter block *)

Lemma active_Some sel s :
  active sel = Some s <-> sel = Some s /\ s <> "" /\ s <> "All".
Proof.
  unfold active. destruct sel as [t|]; [|naive_solver].
  case_bool_decide; naive_solver.
Qed.

Lemma active_None sel :
  active sel = None <-> sel = None \/ sel = Some "" \/ sel = Some "All".
Proof.
  unfold active. destruct sel as [t|]; [|naive_solver].
  case_bool_decide as Ht; [naive_solver|].
  destruct (decide (t = "")), (decide (t = "All")); naive_solver.
Qed.

Lemma filter_all {B : Type} (l : list B) : filter (fun _ => Is_true true) l = l.
Proof.
  induction l as [|b l IH]; [done|]. rewrite filter_cons_True by done.
  by rewrite IH.
Qed.

Lemma mkDF_eta df : mkDF (columns df) (rows df) = df.
Proof. by destruct df. Qed.

(** One equality step of the block, on a frame that has the column
    whenever the selection is active. *)
Lemma filter_eq_present c sel df :
  (is_Some (active sel) -> has_column df c = true) ->
  filter_eq c sel df =
  Ok (mkDF (columns df) (filter (fun r => passes_eq c sel r) (rows df))).
Proof.
  intros Hc. unfold filter_eq, passes_eq.
  destruct (active sel) as [s|].
  - apply where_col_present, Hc. by eexists.
  - by rewrite filter_all, mkDF_eta.
Qed.

Lemma filter_years_present yrs df :
  (is_Some yrs -> has_column df "Year" = true) ->
  filter_years yrs df =
  Ok (mkDF (columns df) (filter (fun r => passes_years yrs r) (rows df))).
Proof.
  intros Hc. unfold filter_years, passes_years.
  destruct yrs as [[lo hi]|].
  - apply where_col_present, Hc. by eexists.
  - by rewrite filter_all, mkDF_eta.
Qed.

(** An equality step on an absent column, with an active selection. *)
Lemma filter_eq_absent c sel df :
  is_Some (active sel) -> has_column df c = false ->
  filter_eq c sel df = Raise (KeyError c).
Proof.
  intros [s Hs] Hc. unfold filter_eq. rewrite Hs. by apply where_col_absent.
Qed.

Lemma filter_years_absent yrs df :
  is_Some yrs -> has_column df "Year" = false ->
  filter_years yrs df = Raise (KeyError "Year").
Proof.
  intros [[lo hi] ->] Hc. by apply where_col_absent.
Qed.

Lemma filter_filter_bool {B : Type} (p q : B -> bool) (l : list B) :
  filter (fun b => q b) (filter (fun b => p b) l) =
  filter (fun b => p b && q b) l.
Proof.
  rewrite list_filter_filter. apply list_filter_iff. intros b.
  rewrite andb_True. naive_solver.
Qed.

(** The block on a frame that has every constrained column: the rows that
    pass all predicates, in their order. *)
Lemma apply_filters_present df spec :
  constrained_present df spec ->
  apply_filters df spec =
  Ok (mkDF (columns df) (filter (fun r => passes spec r) (rows df))).
Proof.
  intros (Hc & Hy & Hg & Ha & Hl). unfold apply_filters.
  rewrite (filter_eq_present _ _ _ Hc). cbn [mbind result_bind].
  rewrite filter_years_present by done. cbn [mbind result_bind columns rows].
  rewrite filter_eq_present by done. cbn [mbind result_bind columns rows].
  rewrite filter_eq_present by done. cbn [mbind result_bind columns rows].
  rewrite filter_eq_present by done. cbn [columns rows].
  rewrite (filter_filter_bool (passes_eq "Country" (country spec))
             (passes_years (years spec))).
  rewrite (filter_filter_bool _ (passes_eq "Gender" (gender spec))).
  rewrite (filter_filter_bool _ (passes_eq "Age_Group" (age_group spec))).
  by rewrite (filter_filter_bool _ (passes_eq "Urban_Rural" (location_sel spec))).
Qed.

Lemma between_true lo hi v :
  between lo hi v = true <->
  exists q : Qc, v = Num q /\ (inject_Z lo <= q <= inject_Z hi)%Q.
Proof.
  unfold between, Qc_leb, Qc_of_Z. destruct v as [|s|q]; simpl; [naive_solver..|].
  rewrite andb_true_iff, !Qle_bool_iff, !Qred_correct.
  split; [intros [? ?]; exists q; done|]. by intros (q' & [= <-] & ? & ?).
Qed.

Lemma eq_str_true s v : eq_str s v = true <-> v = Str s.
Proof.
  destruct v as [|t|q]; simpl; [naive_solver| |naive_solver].
  rewrite bool_decide_eq_true. naive_solver.
Qed.

Lemma passes_eq_true c sel r :
  passes_eq c sel r = true <->
  forall s, active sel = Some s -> cell_at r c = Str s.
Proof.
  unfold passes_eq. destruct (active sel) as [s|]; [|naive_solver].
  rewrite eq_str_true. naive_solver.
Qed.

Lemma passes_years_true yrs r :
  passes_years yrs r = true <->
  forall lo hi, yrs = Some (lo, hi) ->
    exists q : Qc, cell_at r "Year" = Num q /\
                   (inject_Z lo <= q <= inject_Z hi)%Q.
Proof.
  unfold passes_years. destruct yrs as [[lo hi]|]; [|naive_solver].
  rewrite between_true. naive_solver.
Qed.

Lemma passes_true spec r : passes spec r = true <-> satisfies spec r.
Proof.
  unfold passes, satisfies.
  rewrite !andb_true_iff, !passes_eq_true, passes_years_true. naive_solver.
Qed.

Lemma passes_unconstrained spec r : unconstrained spec -> passes spec r = true.
Proof.
  intros (Hc & Hy & Hg & Ha & Hl). apply passes_true. unfold satisfies.
  rewrite Hc, Hy, Hg, Ha, Hl. naive_solver.
Qed.

Lemma unconstrained_present df spec :
  unconstrained spec -> constrained_present df spec.
Proof.
  intros (Hc & Hy & Hg & Ha & Hl). unfold constrained_present.
  rewrite Hc, Hy, Hg, Ha, Hl. repeat split; by intros [? ?].
Qed.

Lemma apply_filters_unconstrained df spec :
  unconstrained spec -> apply_filters df spec = Ok df.
Proof.
  intros Hu. rewrite apply_filters_present by by apply unconstrained_present.
  rewrite <- (mkDF_eta df) at 3. do 2 f_equal.
  rewrite <- (filter_all (rows df)) at 2.
  apply list_filter_iff. intros r. by rewrite (passes_unconstrained _ _ Hu).
Qed.

(** A step of the block either raises on its absent column or selects. *)
Lemma filter_eq_cases c sel df :
  filter_eq c sel df =
  if decide (is_Some (active sel) /\ has_column df c = false)
  then Raise (KeyError c)
  else Ok (mkDF (columns df) (filter (fun r => passes_eq c sel r) (rows df))).
Proof.
  case_decide as Hb.
  - destruct Hb. by apply filter_eq_absent.
  - apply filter_eq_present. intros Hs.
    destruct (has_column df c); naive_solver.
Qed.

Lemma filter_years_cases yrs df :
  filter_years yrs df =
  if decide (is_Some yrs /\ has_column df "Year" = false)
  then Raise (KeyError "Year")
  else Ok (mkDF (columns df) (filter (fun r => passes_years yrs r) (rows df))).
Proof.
  case_decide as Hb.
  - destruct Hb. by apply filter_years_absent.
  - apply filter_years_present. intros Hs.
    destruct (has_column df "Year"); naive_solver.
Qed.

Lemma has_column_mkDF df l c : has_column (mkDF (columns df) l) c = has_column df c.
Proof. done. Qed.

(** With a predicate on an absent column the block raises KeyError for an
    absent column. *)
Lemma apply_filters_blocked df spec :
  ~ constrained_present df spec ->
  exists c, has_column df c = false /\ apply_filters df spec = Raise (KeyError c).
Proof.
  intros Hn. unfold apply_filters.
  rewrite filter_eq_cases. case_decide as H1; [exists "Country"; naive_solver|].
  cbn [mbind result_bind]. rewrite filter_years_cases, has_column_mkDF.
  case_decide as H2; [exists "Year"; naive_solver|].
  cbn [mbind result_bind]. rewrite filter_eq_cases, has_column_mkDF.
  case_decide as H3; [exists "Gender"; naive_solver|].
  cbn [mbind result_bind]. rewrite filter_eq_cases, has_column_mkDF.
  case_decide as H4; [exists "Age_Group"; naive_solver|].
  cbn [mbind result_bind]. rewrite filter_eq_cases, has_column_mkDF.
  case_decide as H5; [exists "Urban_Rural"; naive_solver|].
  destruct Hn. unfold constrained_present.
  repeat split; intros Hs;
    match goal with |- has_column ?d ?c = true =>
      destruct (has_column d c) eqn:?; naive_solver end.
Qed.

Lemma apply_filters_Ok_present df spec out :
  apply_filters df spec = Ok out -> constrained_present df spec.
Proof.
  intros Hok. destruct (decide (constrained_present df spec)) as [|Hn]; [done|].
  destruct (apply_filters_blocked _ _ Hn) as (c & _ & Hr). congruence.
Qed.

(** ** The filter widgets *)

Lemma offered_absent df c sel :
  offered df c sel -> has_column df c = false -> active sel = None.
Proof.
  unfold offered, options. intros Ho Hc. rewrite Hc in Ho.
  destruct sel as [s|]; [|done].
  apply list_elem_of_singleton in Ho as ->. done.
Qed.

Lemma from_widgets_present df spec :
  from_widgets df spec -> constrained_present df spec.
Proof.
  intros (Hc & Hy & Hg & Ha & Hl). unfold constrained_present.
  repeat split; [|done|..]; intros [s Hs];
    match goal with |- has_column ?d ?c = true =>
      destruct (has_column d c) eqn:Hcol; [done|] end;
    match goal with H : offered _ _ _ |- _ =>
      pose proof (offered_absent _ _ _ H Hcol); congruence end.
Qed.

(** ** The filter block: statements *)

(** C3, as stated, fails on the code.  The specification's reading of the
    filter puts a predicate for every field that is neither null nor "All"
    and returns the records that satisfy them.  On a frame without a Country
    column the block raises for Country = "Kenya" instead of returning such
    a result, and for Country = "" (the empty string, which Python takes as
    false) it puts no predicate and returns every record, although no
    record has the empty string as its Country. *)
Lemma apply_filters_differs_from_spec_apply :
  apply_filters survey_gender_only (only_country "Kenya")
    = Raise (KeyError "Country") /\
  apply_filters survey_gender_only (only_country "Kenya")
    <> Ok (spec_apply survey_gender_only (only_country "Kenya")) /\
  apply_filters survey (only_country "") = Ok survey /\
  rows (spec_apply survey (only_country "")) = [] /\
  apply_filters survey (only_country "")
    <> Ok (spec_apply survey (only_country "")).
Proof.
  assert (apply_filters survey (only_country "") = Ok survey) as Hall.
  { apply apply_filters_unconstrained. by repeat split. }
  assert (rows (spec_apply survey (only_country "")) = []) as Hnone
    by (vm_compute; reflexivity).
  split; [reflexivity|]. split; [discriminate|].
  split; [exact Hall|]. split; [exact Hnone|].
  rewrite Hall. intros Heq.
  assert (survey = spec_apply survey (only_country "")) as Hsame by congruence.
  rewrite <- Hsame in Hnone. discriminate.
Qed.

(** C3 (amended): for every frame and every FilterSpec whose predicates
    are on columns of the frame, the block returns exactly the records that
    satisfy every predicate of the spec -- a string field puts one when it
    is neither null, nor empty, nor "All"; the Year range puts one when it
    is not null -- combined by conjunction and in the order of the input;
    and a spec that puts no predicate returns the frame itself, whatever
    its columns. *)
Theorem apply_filters_exact (df : DataFrame) (spec : FilterSpec) :
  (unconstrained spec -> apply_filters df spec = Ok df) /\
  (constrained_present df spec ->
   exists out,
     apply_filters df spec = Ok out /\
     columns out = columns df /\
     rows out = filter (fun r => passes spec r) (rows df) /\
     (forall r, r ∈ rows out <-> r ∈ rows df /\ satisfies spec r) /\
     rows out `sublist_of` rows df).
Proof.
  split; [apply apply_filters_unconstrained|].
  intros Hp. eexists. split; [by apply apply_filters_present|].
  cbn [columns rows]. split; [done|]. split; [done|]. split.
  - intros r. rewrite list_elem_of_filter, Is_true_true, passes_true. tauto.
  - apply sublist_filter.
Qed.

Lemma apply_filters_exact_witness :
  constrained_present survey
    (mkFilterSpec (Some "Kenya") (Some (2020, 2021)%Z) (Some "Female")
       (Some "All") None) /\
  exists out,
    apply_filters survey
      (mkFilterSpec (Some "Kenya") (Some (2020, 2021)%Z) (Some "Female")
         (Some "All") None) = Ok out /\
    map (fun r => cell_at r "Age_Group") (rows out) = [Str "18-24"; Str "35-44"].
Proof.
  assert (constrained_present survey
            (mkFilterSpec (Some "Kenya") (Some (2020, 2021)%Z) (Some "Female")
               (Some "All") None)) as Hp.
  { unfold constrained_present. repeat split; intros _; reflexivity. }
  split; [exact Hp|].
  destruct (proj2 (apply_filters_exact survey _) Hp)
    as (out & Hout & _ & Hrows & _).
  exists out. split; [exact Hout|]. rewrite Hrows. vm_compute. reflexivity.
Defined.

(** C5, as stated, fails on the code: a Year range applied to a frame that
    has no Year column raises KeyError; it is not skipped. *)
Lemma year_range_on_absent_year_raises :
  apply_filters survey_gender_only (only_years 2019 2021)
    = Raise (KeyError "Year") /\
  apply_filters survey_gender_only (only_years 2019 2021)
    <> Ok survey_gender_only.
Proof. split; [reflexivity|discriminate]. Qed.

(** C5 (amended): the filter block does not look whether a column exists:
    a FilterSpec that puts a predicate on a column absent from the frame
    makes it raise KeyError for an absent column.  The widgets of main never
    build such a spec: for an absent column the only option offered is
    "All", and there is a Year range only when the frame has a Year column;
    so every FilterSpec that comes from the widgets has all its predicates
    on columns of the frame and is applied without error. *)
Theorem filters_and_absent_columns (df : DataFrame) (spec : FilterSpec) :
  (from_widgets df spec ->
   constrained_present df spec /\
   apply_filters df spec =
     Ok (mkDF (columns df) (filter (fun r => passes spec r) (rows df)))) /\
  (~ constrained_present df spec ->
   exists c, has_column df c = false /\
             apply_filters df spec = Raise (KeyError c)).
Proof.
  split; [|apply apply_filters_blocked].
  intros Hw. pose proof (from_widgets_present _ _ Hw) as Hp.
  split; [done|]. by apply apply_filters_present.
Qed.

Lemma filters_and_absent_columns_witness :
  from_widgets survey_gender_only (all_selected None) /\
  apply_filters survey_gender_only (all_selected None) = Ok survey_gender_only.
Proof.
  assert (from_widgets survey_gender_only (all_selected None)) as Hw.
  { unfold from_widgets, offered. cbn [all_selected country years gender
      age_group location_sel].
    repeat split;
      apply (bool_decide_unpack _); vm_compute; exact I. }
  split; [exact Hw|].
  destruct (proj1 (filters_and_absent_columns survey_gender_only _) Hw)
    as [_ Heq].
  rewrite Heq. vm_compute. reflexivity.
Defined.

(** C9: for every frame with a Year column and every Year range, the
    filter block keeps no record whose Year is null -- whatever the bounds,
    the full observed range included -- so that its result differs from the
    input whenever some record has a null Year; and the block returns
    whenever the other predicates are on columns of the frame. *)
Theorem year_range_drops_null_years (df : DataFrame) (spec : FilterSpec)
    (lo hi : Z) :
  has_column df "Year" = true ->
  years spec = Some (lo, hi) ->
  (forall out, apply_filters df spec = Ok out ->
     (forall r, r ∈ rows out -> cell_at r "Year" <> NaN) /\
     ((exists r, r ∈ rows df /\ cell_at r "Year" = NaN) ->
      rows out <> rows df)) /\
  (constrained_present df spec -> exists out, apply_filters df spec = Ok out).
Proof.
  intros Hy Hyrs. split.
  - intros out Hout.
    pose proof (apply_filters_Ok_present _ _ _ Hout) as Hp.
    rewrite (apply_filters_present _ _ Hp) in Hout. injection Hout as <-.
    cbn [rows].
    assert (forall r, r ∈ filter (fun r => passes spec r) (rows df) ->
                      cell_at r "Year" <> NaN) as Hnn.
    { intros r. rewrite list_elem_of_filter, Is_true_true, passes_true.
      intros [(_ & Hr & _) _].
      destruct (Hr lo hi Hyrs) as (q & -> & _). discriminate. }
    split; [exact Hnn|].
    intros (r & Hr & Hnan) Heq. rewrite <- Heq in Hr. by apply (Hnn r).
  - intros Hp. eexists. by apply apply_filters_present.
Qed.

Lemma year_range_drops_null_years_witness :
  has_column survey "Year" = true /\
  years (all_selected (Some (2020, 2021)%Z)) = Some (2020, 2021)%Z /\
  exists out,
    apply_filters survey (all_selected (Some (2020, 2021)%Z)) = Ok out /\
    length (rows out) = 4%nat /\
    rows out <> rows survey.
Proof.
  split; [reflexivity|]. split; [reflexivity|].
  destruct (year_range_drops_null_years survey
              (all_selected (Some (2020, 2021)%Z)) 2020 2021
              eq_refl eq_refl) as [Hout Hex].
  destruct Hex as [out Hok].
  { unfold constrained_present. repeat split; intros _; reflexivity. }
  exists out. split; [exact Hok|]. split.
  - rewrite apply_filters_present in Hok
      by (unfold constrained_present; repeat split; intros _; reflexivity).
    injection Hok as <-. vm_compute. reflexivity.
  - apply (Hout out Hok).
    exists (respondent "Kenya" "Male" "18-24" "Yes" NaN "Urban").
    split; [|vm_compute; reflexivity].
    unfold survey. cbn [rows]. do 2 apply list_elem_of_further.
    apply list_elem_of_here.
Defined.

(** ** kpis: statements *)






(** C1: on every frame that has a Year column and no Fintech_Used column
    kpis raises KeyError where the claim has it return a degraded value:
    the selection of line 53 is not under the guard that line 47 has. *)
Theorem kpis_halts_without_fintech_used (df : DataFrame) :
  has_column df "Year" = true ->
  has_column df "Fintech_Used" = false ->
  kpis df = Raise (KeyError "Fintech_Used").
Proof. apply kpis_year_without_fintech_used. Qed.

Lemma kpis_halts_without_fintech_used_witness :
  has_column survey_country_year "Year" = true /\
  has_column survey_country_year "Fintech_Used" = false /\
  kpis survey_country_year = Raise (KeyError "Fintech_Used").
Proof.
  split; [reflexivity|]. split; [reflexivity|].
  apply (kpis_halts_without_fintech_used survey_country_year); reflexivity.
Defined.

(** Without a Year column the absent Fintech_Used column does degrade to
    the default of line 47: no fintech users. *)
Lemma kpis_degrades_without_year :
  kpis survey_country_only = Ok (mkKPIs 2 0 (percent 0 2) 0 2).
Proof. by vm_compute. Qed.

(** C2: the failing input.  The frame has two records, a Year column and no
    Fintech_Used column; the claim has kpis return total 2, fintech_count
    0, adoption_rate 0, monthly_avg_users 0 and total_countries 1; the code
    raises at line 53 (the defect of C1). *)
Theorem kpis_on_country_year_frame :
  kpis survey_country_year = Raise (KeyError "Fintech_Used").
Proof. reflexivity. Qed.

(** The spec's first example (total 10, 4 users in varied case, two years
    of 2 users each) in small: 5 records, 3 users, two years with users. *)
Lemma kpis_survey :
  exists k, kpis survey = Ok k /\
    total k = 5%nat /\ fintech_count k = 3%nat /\
    (adoption_rate k == 60)%Q /\ (monthly_avg_users k == 1)%Q /\
    total_countries k = 2%nat.
Proof.
  eexists. split; [by apply kpis_with_fintech_used|]. by vm_compute.
Qed.

(** ** trends_page *)

#[local] Instance Qcle_dec_rel_total : base.Total Qcle_dec_rel.
Proof.
  intros x y. unfold Qcle_dec_rel, Qc_leb. rewrite !Qle_bool_iff.
  destruct (Qlt_le_dec x y) as [Hlt|Hle]; [left; by apply Qlt_le_weak|by right].
Qed.

#[local] Instance Qcle_dec_rel_trans : Transitive Qcle_dec_rel.
Proof.
  intros x y z. unfold Qcle_dec_rel, Qc_leb. rewrite !Qle_bool_iff.
  apply Qle_trans.
Qed.

Lemma Qcle_dec_rel_lt x y : Qcle_dec_rel x y -> x <> y -> (x < y)%Qc.
Proof.
  unfold Qcle_dec_rel, Qc_leb. rewrite Qle_bool_iff. intros Hle Hne.
  destruct (Qcle_lt_or_eq x y Hle); done.
Qed.

(** A list sorted for an order, whose keys are pairwise distinct, is sorted
    for the strict order. *)
Lemma StronglySorted_strict {B K : Type} (f : B -> K) (R R' : relation B)
    (l : list B) :
  (forall a b, R a b -> f a <> f b -> R' a b) ->
  StronglySorted R l -> NoDup (f <$> l) -> StronglySorted R' l.
Proof.
  intros HR. induction 1 as [|a l Hl IH Ha]; [constructor|].
  rewrite fmap_cons, NoDup_cons. intros [Hna Hnd].
  constructor; [by apply IH|].
  rewrite Forall_forall in Ha. apply Forall_forall. intros b Hb.
  apply HR; [by apply Ha|]. intros Heq. apply Hna. rewrite Heq.
  by apply list_elem_of_fmap_2.
Qed.

Lemma StronglySorted_fmap_2 {B C : Type} (g : B -> C) (R : relation C)
    (l : list B) :
  StronglySorted (fun a b => R (g a) (g b)) l -> StronglySorted R (g <$> l).
Proof.
  induction 1 as [|a l Hl IH Ha]; [constructor|].
  rewrite fmap_cons. constructor; [done|]. by apply Forall_fmap.
Qed.

Lemma filter_none {B : Type} (P : B -> Prop) `{forall b, Decision (P b)}
    (l : list B) :
  (forall b, b ∈ l -> ~ P b) -> filter P l = [].
Proof.
  induction l as [|b l IH]; [done|]. intros Hl.
  rewrite filter_cons_False by (apply Hl; left).
  apply IH. intros b' Hb'. apply Hl. by right.
Qed.

Lemma filter_key_NoDup (right : list (Qc * nat)) (y : Qc) :
  NoDup right.*1 -> (length (filter (fun e => e.1 = y) right) <= 1)%nat.
Proof.
  induction right as [|e right IH]; [simpl; lia|].
  rewrite fmap_cons, NoDup_cons. intros [Hn Hnd].
  rewrite filter_cons. case_decide as He; [|by apply IH].
  assert (filter (fun e0 => e0.1 = y) right = []) as ->; [|simpl; lia].
  apply filter_none. intros e' He' Hy. apply Hn.
  rewrite He, <- Hy. by apply list_elem_of_fmap_2.
Qed.

Lemma merge_left_unique_right (left right : list (Qc * nat)) :
  NoDup right.*1 ->
  merge_left left right =
  map (fun yt => (yt.1, yt.2, find_count yt.1 right)) left.
Proof.
  intros Hnd. induction left as [|yt left IH]; [done|].
  change (merge_left (yt :: left) right)
    with ((match filter (fun e => e.1 = yt.1) right with
           | [] => [(yt.1, yt.2, None)]
           | ms => map (fun e => (yt.1, yt.2, Some e.2)) ms
           end) ++ merge_left left right).
  rewrite IH. clear IH. cbn [map]. unfold find_count.
  pose proof (filter_key_NoDup right yt.1 Hnd) as Hlen.
  destruct (filter (fun e => e.1 = yt.1) right) as [|e [|e' ms]];
    [done|done|]. simpl in Hlen. lia.
Qed.

Lemma find_count_groupby_size (keys : list Qc) (y : Qc) :
  default 0%nat (find_count y (groupby_size Qcle_dec_rel keys)) =
  occurrences y keys.
Proof.
  unfold find_count.
  destruct (filter (fun e => e.1 = y) (groupby_size Qcle_dec_rel keys))
    as [|[k n] ms] eqn:Hf.
  - simpl. symmetry. apply occurrences_zero. intros Hy.
    assert ((y, occurrences y keys) ∈
            filter (fun e => e.1 = y) (groupby_size Qcle_dec_rel keys)) as Hin.
    { apply list_elem_of_filter. split; [done|].
      by apply elem_of_groupby_size. }
    rewrite Hf in Hin. by apply elem_of_nil in Hin.
  - assert ((k, n) ∈ filter (fun e => e.1 = y)
                       (groupby_size Qcle_dec_rel keys)) as Hin
      by (rewrite Hf; left).
    apply list_elem_of_filter in Hin as [Hk Hin]. simpl in Hk. subst k.
    apply elem_of_groupby_size in Hin as [_ ->]. done.
Qed.

Lemma cell_at_insert r c v : cell_at (<[c := v]> r) c = v.
Proof. unfold cell_at. by rewrite lookup_insert_eq. Qed.

Lemma cell_at_insert_ne r c c' v :
  c <> c' -> cell_at (<[c := v]> r) c' = cell_at r c'.
Proof. intros Hne. unfold cell_at. by rewrite lookup_insert_ne. Qed.

Lemma int_year_cell r :
  as_num (astype_int_cell (cell_at r "Year")) = int_year r.
Proof. unfold int_year. by destruct (cell_at r "Year"). Qed.

Lemma int_year_null r : notna (cell_at r "Year") = false -> int_year r = None.
Proof. unfold int_year. by destruct (cell_at r "Year"). Qed.

(** The keys by which trends_page groups: the integer Years of the rows. *)
Lemma year_keys_trends df :
  year_keys (set_column (dropna_subset df "Year") "Year" astype_int_cell) =
  omap int_year (rows df).
Proof.
  unfold year_keys, set_column, dropna_subset. cbn [rows].
  induction (rows df) as [|r l IH]; [done|].
  change (omap int_year (r :: l))
    with (match int_year r with
          | Some y => y :: omap int_year l
          | None => omap int_year l
          end).
  destruct (notna (cell_at r "Year")) eqn:Hr.
  - rewrite filter_cons_True by (rewrite Hr; simpl; tauto).
    match goal with |- omap ?f (map ?g (?a :: ?t)) = _ =>
      change (omap f (map g (a :: t)))
        with (match f (g a) with
              | Some y => y :: omap f (map g t)
              | None => omap f (map g t)
              end)
    end.
    cbv beta. rewrite cell_at_insert, int_year_cell, IH. done.
  - rewrite filter_cons_False by (rewrite Hr; simpl; tauto).
    by rewrite IH, (int_year_null _ Hr).
Qed.

Lemma users_year_keys_trends df :
  year_keys
    (mkDF (columns df)
       (filter (fun r => is_yes (cell_at r "Fintech_Used"))
          (rows (set_column (dropna_subset df "Year") "Year" astype_int_cell)))) =
  omap int_year (fintech_rows df).
Proof.
  unfold year_keys, set_column, dropna_subset, fintech_rows. cbn [rows].
  induction (rows df) as [|r l IH]; [done|].
  destruct (notna (cell_at r "Year")) eqn:Hr.
  - rewrite (filter_cons_True (fun r => notna (cell_at r "Year"))) by (rewrite Hr; simpl; tauto).
    cbn [map].
    destruct (is_yes (cell_at r "Fintech_Used")) eqn:Hyes.
    + rewrite filter_cons_True by (rewrite cell_at_insert_ne, Hyes by done; simpl; tauto).
      rewrite (filter_cons_True _ r l) by (rewrite Hyes; simpl; tauto).
      match goal with |- omap ?f (?a :: ?t) = omap ?g (?b :: ?u) =>
        change (omap f (a :: t))
          with (match f a with Some y => y :: omap f t | None => omap f t end);
        change (omap g (b :: u))
          with (match g b with Some y => y :: omap g u | None => omap g u end)
      end.
      cbv beta. rewrite cell_at_insert, int_year_cell, IH. done.
    + rewrite filter_cons_False by (rewrite cell_at_insert_ne, Hyes by done; simpl; tauto).
      rewrite (filter_cons_False _ r l) by (rewrite Hyes; simpl; tauto). apply IH.
  - rewrite (filter_cons_False (fun r => notna (cell_at r "Year"))) by (rewrite Hr; simpl; tauto).
    rewrite IH.
    destruct (is_yes (cell_at r "Fintech_Used")) eqn:Hyes.
    + rewrite filter_cons_True by (rewrite Hyes; simpl; tauto).
      match goal with |- _ = omap ?g (?b :: ?u) =>
        change (omap g (b :: u))
          with (match g b with Some y => y :: omap g u | None => omap g u end)
      end.
      by rewrite (int_year_null _ Hr).
    + by rewrite filter_cons_False by (rewrite Hyes; simpl; tauto).
Qed.

#[local] Instance Year_le_total : base.Total Year_le.
Proof. intros a b. unfold Year_le. apply Qcle_dec_rel_total. Qed.

#[local] Instance Year_le_trans : Transitive Year_le.
Proof. intros a b c. unfold Year_le. apply Qcle_dec_rel_trans. Qed.

(** The frame [merged] before it is sorted, when both columns exist. *)
Lemma merged_unsorted df :
  map (fun m => (m.1.1, m.1.2, default 0%nat m.2))
    (merge_left
       (groupby_size Qcle_dec_rel (omap int_year (rows df)))
       (groupby_size Qcle_dec_rel (omap int_year (fintech_rows df)))) =
  map (fun y => (y, records_in_year df y, users_in_int_year df y))
    (merge_sort Qcle_dec_rel (unique (omap int_year (rows df)))).
Proof.
  rewrite merge_left_unique_right by apply NoDup_groupby_size_keys.
  unfold groupby_size at 2.
  rewrite <- !list_fmap_compose. apply list_fmap_ext. intros _ y _.
  cbn [compose fst snd]. rewrite find_count_groupby_size.
  unfold records_in_year, users_in_int_year. by rewrite !occurrences_omap.
Qed.

(** trends_page on a frame with the Year and Fintech_Used columns: one row
    per integer Year that some record has, strictly ascending by Year. *)
Lemma trends_page_returns df :
  has_column df "Year" = true ->
  has_column df "Fintech_Used" = true ->
  exists t,
    trends_page df = Ok (Some t) /\
    t ≡ₚ map (trend_row df) (unique (omap int_year (rows df))) /\
    StronglySorted (fun a b => (Year a < Year b)%Qc) t.
Proof.
  intros Hy Hfu. unfold trends_page. rewrite Hy.
  rewrite where_col_present by done. cbn [mbind result_bind].
  cbn [columns dropna_subset set_column].
  rewrite users_year_keys_trends, year_keys_trends, merged_unsorted.
  eexists. split; [done|]. split.
  - rewrite merge_sort_Permutation, <- list_fmap_compose.
    by rewrite merge_sort_Permutation.
  - apply StronglySorted_fmap_2. cbn [Year].
    apply (StronglySorted_strict (fun m : Qc * nat * nat => m.1.1) Year_le).
    + intros a b. apply Qcle_dec_rel_lt.
    + apply StronglySorted_merge_sort; apply _.
    + rewrite merge_sort_Permutation, <- list_fmap_compose.
      apply NoDup_fmap_2_strong; [by intros y1 y2 _ _ Heq|].
      rewrite merge_sort_Permutation. apply NoDup_unique.
Qed.

Lemma records_in_year_pos df y :
  y ∈ omap int_year (rows df) <-> (0 < records_in_year df y)%nat.
Proof.
  unfold records_in_year. rewrite <- occurrences_omap. apply occurrences_pos.
Qed.

Lemma filter_filter_length_le {B : Type} (P Q : B -> Prop)
    `{forall b, Decision (P b)} `{forall b, Decision (Q b)} (l : list B) :
  (length (filter P (filter Q l)) <= length (filter P l))%nat.
Proof.
  induction l as [|b l IH]; [done|].
  rewrite (filter_cons Q), (filter_cons P b l).
  destruct (decide (Q b)), (decide (P b)).
  - rewrite filter_cons_True by done. simpl. lia.
  - by rewrite filter_cons_False by done.
  - simpl. lia.
  - done.
Qed.

Lemma users_le_records df y :
  (users_in_int_year df y <= records_in_year df y)%nat.
Proof. unfold users_in_int_year, records_in_year, fintech_rows.
  apply filter_filter_length_le. Qed.

(** The rows of the trends table: the integer Years that occur, each with
    its number of records (at least one), its number of fintech users (zero
    when it has none) and the rate of the two. *)
Lemma trends_page_rows df t :
  has_column df "Year" = true ->
  has_column df "Fintech_Used" = true ->
  trends_page df = Ok (Some t) ->
  (forall y, y ∈ map Year t <-> exists r, r ∈ rows df /\ int_year r = Some y) /\
  (forall a, a ∈ t ->
     Total a = records_in_year df (Year a) /\
     Fintech_Users a = users_in_int_year df (Year a) /\
     (1 <= Total a)%nat /\
     Adoption_Rate a = percent (Fintech_Users a) (Total a) /\
     (0 <= Adoption_Rate a <= 100)%Q).
Proof.
  intros Hy Hfu Ht.
  destruct (trends_page_returns df Hy Hfu) as (t' & Ht' & Hperm & _).
  rewrite Ht in Ht'. injection Ht' as <-. split.
  - intros y. change (map Year t) with (Year <$> t).
    rewrite Hperm, <- list_fmap_compose.
    rewrite list_elem_of_fmap. setoid_rewrite elem_of_unique.
    setoid_rewrite list_elem_of_omap. cbn [compose trend_row Year].
    naive_solver.
  - intros a Ha. rewrite Hperm in Ha.
    apply list_elem_of_fmap in Ha as (y & -> & Hin).
    rewrite elem_of_unique, records_in_year_pos in Hin.
    cbn [trend_row Total Fintech_Users Year Adoption_Rate].
    split; [done|]. split; [done|]. split; [lia|]. split; [done|].
    apply percent_bounds; [apply users_le_records|lia].
Qed.

(** The defect of line 151: with a Year column and no Fintech_Used column
    the selection of the fintech users raises. *)
Lemma trends_page_without_fintech_used df :
  has_column df "Year" = true ->
  has_column df "Fintech_Used" = false ->
  trends_page df = Raise (KeyError "Fintech_Used").
Proof.
  intros Hy Hfu. unfold trends_page. rewrite Hy.
  by rewrite where_col_absent.
Qed.

Lemma trends_page_without_year df :
  has_column df "Year" = false -> trends_page df = Ok None.
Proof. intros Hy. unfold trends_page. by rewrite Hy. Qed.

(** C4: the failing input.  The frame has a Year column with the years
    2020 and 2021 and no Fintech_Used column; the claim has the time series
    list both years with fintech count 0 and rate 0; the code raises at
    line 151, where the Fintech_Used column is read without the guard that
    demographics_page and conclusion_page put before reading it. *)
Theorem trends_page_on_country_year_frame :
  trends_page survey_country_year = Raise (KeyError "Fintech_Used").
Proof. reflexivity. Qed.

(** The time series of the sample survey: the record without a Year is
    left out, 2020 and 2021 have two records and one fintech user each. *)
Lemma trends_page_survey :
  trends_page survey =
  Ok (Some [ trend_row survey (Qc_of_Z 2020); trend_row survey (Qc_of_Z 2021) ]).
Proof. by vm_compute. Qed.

(** ** Value counts *)

Lemma insert_desc_Permutation x t : insert_desc x t ≡ₚ x :: t.
Proof.
  induction t as [|y t IH]; [done|]. simpl.
  case_decide; [|done]. rewrite IH. apply Permutation_swap.
Qed.

Lemma sort_desc_Permutation l : foldr insert_desc [] l ≡ₚ l.
Proof.
  induction l as [|x l IH]; [done|]. simpl.
  by rewrite insert_desc_Permutation, IH.
Qed.

Lemma insert_desc_sorted x t :
  StronglySorted (fun a b => (b.2 <= a.2)%nat) t ->
  StronglySorted (fun a b => (b.2 <= a.2)%nat) (insert_desc x t).
Proof.
  induction 1 as [|y t Ht IH Hy]; [repeat constructor|]. simpl.
  case_decide as Hxy.
  - constructor; [done|].
    rewrite insert_desc_Permutation. constructor; [lia|done].
  - constructor; [by constructor|].
    constructor; [lia|].
    eapply Forall_impl; [exact Hy|]. intros b Hb. simpl in Hb. lia.
Qed.

Lemma sort_desc_sorted l :
  StronglySorted (fun a b => (b.2 <= a.2)%nat) (foldr insert_desc [] l).
Proof.
  induction l as [|x l IH]; [constructor|]. simpl. by apply insert_desc_sorted.
Qed.

(** The sort is stable: the entries of one count keep their order. *)
Lemma insert_desc_stable (c : nat) x t :
  filter (fun e : cell * nat => e.2 = c) (insert_desc x t) =
  filter (fun e : cell * nat => e.2 = c) (x :: t).
Proof.
  induction t as [|y t IH]; [done|]. simpl.
  case_decide as Hxy; [|done].
  rewrite (filter_cons _ y), IH, !(filter_cons _ x), (filter_cons _ y).
  destruct (decide (x.2 = c)), (decide (y.2 = c)); try done. lia.
Qed.

Lemma sort_desc_stable (c : nat) l :
  filter (fun e : cell * nat => e.2 = c) (foldr insert_desc [] l) =
  filter (fun e : cell * nat => e.2 = c) l.
Proof.
  induction l as [|x l IH]; [done|]. simpl.
  by rewrite insert_desc_stable, !(filter_cons _ x), IH.
Qed.

(** A list that is descending for [f], whose classes of equal [f] are
    sorted for [R], is sorted for the lexicographic order. *)
Lemma StronglySorted_lex {B : Type} (f : B -> nat) (R : relation B)
    (l : list B) :
  StronglySorted (fun a b => (f b <= f a)%nat) l ->
  (forall c, StronglySorted R (filter (fun e => f e = c) l)) ->
  StronglySorted (fun a b => (f b < f a)%nat \/ (f a = f b /\ R a b)) l.
Proof.
  induction 1 as [|a l Hl IH Ha]; intros Hc; [constructor|].
  constructor.
  - apply IH. intros c. specialize (Hc c). rewrite filter_cons in Hc.
    case_decide; [by apply StronglySorted_inv in Hc as [? _]|done].
  - apply Forall_forall. intros b Hb.
    rewrite Forall_forall in Ha. specialize (Ha b Hb). simpl in Ha.
    destruct (decide (f b = f a)) as [Heq|]; [|left; lia].
    right. split; [done|].
    specialize (Hc (f a)). rewrite filter_cons_True in Hc by done.
    apply StronglySorted_inv in Hc as [_ Hfa].
    rewrite Forall_forall in Hfa. apply Hfa.
    by apply list_elem_of_filter.
Qed.

Section first_occurrence.
Context {A : Type} `{EqDecision A}.
Implicit Types (x y : A) (l : list A).

Lemma StronglySorted_impl_elem (R R' : relation A) l :
  (forall x y, x ∈ l -> y ∈ l -> R x y -> R' x y) ->
  StronglySorted R l -> StronglySorted R' l.
Proof.
  intros HR. induction 1 as [|a l Hl IH Ha]; [constructor|].
  constructor.
  - apply IH. intros x y Hx Hy. apply HR; by right.
  - apply Forall_forall. intros b Hb. rewrite Forall_forall in Ha.
    apply HR; [left|by right|by apply Ha].
Qed.

Lemma StronglySorted_filter (R : relation A) (P : A -> Prop)
    `{forall x, Decision (P x)} l :
  StronglySorted R l -> StronglySorted R (filter P l).
Proof.
  induction 1 as [|a l Hl IH Ha]; [constructor|].
  rewrite filter_cons. case_decide; [|done].
  constructor; [done|]. apply Forall_forall. intros b Hb.
  apply list_elem_of_filter in Hb as [_ Hb].
  rewrite Forall_forall in Ha. by apply Ha.
Qed.

(** The distinct values come in the order of their first occurrences. *)
Lemma unique_first_index l :
  StronglySorted (fun x y => (first_index x l < first_index y l)%nat) (unique l).
Proof.
  induction l as [|a l IH]; [constructor|]. simpl. constructor.
  - apply (StronglySorted_impl_elem
             (fun x y => (first_index x l < first_index y l)%nat)).
    + intros x y Hx Hy. apply list_elem_of_filter in Hx as [Hx _].
      apply list_elem_of_filter in Hy as [Hy _].
      rewrite !decide_False by done. lia.
    + by apply StronglySorted_filter.
  - apply Forall_forall. intros b Hb. apply list_elem_of_filter in Hb as [Hb _].
    rewrite decide_True by done. rewrite decide_False by done. lia.
Qed.

(** Dropping elements does not change which of two kept values occurs
    first. *)
Lemma first_index_filter (P : A -> Prop) `{forall x, Decision (P x)} x y l :
  P x -> P y -> x ∈ l -> y ∈ l ->
  (first_index x (filter P l) < first_index y (filter P l))%nat <->
  (first_index x l < first_index y l)%nat.
Proof.
  intros Hx Hy. induction l as [|a l IH]; [by intros ?%elem_of_nil|].
  intros Hxl Hyl. rewrite filter_cons.
  destruct (decide (a = x)) as [Hax|Hax], (decide (a = y)) as [Hay|Hay]; subst.
  1-3: rewrite decide_True by done; simpl; repeat case_decide; try done; lia.
  apply elem_of_cons in Hxl as [?|Hxl]; [done|].
  apply elem_of_cons in Hyl as [?|Hyl]; [done|].
  specialize (IH Hxl Hyl).
  case_decide; simpl; repeat case_decide; try done; lia.
Qed.

End first_occurrence.

Lemma occurrences_dropna v s : v <> NaN -> occurrences v (dropna s) = occurrences v s.
Proof.
  intros Hv. unfold occurrences, dropna. f_equal.
  apply list_filter_filter_l. intros x ->. by destruct v.
Qed.

(** The table of [value_counts]: one entry per distinct value other than
    NaN, with its number of occurrences, the counts descending. *)
Lemma value_counts_table {sv : SortValues} s :
  NoDup (value_counts s).*1 /\
  (forall v k, (v, k) ∈ value_counts s <->
     v <> NaN /\ v ∈ s /\ k = occurrences v s) /\
  StronglySorted (fun a b => (b.2 <= a.2)%nat) (value_counts s).
Proof.
  unfold value_counts.
  set (u := map (fun v => (v, occurrences v (dropna s))) (unique (dropna s))).
  assert (u.*1 = unique (dropna s)) as Hkeys.
  { unfold u. rewrite <- list_fmap_compose.
    rewrite <- (list_fmap_id (unique (dropna s))) at 2.
    by apply list_fmap_ext. }
  split; [|split].
  - rewrite sort_values_Permutation, Hkeys. apply NoDup_unique.
  - intros v k. rewrite sort_values_Permutation. unfold u.
    rewrite list_elem_of_fmap. setoid_rewrite elem_of_unique.
    setoid_rewrite elem_of_dropna. split.
    + intros (w & [= -> ->] & Hw & Hn). by rewrite occurrences_dropna.
    + intros (Hn & Hv & ->). exists v. by rewrite occurrences_dropna.
  - apply sort_values_descending.
Qed.

(** With the stable sort the values of equal count come in the order of
    their first occurrence in the series. *)
Lemma value_counts_first_seen s :
  StronglySorted (ranks_before s) (value_counts (sv := ties_first_seen) s).
Proof.
  unfold value_counts.
  set (u := map (fun v => (v, occurrences v (dropna s))) (unique (dropna s))).
  change (sort_values u) with (foldr insert_desc [] u).
  apply (StronglySorted_lex snd
           (fun a b => (first_index a.1 s < first_index b.1 s)%nat)).
  - apply sort_desc_sorted.
  - intros c. rewrite sort_desc_stable. apply StronglySorted_filter.
    unfold u. apply StronglySorted_fmap_2. cbn [fst].
    apply (StronglySorted_impl_elem
             (fun x y => (first_index x (dropna s)
                          < first_index y (dropna s))%nat)).
    + intros x y Hx Hy.
      apply elem_of_unique, elem_of_dropna in Hx as [Hx Hnx].
      apply elem_of_unique, elem_of_dropna in Hy as [Hy Hny].
      unfold dropna. rewrite first_index_filter; [done|..|done|done].
      * by destruct x.
      * by destruct y.
    + apply unique_first_index.
Qed.

(** A table without two equal counts has one descending order: every sort
    returns it. *)
Lemma sort_values_distinct {sv : SortValues} (t : list (cell * nat)) :
  NoDup t.*2 ->
  StronglySorted (fun a b => (b.2 <= a.2)%nat) t ->
  sort_values t = t.
Proof.
  intros Hnd Ht.
  assert (AntiSymm eq (fun a b : cell * nat => (b.2 < a.2)%nat)) as Hanti
    by (intros a b ? ?; lia).
  apply (StronglySorted_unique (fun a b : cell * nat => (b.2 < a.2)%nat)).
  - apply (StronglySorted_strict snd (fun a b => (b.2 <= a.2)%nat)).
    + intros a b ? ?. destruct (decide (a.2 = b.2)); [done|lia].
    + apply sort_values_descending.
    + by rewrite sort_values_Permutation.
  - apply (StronglySorted_strict snd (fun a b => (b.2 <= a.2)%nat));
      [|done..].
    intros a b ? ?. destruct (decide (a.2 = b.2)); [done|lia].
  - apply sort_values_Permutation.
Qed.

Lemma replace_nan_absent s : Str "nan" ∉ replace "nan" "Unknown" s.
Proof.
  unfold replace. intros Hin.
  apply list_elem_of_fmap in Hin as (v & Hv & _).
  case_decide; [done|]. congruence.
Qed.

Lemma occurrences_replace_Unknown s :
  occurrences (Str "Unknown") (replace "nan" "Unknown" s) =
  (occurrences (Str "nan") s + occurrences (Str "Unknown") s)%nat.
Proof.
  induction s as [|v s IH]; [done|].
  change (replace "nan" "Unknown" (v :: s))
    with ((if decide (v = Str "nan") then Str "Unknown" else v)
          :: replace "nan" "Unknown" s).
  rewrite !occurrences_cons, IH.
  repeat case_decide; subst; try done; lia.
Qed.

Lemma occurrences_replace_other v s :
  v <> Str "nan" -> v <> Str "Unknown" ->
  occurrences v (replace "nan" "Unknown" s) = occurrences v s.
Proof.
  intros Hn Hu. induction s as [|w s IH]; [done|].
  change (replace "nan" "Unknown" (w :: s))
    with ((if decide (w = Str "nan") then Str "Unknown" else w)
          :: replace "nan" "Unknown" s).
  rewrite !occurrences_cons, IH.
  repeat case_decide; subst; done.
Qed.

(** C7: for every frame, column and n, the top-n value counts are the
    first n entries of a table that has one (value, count) pair per distinct
    non-null value of the column, after "nan" strings have been made
    "Unknown" (so "nan" is no entry and "Unknown" counts both), ordered
    descending by count, so that no entry left out has a larger count than
    an entry returned; the order among entries of equal count is the one the
    sort of pandas leaves, whichever it is; when the column is absent the
    computation is skipped.  On the values A, A, B, Unknown, B, A with n = 3
    the result is (A,3), (B,2), (Unknown,1), whatever the sort. *)
Theorem top_n_by_frequency_spec {sv : SortValues}
    (df : DataFrame) (c : string) (n : nat) :
  (has_column df c = false -> top_n_by_frequency df c n = None) /\
  (has_column df c = true ->
   let col := map (fun r => cell_at r c) (rows df) in
   let s := replace "nan" "Unknown" col in
   exists table,
     top_n_by_frequency df c n = Some (take n table) /\
     NoDup table.*1 /\
     (forall v k, (v, k) ∈ table <->
        v <> NaN /\ v ∈ s /\ k = occurrences v s) /\
     StronglySorted (fun a b => (b.2 <= a.2)%nat) table /\
     (forall a b, a ∈ take n table -> b ∈ drop n table -> (b.2 <= a.2)%nat) /\
     (Str "nan" ∉ table.*1) /\
     occurrences (Str "Unknown") s =
       (occurrences (Str "nan") col + occurrences (Str "Unknown") col)%nat /\
     (forall v, v <> Str "nan" -> v <> Str "Unknown" ->
        occurrences v s = occurrences v col)) /\
  top_n_by_frequency use_cases_example "Use_Case_1" 3 =
    Some [(Str "A", 3%nat); (Str "B", 2%nat); (Str "Unknown", 1%nat)].
Proof.
  split; [|split].
  - intros Hc. unfold top_n_by_frequency. by rewrite Hc.
  - intros Hc col s. unfold top_n_by_frequency. rewrite Hc. fold col. fold s.
    destruct (value_counts_table s) as (Hnd & Hin & Hs).
    exists (value_counts s). split; [done|]. split; [done|].
    split; [done|]. split; [done|]. split; [|split].
    + intros a b Ha Hb.
      rewrite <- (take_drop n (value_counts s)) in Hs.
      exact (StronglySorted_app_1_elem_of _ _ _ a b Hs Ha Hb).
    + intros Hnan. apply list_elem_of_fmap in Hnan as ([v k] & Hv & Hvk).
      simpl in Hv. subst v. apply Hin in Hvk as (_ & Hvk & _).
      by apply replace_nan_absent in Hvk.
    + split; [apply occurrences_replace_Unknown|].
      intros v. apply occurrences_replace_other.
  - unfold top_n_by_frequency, value_counts.
    assert (has_column use_cases_example "Use_Case_1" = true) as ->
      by reflexivity.
    cbv zeta.
    match goal with |- context [sort_values ?t] =>
      assert (t = [(Str "A", 3%nat); (Str "B", 2%nat); (Str "Unknown", 1%nat)])
        as -> by (vm_compute; reflexivity)
    end.
    rewrite sort_values_distinct; [done| |].
    + apply (bool_decide_unpack _). by vm_compute.
    + repeat constructor; cbn; lia.
Qed.

Lemma top_n_by_frequency_spec_witness :
  has_column use_cases_nan "Use_Case_1" = true /\
  (exists table,
     top_n_by_frequency (sv := ties_last_seen) use_cases_nan "Use_Case_1" 3
       = Some (take 3 table) /\
     table.*2 = [2; 2; 2; 1]%nat /\
     (Str "Airtime", 1%nat) ∈ drop 3 table) /\
  has_column use_cases_nan "Barrier" = false /\
  top_n_by_frequency (sv := ties_last_seen) use_cases_nan "Barrier" 3 = None.
Proof.
  split; [reflexivity|]. split.
  - destruct (proj1 (proj2 (top_n_by_frequency_spec (sv := ties_last_seen)
                                use_cases_nan "Use_Case_1" 3)) eq_refl)
      as (table & Htop & _).
    exists (value_counts (sv := ties_last_seen)
              (replace "nan" "Unknown"
                 (map (fun r => cell_at r "Use_Case_1") (rows use_cases_nan)))).
    split; [reflexivity|]. split; [vm_compute; reflexivity|].
    vm_compute. apply list_elem_of_here.
  - split; [reflexivity|].
    apply (proj1 (top_n_by_frequency_spec (sv := ties_last_seen)
                    use_cases_nan "Barrier" 3)).
    reflexivity.
Defined.

(** The claim's order of ties fails for a sort that is not stable.  P2P,
    Unknown (with the "nan" strings) and Bills occur twice each, first seen
    in that order: the stable sort returns P2P and Unknown as the top two,
    the other sort Bills and Unknown; both tables are descending by
    count. *)
Lemma top_n_by_frequency_tie_order :
  replace "nan" "Unknown"
    (map (fun r => cell_at r "Use_Case_1") (rows use_cases_nan)) =
    [Str "P2P"; Str "Unknown"; Str "Bills"; NaN; Str "Unknown"; Str "Bills";
     Str "P2P"; Str "Airtime"] /\
  top_n_by_frequency (sv := ties_first_seen) use_cases_nan "Use_Case_1" 2 =
    Some [(Str "P2P", 2%nat); (Str "Unknown", 2%nat)] /\
  top_n_by_frequency (sv := ties_last_seen) use_cases_nan "Use_Case_1" 2 =
    Some [(Str "Bills", 2%nat); (Str "Unknown", 2%nat)] /\
  ~ StronglySorted
      (ranks_before [Str "P2P"; Str "Unknown"; Str "Bills"; NaN; Str "Unknown";
                     Str "Bills"; Str "P2P"; Str "Airtime"])
      [(Str "Bills", 2%nat); (Str "Unknown", 2%nat)].
Proof.
  split; [vm_compute; reflexivity|]. split; [vm_compute; reflexivity|].
  split; [vm_compute; reflexivity|].
  intros Hs. apply StronglySorted_inv in Hs as [_ Hs].
  apply Forall_cons in Hs as [[Hlt|[_ Hlt]] _].
  - cbn in Hlt. lia.
  - vm_compute in Hlt. lia.
Qed.

(** The labels of conclusion_page: the index of the top three, and three
    placeholders when the column is absent. *)
Lemma conclusion_top_labels :
  conclusion_top (sv := ties_first_seen) use_cases_nan "Use_Case_1"
    = [Str "P2P"; Str "Unknown"; Str "Bills"] /\
  conclusion_top (sv := ties_first_seen) use_cases_nan "Barrier"
    = [Str "N/A"; Str "N/A"; Str "N/A"].
Proof. split; vm_compute; reflexivity. Qed.

(** ** load_data *)

Section load_facts.
Variable parse_number : string -> option Qc.
Variable str_of_number : Qc -> string.

#[local] Abbreviation to_numeric := (to_numeric parse_number).
#[local] Abbreviation astype_str := (astype_str str_of_number).
#[local] Abbreviation load_data := (load_data parse_number str_of_number).
#[local] Abbreviation clean := (clean_row parse_number str_of_number).
#[local] Abbreviation normalize := (fun v => astype_str (fillna "Unknown" v)).

Lemma to_numeric_number_or_null v :
  to_numeric v = NaN \/ exists q, to_numeric v = Num q.
Proof.
  destruct v as [|s|q]; simpl; [by left| |by right; eexists].
  destruct (parse_number s); [right; by eexists|by left].
Qed.

Lemma normalize_string v : exists s, normalize v = Str s.
Proof. destruct v; simpl; by eexists. Qed.

Lemma cell_at_set_cell c f r c' :
  cell_at (set_cell c f r) c' = if decide (c = c') then f (cell_at r c) else cell_at r c'.
Proof.
  unfold set_cell. case_decide as Hc; [subst; apply cell_at_insert|].
  by apply cell_at_insert_ne.
Qed.

Lemma cell_at_foldl_set_cell f (cs : list string) r c' :
  NoDup cs ->
  cell_at (foldl (fun r c => set_cell c f r) r cs) c' =
  if decide (c' ∈ cs) then f (cell_at r c') else cell_at r c'.
Proof.
  intros Hnd. revert r. induction Hnd as [|c cs Hc Hnd IH]; intros r.
  { destruct (decide (c' ∈ [])) as [Hin|]; [by apply elem_of_nil in Hin|done]. }
  cbn [foldl]. rewrite IH, !cell_at_set_cell.
  destruct (decide (c = c')) as [<-|Hne].
  - rewrite decide_False by done. by rewrite decide_True by left.
  - destruct (decide (c' ∈ cs)).
    + by rewrite decide_True by (by right).
    + rewrite decide_False; [done|]. rewrite elem_of_cons. naive_solver.
Qed.

Lemma foldl_set_column f (cs : list string) df :
  foldl (fun df c => set_column df c f) df cs =
  mkDF (columns df)
       (map (fun r => foldl (fun r c => set_cell c f r) r cs) (rows df)).
Proof.
  revert df. induction cs as [|c cs IH]; intros df.
  { simpl. rewrite map_id. by destruct df. }
  cbn [foldl]. rewrite IH. cbn [columns set_column rows].
  f_equal. by rewrite map_map.
Qed.

Lemma has_column_app df extra rs c :
  has_column (mkDF (columns df ++ extra) rs) c =
  has_column df c || bool_decide (c ∈ extra).
Proof.
  unfold has_column. cbn [columns].
  apply eq_true_iff_eq.
  by rewrite orb_true_iff, !bool_decide_eq_true, elem_of_app.
Qed.

Lemma has_column_add_column df n v c :
  c <> n -> has_column (add_column df n v) c = has_column df c.
Proof.
  intros Hne. unfold add_column. rewrite (has_column_app df [n]).
  rewrite bool_decide_false by (by rewrite list_elem_of_singleton).
  apply orb_false_r.
Qed.

Lemma filter_has_column_ext (df df' : DataFrame) (cs : list string) :
  columns df = columns df' ->
  filter (fun c => has_column df c) cs = filter (fun c => has_column df' c) cs.
Proof.
  intros Hc. apply list_filter_iff. intros c. unfold has_column. by rewrite Hc.
Qed.

(** The loader on a table that can be read: the columns of the table, then
    the numeric columns it lacks; every row cleaned. *)
Lemma load_data_Csv fs path raw :
  fs !! path = Some (Csv raw) ->
  load_data fs path =
  Ok (mkDF (columns raw ++ added_columns raw) (map (clean raw) (rows raw))).
Proof.
  intros Hf. unfold load_data, read_csv. rewrite Hf. cbn [mbind result_bind].
  set (df1 := if has_column raw "Year"
              then set_column raw "Year" to_numeric else raw).
  assert (columns df1 = columns raw) as Hc1
    by (unfold df1; by destruct (has_column raw "Year")).
  assert (rows df1 =
          map (fun r => if has_column raw "Year"
                        then set_cell "Year" to_numeric r else r) (rows raw))
    as Hr1.
  { unfold df1. destruct (has_column raw "Year"); [done|]. by rewrite map_id. }
  rewrite (filter_has_column_ext df1 raw) by done.
  rewrite foldl_set_column, Hc1, Hr1, map_map.
  unfold added_columns, num_cols. cbn [foldl].
  rewrite has_column_mkDF.
  destruct (has_column raw "Monthly_Transactions") eqn:HM.
  - rewrite has_column_mkDF.
    destruct (has_column raw "Avg_Transaction_Value") eqn:HA.
    + rewrite filter_cons_False by (by rewrite HM).
      rewrite filter_cons_False by (by rewrite HA).
      rewrite filter_nil, app_nil_r. f_equal. f_equal.
      apply map_ext. intros r. unfold clean_row, num_cols. cbn [foldl].
      by rewrite HM, HA.
    + rewrite filter_cons_False by (by rewrite HM).
      rewrite filter_cons_True by done.
      unfold add_column. cbn [columns rows]. rewrite map_map.
      f_equal. f_equal.
      apply map_ext. intros r. unfold clean_row, num_cols. cbn [foldl].
      by rewrite HM, HA.
  - rewrite has_column_add_column, has_column_mkDF by discriminate.
    destruct (has_column raw "Avg_Transaction_Value") eqn:HA.
    + rewrite filter_cons_True by done.
      rewrite filter_cons_False by (by rewrite HA).
      unfold add_column. cbn [columns rows]. rewrite map_map.
      f_equal. f_equal.
      apply map_ext. intros r. unfold clean_row, num_cols. cbn [foldl].
      by rewrite HM, HA.
    + rewrite !filter_cons_True by done.
      unfold add_column. cbn [columns rows]. rewrite !map_map, <- app_assoc.
      f_equal. f_equal.
      apply map_ext. intros r. unfold clean_row, num_cols. cbn [foldl].
      by rewrite HM, HA.
Qed.

Lemma load_data_error fs path e :
  load_data fs path = Raise e <-> read_csv fs path = Raise e.
Proof.
  unfold load_data. destruct (read_csv fs path); cbn [mbind result_bind]; [|done].
  split; discriminate.
Qed.

Lemma cell_at_foldl_add raw (v : cell) (ns : list string) r c :
  cell_at (foldl (fun r n => if has_column raw n then r else <[n := v]> r) r ns) c =
  if decide (c ∈ ns /\ has_column raw c = false) then v else cell_at r c.
Proof.
  revert r. induction ns as [|n ns IH]; intros r.
  { cbn [foldl]. case_decide as Hin; [|done].
    destruct Hin as [Hin _]. by apply elem_of_nil in Hin. }
  cbn [foldl]. rewrite IH. clear IH.
  destruct (decide (c ∈ ns /\ has_column raw c = false)) as [[Hin Hc]|Hn].
  - rewrite decide_True; [done|]. split; [by right|done].
  - destruct (has_column raw n) eqn:Hn'.
    + rewrite decide_False; [done|]. rewrite elem_of_cons.
      intros [[->|?] ?]; [congruence|naive_solver].
    + destruct (decide (c = n)) as [->|Hne].
      * rewrite cell_at_insert. rewrite decide_True; [done|]. split; [left|done].
      * rewrite cell_at_insert_ne by done.
        rewrite decide_False; [done|]. rewrite elem_of_cons. naive_solver.
Qed.

Lemma NoDup_str_cols_all : NoDup str_cols_all.
Proof. apply (bool_decide_unpack _). by vm_compute. Qed.

(** The cell of a cleaned row, column by column. *)
Lemma cell_at_clean_row raw r c :
  cell_at (clean raw r) c =
  if decide (c ∈ num_cols /\ has_column raw c = false) then Num 0%Qc
  else if decide (c ∈ str_cols_all /\ has_column raw c = true)
       then normalize (cell_at r c)
  else if decide (c = "Year" /\ has_column raw c = true)
       then to_numeric (cell_at r c)
  else cell_at r c.
Proof.
  unfold clean_row. rewrite cell_at_foldl_add.
  case_decide as Hnum; [done|].
  rewrite cell_at_foldl_set_cell by (apply NoDup_filter, NoDup_str_cols_all).
  rewrite (decide_ext (c ∈ filter (fun c => has_column raw c) str_cols_all)
             (c ∈ str_cols_all /\ has_column raw c = true)).
  2: { rewrite list_elem_of_filter, Is_true_true. tauto. }
  case_decide as Hstr.
  - destruct Hstr as [Hstr Hc].
    assert (c <> "Year") as Hy.
    { intros ->. revert Hstr. apply (bool_decide_unpack _). by vm_compute. }
    destruct (has_column raw "Year"); [|done].
    by rewrite cell_at_set_cell, decide_False by done.
  - case_decide as Hyear.
    + destruct Hyear as [-> Hy]. rewrite Hy. by rewrite cell_at_set_cell, decide_True.
    + destruct (has_column raw "Year") eqn:Hy; [|done].
      rewrite cell_at_set_cell, decide_False; [done|].
      intros <-. tauto.
Qed.

End load_facts.




(** The sample table as loaded: the year that parses and the one that does
    not, the missing Country and Fintech_Used made "Unknown", the two
    numeric columns added.  Barrier is not in the loader's list: its missing
    value stays missing. *)
Lemma load_data_sample :
  load_data sample_parse sample_str disk "datasets/fintech_usage_africa.csv" =
  Ok (mkDF ["Country"; "Year"; "Fintech_Used"; "Barrier";
            "Monthly_Transactions"; "Avg_Transaction_Value"]
        [ row_of [("Country", Str "Kenya"); ("Year", num 2020);
                  ("Fintech_Used", Str "Yes"); ("Barrier", Str "Trust");
                  ("Monthly_Transactions", Num 0%Qc);
                  ("Avg_Transaction_Value", Num 0%Qc)];
          row_of [("Country", Str "Unknown"); ("Year", NaN);
                  ("Fintech_Used", Str "Unknown"); ("Barrier", NaN);
                  ("Monthly_Transactions", Num 0%Qc);
                  ("Avg_Transaction_Value", Num 0%Qc)] ]).
Proof. vm_compute. reflexivity. Qed.

Lemma load_data_errors :
  load_data sample_parse sample_str disk "datasets/missing.csv"
    = Raise FileNotFoundError /\
  load_data sample_parse sample_str disk "datasets/locked.csv"
    = Raise PermissionError /\
  load_data sample_parse sample_str disk "datasets/broken.csv"
    = Raise ParserError.
Proof. by vm_compute. Qed.

(** ** The cache of load_data *)

Section cache.
Variable func : string -> result DataFrame.

Lemma cache_result sa path p :
  memo_sound func p -> (_cache sa func path p).1 = func path.
Proof.
  intros Hs. unfold _cache. destruct sa; [|done].
  destruct (memo p !! path) as [df|] eqn:Hm.
  - symmetry. by apply Hs.
  - by destruct (func path).
Qed.

Lemma cache_sound sa path p :
  memo_sound func p -> memo_sound func (_cache sa func path p).2.
Proof.
  intros Hs. unfold _cache. destruct sa; [|done].
  destruct (memo p !! path) as [df|] eqn:Hm; [done|].
  destruct (func path) as [df|e] eqn:Hf; [|done].
  intros path' df'. cbn [snd memo]. rewrite lookup_insert.
  case_decide; [|apply Hs]. by intros [= <-]; subst.
Qed.

(** After a call that returned a frame, streamlit's cache holds the path:
    the next call on it reads nothing. *)
Lemma cache_hit_after_value path p df :
  (_cache true func path p).1 = Ok df ->
  is_Some (memo (_cache true func path p).2 !! path).
Proof.
  unfold _cache. destruct (memo p !! path) as [df'|] eqn:Hm.
  - intros _. cbn [snd]. by rewrite Hm.
  - destruct (func path) as [df'|e]; [|discriminate].
    intros _. cbn [snd memo]. by rewrite lookup_insert_eq.
Qed.

Lemma cache_hit_no_read path p :
  is_Some (memo p !! path) -> (_cache true func path p).2 = p.
Proof. intros [df Hm]. unfold _cache. by rewrite Hm. Qed.

Lemma read_once_step path p :
  read_once func p -> read_once func (_cache true func path p).2.
Proof.
  intros Hp. unfold _cache. destruct (memo p !! path) as [df|] eqn:Hm; [done|].
  destruct (func path) as [df|e] eqn:Hf; cbn [snd]; intros path' df' Hf';
    cbn [memo reads]; destruct (Hp path' df' Hf') as [Hnone Hocc].
  - destruct (decide (path = path')) as [<-|Hne].
    + rewrite lookup_insert_eq. split; [done|].
      rewrite occurrences_cons, decide_True by done.
      rewrite occurrences_zero; [lia|]. by apply Hnone.
    + rewrite lookup_insert_ne by done. split.
      * intros Hn'. rewrite elem_of_cons. naive_solver.
      * by rewrite occurrences_cons, decide_False.
  - assert (path <> path') as Hne by congruence. split.
    + intros Hn'. rewrite elem_of_cons. naive_solver.
    + by rewrite occurrences_cons, decide_False.
Qed.

Lemma read_once_calls paths p :
  read_once func p -> read_once func (calls true func paths p).
Proof.
  revert p. induction paths as [|path paths IH]; intros p Hp; [done|].
  unfold calls. cbn [foldl]. apply IH. by apply read_once_step.
Qed.

Lemma read_once_fresh : read_once func fresh.
Proof.
  intros path df _. split; [intros _; apply not_elem_of_nil|].
  unfold occurrences. simpl. lia.
Qed.

Lemma no_cache_calls_reads paths p :
  reads (calls false func paths p) = reverse paths ++ reads p.
Proof.
  unfold calls. revert p.
  induction paths as [|path paths IH]; intros p; [done|].
  cbn [foldl]. rewrite IH, reverse_cons, <- app_assoc. done.
Qed.

End cache.

Lemma memo_sound_fresh func : memo_sound func fresh.
Proof. intros path df. unfold fresh. cbn [memo]. by rewrite lookup_empty. Qed.

(** C6, as stated, fails on the code: where streamlit cannot be imported
    the decorator is the identity, and the second call on the same path
    reads the file a second time. *)
Lemma load_data_read_twice_without_streamlit :
  let path := "datasets/fintech_usage_africa.csv" in
  let first := load_data_cached sample_parse sample_str false disk path fresh in
  let second :=
    load_data_cached sample_parse sample_str false disk path first.2 in
  reads first.2 = [path] /\ reads second.2 = [path; path].
Proof. split; reflexivity. Qed.

(** C6 (amended): two calls of load_data on the same path return the same
    result, that of the undecorated function.  The result is memoized per
    path when streamlit can be imported: after a call that returned a
    frame the next call on that path leaves the process as it is, reading
    nothing, and over any sequence of calls a path that loads is read at
    most once.  When streamlit cannot be imported the decorator returns
    the function itself and every call reads the file again. *)
Theorem load_data_cached_spec (parse_number : string -> option Qc)
    (str_of_number : Qc -> string) (STREAMLIT_AVAILABLE : bool)
    (fs : gmap string file) (path : string) (p : Process) :
  let load := load_data parse_number str_of_number fs in
  let cached :=
    load_data_cached parse_number str_of_number STREAMLIT_AVAILABLE fs in
  memo_sound load p ->
  (cached path p).1 = load path /\
  (cached path (cached path p).2).1 = (cached path p).1 /\
  (STREAMLIT_AVAILABLE = true ->
     ((exists df, (cached path p).1 = Ok df) ->
      (cached path (cached path p).2).2 = (cached path p).2) /\
     (forall paths df, load path = Ok df ->
        (occurrences path (reads (calls true load paths fresh)) <= 1)%nat)) /\
  (STREAMLIT_AVAILABLE = false ->
     reads (cached path (cached path p).2).2 = path :: path :: reads p /\
     (forall paths, reads (calls false load paths fresh) = reverse paths)).
Proof.
  intros load cached Hs. unfold cached, load_data_cached. fold load.
  pose proof (cache_sound load STREAMLIT_AVAILABLE path p Hs) as Hs'.
  split; [by apply cache_result|].
  split; [by rewrite !cache_result|].
  split.
  - intros ->. split.
    + intros [df Hdf]. apply cache_hit_no_read.
      by apply (cache_hit_after_value load path p df).
    + intros paths df Hdf.
      by apply (read_once_calls load paths fresh (read_once_fresh load) path df).
  - intros ->. split; [done|].
    intros paths. by rewrite no_cache_calls_reads, app_nil_r.
Qed.

Lemma load_data_cached_spec_witness :
  let path := "datasets/fintech_usage_africa.csv" in
  let cached := load_data_cached sample_parse sample_str true disk in
  memo_sound (load_data sample_parse sample_str disk) fresh /\
  (cached path (cached path fresh).2).1 = (cached path fresh).1 /\
  reads (cached path (cached path fresh).2).2 = [path].
Proof.
  intros path cached.
  pose proof (memo_sound_fresh (load_data sample_parse sample_str disk)) as Hs.
  destruct (load_data_cached_spec sample_parse sample_str true disk path fresh Hs)
    as (_ & Hsame & Hmemo & _).
  split; [exact Hs|]. split; [exact Hsame|].
  destruct (Hmemo eq_refl) as [Hkeep _].
  unfold cached. rewrite Hkeep.
  - unfold load_data_cached, _cache. cbn [memo fresh].
    rewrite lookup_empty.
    rewrite (load_data_Csv sample_parse sample_str disk path raw_table eq_refl).
    reflexivity.
  - eexists. unfold load_data_cached. rewrite (cache_result _ _ _ _ Hs).
    by apply load_data_Csv.
Defined.

(** * Further properties of the code *)

(** ** The filter block: how it composes *)

Lemma constrained_present_columns df df' spec :
  columns df' = columns df ->
  constrained_present df spec -> constrained_present df' spec.
Proof.
  intros Hc. unfold constrained_present, has_column. by rewrite Hc.
Qed.

Lemma apply_filters_Ok df spec out :
  apply_filters df spec = Ok out ->
  constrained_present df spec /\
  out = mkDF (columns df) (filter (fun r => passes spec r) (rows df)).
Proof.
  intros Hok. pose proof (apply_filters_Ok_present _ _ _ Hok) as Hp.
  split; [done|]. rewrite (apply_filters_present _ _ Hp) in Hok. congruence.
Qed.

(** X1: the filter block is idempotent: applying the same selections to
    its own result returns that result again. *)
Theorem apply_filters_idempotent (df : DataFrame) (spec : FilterSpec)
    (out : DataFrame) :
  apply_filters df spec = Ok out -> apply_filters out spec = Ok out.
Proof.
  intros Hok. apply apply_filters_Ok in Hok as [Hp ->].
  rewrite apply_filters_present
    by (by apply (constrained_present_columns df)).
  cbn [columns rows]. do 2 f_equal.
  apply list_filter_filter_l. done.
Qed.

Lemma apply_filters_idempotent_witness :
  exists out,
    apply_filters survey (only_country "Kenya") = Ok out /\
    apply_filters out (only_country "Kenya") = Ok out /\
    length (rows out) = 3%nat.
Proof.
  assert (constrained_present survey (only_country "Kenya")) as Hp.
  { unfold constrained_present. repeat split; intros _; reflexivity. }
  eexists. split; [by apply apply_filters_present|].
  split.
  - apply (apply_filters_idempotent survey). by apply apply_filters_present.
  - vm_compute. reflexivity.
Defined.

(** X2: two runs of the filter block compose to the conjunction of their
    predicates, and in either order: filtering by [s1] and then by [s2]
    keeps the records that pass both, and filtering by [s2] first and then
    by [s1] returns the same frame. *)
Theorem apply_filters_compose (df d1 d2 : DataFrame) (s1 s2 : FilterSpec) :
  apply_filters df s1 = Ok d1 ->
  apply_filters d1 s2 = Ok d2 ->
  rows d2 = filter (fun r => passes s1 r && passes s2 r) (rows df) /\
  exists d1', apply_filters df s2 = Ok d1' /\ apply_filters d1' s1 = Ok d2.
Proof.
  intros H1 H2. apply apply_filters_Ok in H1 as [Hp1 ->].
  apply apply_filters_Ok in H2 as [Hp2 ->]. cbn [columns rows] in *.
  split; [apply filter_filter_bool|].
  assert (constrained_present df s2) as Hp2'
    by (by apply (constrained_present_columns _ _ _ eq_refl Hp2)).
  eexists. split; [by apply apply_filters_present|].
  rewrite apply_filters_present
    by (by apply (constrained_present_columns df)).
  cbn [columns rows]. do 2 f_equal.
  rewrite !filter_filter_bool. apply list_filter_iff. intros r.
  rewrite !andb_True. tauto.
Qed.

Lemma apply_filters_compose_witness :
  exists d1 d2,
    apply_filters survey (only_country "Kenya") = Ok d1 /\
    apply_filters d1 (only_years 2020 2021) = Ok d2 /\
    (exists d1', apply_filters survey (only_years 2020 2021) = Ok d1' /\
                 apply_filters d1' (only_country "Kenya") = Ok d2) /\
    length (rows d2) = 2%nat.
Proof.
  assert (constrained_present survey (only_country "Kenya")) as Hp1.
  { unfold constrained_present. repeat split; intros _; reflexivity. }
  pose proof (apply_filters_present _ _ Hp1) as H1.
  assert (constrained_present
            (mkDF (columns survey)
               (filter (fun r => passes (only_country "Kenya") r) (rows survey)))
            (only_years 2020 2021)) as Hp2.
  { unfold constrained_present. repeat split; intros _; reflexivity. }
  pose proof (apply_filters_present _ _ Hp2) as H2.
  destruct (apply_filters_compose _ _ _ _ _ H1 H2) as [Hrows Hswap].
  eexists _, _. split; [exact H1|]. split; [exact H2|].
  split; [exact Hswap|]. vm_compute. reflexivity.
Defined.

(** ** kpis behind the filter block *)

Lemma kpis_no_rows cols :
  "Fintech_Used" ∈ cols \/ "Year" ∉ cols ->
  kpis (mkDF cols []) = Ok (mkKPIs 0 0 0%Q 0%Q 0).
Proof.
  intros Hc.
  destruct (has_column (mkDF cols []) "Fintech_Used") eqn:Hfu.
  - rewrite kpis_with_fintech_used by done. cbn [rows length].
    rewrite bool_decide_false by lia.
    by destruct (has_column (mkDF cols []) "Year"),
                (has_column (mkDF cols []) "Country").
  - assert (has_column (mkDF cols []) "Year" = false) as Hy.
    { apply bool_decide_eq_false. apply bool_decide_eq_false in Hfu.
      cbn [columns] in *. tauto. }
    rewrite kpis_without_both by done. cbn [rows length].
    rewrite bool_decide_false by lia.
    by destruct (has_column (mkDF cols []) "Country").
Qed.

Lemma kpis_Ok_columns df k :
  kpis df = Ok k ->
  has_column df "Fintech_Used" = true \/ has_column df "Year" = false.
Proof.
  intros Hk. destruct (has_column df "Fintech_Used") eqn:Hfu; [by left|].
  destruct (has_column df "Year") eqn:Hy; [|by right].
  rewrite kpis_year_without_fintech_used in Hk by done. discriminate.
Qed.

(** X3: selecting a Country that no record has leaves no record, and kpis
    on that empty result returns zero for all five values: the guards on
    the total and on the per-Year table keep it from dividing by zero. *)
Theorem kpis_of_unmatched_country (df : DataFrame) (c : string) :
  has_column df "Country" = true ->
  c <> "" -> c <> "All" ->
  (forall r, r ∈ rows df -> cell_at r "Country" <> Str c) ->
  has_column df "Fintech_Used" = true \/ has_column df "Year" = false ->
  apply_filters df (only_country c) = Ok (mkDF (columns df) []) /\
  kpis (mkDF (columns df) []) = Ok (mkKPIs 0 0 0%Q 0%Q 0).
Proof.
  intros Hc Hne Hall Hnone Hk. split.
  - rewrite apply_filters_present.
    + do 2 f_equal. apply filter_none. intros r Hr Hpass.
      apply Is_true_true, passes_true in Hpass as (Hcountry & _).
      apply (Hnone r Hr), Hcountry. by apply active_Some.
    + unfold constrained_present, only_country. cbn.
      repeat split; by intros [? [=]].
  - apply kpis_no_rows. unfold has_column in Hk.
    rewrite bool_decide_eq_true, bool_decide_eq_false in Hk. done.
Qed.

Lemma kpis_of_unmatched_country_witness :
  apply_filters survey (only_country "Togo") = Ok (mkDF (columns survey) []) /\
  kpis (mkDF (columns survey) []) = Ok (mkKPIs 0 0 0%Q 0%Q 0).
Proof.
  apply (kpis_of_unmatched_country survey "Togo");
    [reflexivity|discriminate|discriminate| |left; reflexivity].
  intros r Hr. unfold survey in Hr. cbn [rows] in Hr.
  repeat (apply elem_of_cons in Hr as [->|Hr]; [vm_compute; discriminate|]).
  by apply elem_of_nil in Hr.
Defined.

Lemma nunique_sublist (s1 s2 : list cell) :
  (forall v, v ∈ s1 -> v ∈ s2) -> (nunique s1 <= nunique s2)%nat.
Proof.
  intros Hsub. unfold nunique. apply submseteq_length, NoDup_submseteq.
  - apply NoDup_unique.
  - intros v. rewrite !elem_of_unique, !elem_of_dropna. naive_solver.
Qed.

(** X4: filtering never raises a count of kpis: whenever kpis returns on a
    frame it returns on every result of the filter block for that frame,
    with a total, a fintech_count and a total_countries that are not
    larger. *)
Theorem kpis_of_filtered (df out : DataFrame) (spec : FilterSpec) (k : KPIs) :
  apply_filters df spec = Ok out ->
  kpis df = Ok k ->
  exists k',
    kpis out = Ok k' /\
    (total k' <= total k)%nat /\
    (fintech_count k' <= fintech_count k)%nat /\
    (total_countries k' <= total_countries k)%nat.
Proof.
  intros Hout Hk. apply apply_filters_Ok in Hout as [_ ->].
  set (out := mkDF (columns df) (filter (fun r => passes spec r) (rows df))).
  assert (forall c, has_column out c = has_column df c) as Hcols by done.
  assert (total_countries_le :
    ((if has_column out "Country"
      then nunique (map (fun r => cell_at r "Country") (rows out)) else 0) <=
     (if has_column df "Country"
      then nunique (map (fun r => cell_at r "Country") (rows df)) else 0))%nat).
  { rewrite Hcols. destruct (has_column df "Country"); [|done].
    apply nunique_sublist. intros v.
    change (map ?f ?l) with (f <$> l). rewrite !list_elem_of_fmap.
    intros (r & -> & Hr). exists r. split; [done|].
    by apply list_elem_of_filter in Hr as [_ Hr]. }
  destruct (has_column df "Fintech_Used") eqn:Hfu.
  - rewrite kpis_with_fintech_used in Hk by done. injection Hk as <-.
    eexists. split; [apply kpis_with_fintech_used; by rewrite Hcols|].
    cbn [total fintech_count total_countries].
    split; [apply length_filter|]. split; [|done].
    unfold fintech_rows, out. cbn [rows]. apply filter_filter_length_le.
  - destruct (kpis_Ok_columns _ _ Hk) as [?|Hy]; [congruence|].
    rewrite kpis_without_both in Hk by done. injection Hk as <-.
    eexists. split; [apply kpis_without_both; by rewrite Hcols|].
    cbn [total fintech_count total_countries].
    split; [apply length_filter|]. split; [lia|done].
Qed.

Lemma kpis_of_filtered_witness :
  exists out k k',
    apply_filters survey (only_country "Kenya") = Ok out /\
    kpis survey = Ok k /\ kpis out = Ok k' /\
    (total k' <= total k)%nat /\ (total_countries k' <= total_countries k)%nat.
Proof.
  assert (constrained_present survey (only_country "Kenya")) as Hp.
  { unfold constrained_present. repeat split; intros _; reflexivity. }
  pose proof (apply_filters_present _ _ Hp) as Hout.
  pose proof (kpis_with_fintech_used survey eq_refl) as Hk.
  destruct (kpis_of_filtered _ _ _ _ Hout Hk) as (k' & Hk' & Ht & _ & Hc).
  eexists _, _, k'. split; [exact Hout|]. split; [exact Hk|].
  split; [exact Hk'|]. split; [exact Ht|exact Hc].
Defined.

(** ** Value counts: how many entries, and what they add up to *)

Lemma value_counts_Permutation {sv : SortValues} s :
  value_counts s ≡ₚ
  map (fun v => (v, occurrences v (dropna s))) (unique (dropna s)).
Proof. unfold value_counts. apply sort_values_Permutation. Qed.

Lemma length_value_counts {sv : SortValues} s : length (value_counts s) = nunique s.
Proof. by rewrite value_counts_Permutation, length_map. Qed.

Lemma sum_value_counts {sv : SortValues} s :
  sum_list (value_counts s).*2 = length (dropna s).
Proof.
  rewrite value_counts_Permutation.
  rewrite <- (sum_occurrences_unique (dropna s)).
  generalize (unique (dropna s)). intros u.
  induction u as [|v u IH]; [done|]. cbn. by rewrite <- IH.
Qed.

Lemma length_filter_fmap {B C : Type} (f : B -> C) (P : C -> Prop)
    `{forall c, Decision (P c)} (l : list B) :
  length (filter P (map f l)) = length (filter (fun b => P (f b)) l).
Proof.
  induction l as [|b l IH]; [done|]. cbn [map].
  rewrite !filter_cons. case_decide; cbn [length]; by rewrite IH.
Qed.

(** ** conclusion_page *)

Lemma percent_zero t : (percent 0 t == 0)%Q.
Proof. unfold percent, Qdiv. cbn [Z.of_nat inject_Z]. by rewrite !Qmult_0_l. Qed.

(** X6: the top-three labels of conclusion_page: three placeholders "N/A"
    when the column is absent; when it exists, as many labels as the column
    has distinct values other than NaN (with "nan" read as "Unknown"), but
    at most three -- none at all for a column without values -- all
    different, each a value of the column, none of them "nan". *)
Theorem conclusion_top_length {sv : SortValues} (df : DataFrame) (c : string) :
  (has_column df c = false ->
   conclusion_top df c = [Str "N/A"; Str "N/A"; Str "N/A"]) /\
  (has_column df c = true ->
   let s := replace "nan" "Unknown" (map (fun r => cell_at r c) (rows df)) in
   length (conclusion_top df c) = (3 `min` nunique s)%nat /\
   NoDup (conclusion_top df c) /\
   (forall v, v ∈ conclusion_top df c ->
              v <> NaN /\ v ∈ s /\ v <> Str "nan")).
Proof.
  unfold conclusion_top, top_n_by_frequency. split; intros Hc; rewrite Hc; [done|].
  cbv zeta. set (s := replace "nan" "Unknown" _).
  destruct (value_counts_table s) as (Hnd & Hin & _).
  split; [|split].
  - by rewrite length_map, length_take, length_value_counts.
  - change (map fst ?l) with (l.*1). rewrite fmap_take.
    eapply sublist_NoDup; [exact Hnd|apply sublist_take].
  - intros v Hv. change (map fst ?l) with (l.*1) in Hv.
    apply list_elem_of_fmap in Hv as ([v' k] & -> & Hvk).
    pose proof (elem_of_sublist _ _ _ Hvk (sublist_take _ _)) as Hvk'.
    apply Hin in Hvk' as (Hn & Hs & _). cbn [fst].
    split; [done|]. split; [done|]. intros ->.
    by apply replace_nan_absent in Hs.
Qed.

Lemma conclusion_top_length_witness :
  has_column use_cases_nan "Use_Case_1" = true /\
  length (conclusion_top (sv := ties_first_seen) use_cases_nan "Use_Case_1") = 3%nat /\
  has_column (use_cases [NaN; Str "nan"]) "Use_Case_1" = true /\
  length (conclusion_top (sv := ties_first_seen) (use_cases [NaN; Str "nan"]) "Use_Case_1") = 1%nat /\
  has_column use_cases_nan "Barrier" = false /\
  conclusion_top (sv := ties_first_seen) use_cases_nan "Barrier" = [Str "N/A"; Str "N/A"; Str "N/A"].
Proof.
  split; [reflexivity|]. split.
  { destruct (proj2 (conclusion_top_length (sv := ties_first_seen) use_cases_nan "Use_Case_1") eq_refl)
      as (Hlen & _). rewrite Hlen. vm_compute. reflexivity. }
  split; [reflexivity|]. split.
  { destruct (proj2 (conclusion_top_length (sv := ties_first_seen) (use_cases [NaN; Str "nan"])
                       "Use_Case_1") eq_refl) as (Hlen & _).
    rewrite Hlen. vm_compute. reflexivity. }
  split; [reflexivity|].
  apply (proj1 (conclusion_top_length (sv := ties_first_seen) use_cases_nan "Barrier")). reflexivity.
Defined.

(** ** overview_page *)

Lemma getitem_present df c :
  has_column df c = true ->
  getitem df c = Ok (map (fun r => cell_at r c) (rows df)).
Proof. unfold getitem. by intros ->. Qed.

Lemma getitem_absent df c :
  has_column df c = false -> getitem df c = Raise (KeyError c).
Proof. unfold getitem. by intros ->. Qed.

Lemma overview_page_Ok {sv : SortValues} df v :
  overview_page df = Ok v ->
  has_column df "Country" = true /\
  (has_column df "Fintech_Used" = true \/ has_column df "Year" = false).
Proof.
  unfold overview_page. intros Hv.
  destruct (kpis df) as [k|e] eqn:Hk; [|discriminate].
  cbn [mbind result_bind] in Hv. split; [|by eapply kpis_Ok_columns].
  destruct (has_column df "Country") eqn:Hc; [done|].
  rewrite getitem_absent in Hv by done. discriminate.
Qed.

Lemma overview_page_present {sv : SortValues} df :
  has_column df "Country" = true ->
  has_column df "Fintech_Used" = true \/ has_column df "Year" = false ->
  exists v, overview_page df = Ok v.
Proof.
  unfold overview_page. intros Hc Hk.
  destruct (kpis_returns df Hk) as (k & -> & _).
  cbn [mbind result_bind]. rewrite getitem_present by done. by eexists.
Qed.

(** X7: overview_page returns exactly on the frames that have a Country
    column and on which kpis returns; on a frame without a Country column
    kpis returns 0 countries, and the read of line 122, which has no guard,
    then raises KeyError for Country. *)
Theorem overview_page_returns_iff {sv : SortValues} (df : DataFrame) :
  ((exists v, overview_page df = Ok v) <->
   has_column df "Country" = true /\
   (has_column df "Fintech_Used" = true \/ has_column df "Year" = false)) /\
  (has_column df "Country" = false ->
   forall k, kpis df = Ok k ->
     total_countries k = 0%nat /\
     overview_page df = Raise (KeyError "Country")).
Proof.
  split.
  - split.
    + intros [v Hv]. by apply (overview_page_Ok df v).
    + intros [Hc Hk]. by apply overview_page_present.
  - unfold overview_page. intros Hc k Hk. rewrite Hk. cbn [mbind result_bind].
    rewrite getitem_absent by done. split; [|done].
    destruct (kpis_returns df (kpis_Ok_columns _ _ Hk))
      as (k' & Hk' & _ & _ & _ & _ & _ & Hcountries).
    rewrite Hc in Hcountries. congruence.
Qed.

Lemma overview_page_returns_iff_witness :
  has_column survey_gender_only "Country" = false /\
  (exists k, kpis survey_gender_only = Ok k /\ total_countries k = 0%nat) /\
  overview_page (sv := ties_first_seen) survey_gender_only = Raise (KeyError "Country").
Proof.
  split; [reflexivity|].
  pose proof (kpis_without_both survey_gender_only eq_refl eq_refl) as Hk.
  destruct (proj2 (overview_page_returns_iff (sv := ties_first_seen) survey_gender_only) eq_refl _ Hk)
    as [Hzero Hraise].
  split; [|exact Hraise]. eexists. split; [exact Hk|exact Hzero].
Defined.

(** X8: the chart data of overview_page agrees with its cards: the map has
    one entry per country, as many as the Total Countries card shows, the
    bar chart the first 15 of them, and the counts of the entries add up to
    the number of records that have a Country. *)
Theorem overview_page_charts {sv : SortValues} (df : DataFrame) (v : overview) :
  overview_page df = Ok v ->
  length (fig_map v) = total_countries (cards v) /\
  fig_bar v = take 15 (fig_map v) /\
  length (fig_bar v) = (15 `min` total_countries (cards v))%nat /\
  sum_list (fig_map v).*2 =
    length (filter (fun r => cell_at r "Country" <> NaN) (rows df)).
Proof.
  intros Hv.
  destruct (overview_page_Ok df v Hv) as [Hc _].
  unfold overview_page in Hv.
  destruct (kpis df) as [k|e] eqn:Hk; [|discriminate].
  cbn [mbind result_bind] in Hv. rewrite getitem_present in Hv by done.
  injection Hv as <-. cbn [cards fig_bar fig_map].
  assert (total_countries k =
          nunique (map (fun r => cell_at r "Country") (rows df))) as ->.
  { destruct (has_column df "Fintech_Used") eqn:Hfu.
    - rewrite kpis_with_fintech_used in Hk by done. injection Hk as <-.
      cbn [total_countries]. by rewrite Hc.
    - destruct (kpis_Ok_columns _ _ Hk) as [?|Hy]; [congruence|].
      rewrite kpis_without_both in Hk by done. injection Hk as <-.
      cbn [total_countries]. by rewrite Hc. }
  split; [apply length_value_counts|]. split; [done|].
  split; [by rewrite length_take, length_value_counts|].
  rewrite sum_value_counts. unfold dropna.
  rewrite (length_filter_fmap (fun r => cell_at r "Country") (fun v => notna v)).
  f_equal. apply list_filter_iff. intros r.
  by rewrite Is_true_true, notna_true.
Qed.

Lemma overview_page_charts_witness :
  exists v,
    overview_page (sv := ties_first_seen) survey = Ok v /\
    length (fig_map v) = total_countries (cards v) /\
    sum_list (fig_map v).*2 = 5%nat.
Proof.
  assert (exists v, overview_page (sv := ties_first_seen) survey = Ok v) as [v Hv].
  { apply (overview_page_present (sv := ties_first_seen)); [reflexivity|left; reflexivity]. }
  destruct (overview_page_charts (sv := ties_first_seen) survey v Hv) as (Hlen & _ & _ & Hsum).
  exists v. split; [exact Hv|]. split; [exact Hlen|].
  rewrite Hsum. vm_compute. reflexivity.
Defined.

(** ** The widgets of main and what reaches the filter block *)

Lemma Qc_leb_le x y : Qc_leb x y = true <-> (x <= y)%Qc.
Proof. unfold Qc_leb, Qcle. apply Qle_bool_iff. Qed.

Lemma foldr_Qc_min_elem q qs : foldr Qc_min q qs ∈ q :: qs.
Proof.
  induction qs as [|x qs IH]; [left|]. cbn [foldr]. unfold Qc_min at 1.
  destruct (Qc_leb x (foldr Qc_min q qs)).
  - right. left.
  - apply elem_of_cons in IH as [->|IH]; [left|by do 2 right].
Qed.

Lemma foldr_Qc_max_elem q qs : foldr Qc_max q qs ∈ q :: qs.
Proof.
  induction qs as [|x qs IH]; [left|]. cbn [foldr]. unfold Qc_max at 1.
  destruct (Qc_leb x (foldr Qc_max q qs)).
  - apply elem_of_cons in IH as [->|IH]; [left|by do 2 right].
  - right. left.
Qed.

Lemma foldr_Qc_min_le q qs x :
  x ∈ q :: qs -> (foldr Qc_min q qs <= x)%Qc.
Proof.
  induction qs as [|y qs IH].
  - intros ->%list_elem_of_singleton. apply Qcle_refl.
  - cbn [foldr]. unfold Qc_min at 1.
    destruct (Qc_leb y (foldr Qc_min q qs)) eqn:Hy.
    + apply Qc_leb_le in Hy. intros Hx.
      assert (x = y \/ x ∈ q :: qs) as [->|Hx'].
      { rewrite !elem_of_cons in *. tauto. }
      * apply Qcle_refl.
      * eapply Qcle_trans; [exact Hy|by apply IH].
    + assert (foldr Qc_min q qs <= y)%Qc as Hy'.
      { apply Qclt_le_weak, Qcnot_le_lt. rewrite <- Qc_leb_le. congruence. }
      intros Hx.
      assert (x = y \/ x ∈ q :: qs) as [->|Hx'].
      { rewrite !elem_of_cons in *. tauto. }
      * done.
      * by apply IH.
Qed.

Lemma foldr_Qc_max_ge q qs x :
  x ∈ q :: qs -> (x <= foldr Qc_max q qs)%Qc.
Proof.
  induction qs as [|y qs IH].
  - intros ->%list_elem_of_singleton. apply Qcle_refl.
  - cbn [foldr]. unfold Qc_max at 1.
    destruct (Qc_leb y (foldr Qc_max q qs)) eqn:Hy.
    + apply Qc_leb_le in Hy. intros Hx.
      assert (x = y \/ x ∈ q :: qs) as [->|Hx'].
      { rewrite !elem_of_cons in *. tauto. }
      * done.
      * by apply IH.
    + assert (foldr Qc_max q qs <= y)%Qc as Hy'.
      { apply Qclt_le_weak, Qcnot_le_lt. rewrite <- Qc_leb_le. congruence. }
      intros Hx.
      assert (x = y \/ x ∈ q :: qs) as [->|Hx'].
      { rewrite !elem_of_cons in *. tauto. }
      * apply Qcle_refl.
      * eapply Qcle_trans; [by apply IH|exact Hy'].
Qed.

Lemma selections_Conclusion w df :
  selections Conclusion w df = Returns (mkFilterSpec None None None None None).
Proof. done. Qed.

Lemma selections_without_year pg w df :
  pg <> Conclusion -> has_column df "Year" = false ->
  selections pg w df =
  Returns (mkFilterSpec (Some (selectbox w "Country" (options df "Country")))
             None
             (Some (selectbox w "Gender" (options df "Gender")))
             (Some (selectbox w "Age group" (options df "Age_Group")))
             (Some (selectbox w "Location" (options df "Urban_Rural")))).
Proof.
  intros Hpg Hy. unfold selections. rewrite decide_True by done.
  by rewrite Hy.
Qed.

Lemma selections_with_year pg w df q qs :
  pg <> Conclusion -> has_column df "Year" = true ->
  year_keys df = q :: qs ->
  selections pg w df =
  Returns (mkFilterSpec (Some (selectbox w "Country" (options df "Country")))
             (Some (slider w (astype_int (foldr Qc_min q qs))
                             (astype_int (foldr Qc_max q qs))))
             (Some (selectbox w "Gender" (options df "Gender")))
             (Some (selectbox w "Age group" (options df "Age_Group")))
             (Some (selectbox w "Location" (options df "Urban_Rural")))).
Proof.
  intros Hpg Hy Hk. unfold selections, year_bounds.
  rewrite decide_True by done. by rewrite Hy, Hk.
Qed.

Lemma selections_no_numeric_year pg w df :
  pg <> Conclusion -> has_column df "Year" = true ->
  year_keys df = [] ->
  selections pg w df = Raises ValueError.
Proof.
  intros Hpg Hy Hk. unfold selections, year_bounds.
  rewrite decide_True by done. by rewrite Hy, Hk.
Qed.

(** X9: when the frame has a Year column in which no record holds a
    number -- all missing, or no record at all -- every page but Conclusion
    fails with ValueError while the Year slider is built, before anything
    is filtered or drawn; in every other case the selections are built. *)
Theorem render_without_numeric_year {sv : SortValues} (df : DataFrame) (pg : page) (w : widgets) :
  (pg <> Conclusion -> has_column df "Year" = true -> year_keys df = [] ->
   render df pg w = Raises ValueError) /\
  ((exists spec, selections pg w df = Returns spec) <->
   ~ (pg <> Conclusion /\ has_column df "Year" = true /\ year_keys df = [])).
Proof.
  split.
  - intros Hpg Hy Hk. unfold render.
    by rewrite selections_no_numeric_year.
  - destruct (decide (pg = Conclusion)) as [->|Hpg].
    { split; [naive_solver|]. intros _. eexists. apply selections_Conclusion. }
    destruct (has_column df "Year") eqn:Hy.
    + destruct (year_keys df) as [|q qs] eqn:Hk.
      * rewrite selections_no_numeric_year by done.
        split; [by intros [? [=]]|]. intros Hn. destruct Hn. done.
      * split; [naive_solver|]. intros _. eexists.
        by apply selections_with_year.
    + split; [naive_solver|]. intros _. eexists.
      by apply selections_without_year.
Qed.

Lemma render_without_numeric_year_witness :
  Overview <> Conclusion /\
  has_column survey_no_years "Year" = true /\
  year_keys survey_no_years = [] /\
  render (sv := ties_first_seen) survey_no_years Overview untouched = Raises ValueError.
Proof.
  split; [discriminate|]. split; [reflexivity|]. split; [reflexivity|].
  apply (proj1 (render_without_numeric_year (sv := ties_first_seen) survey_no_years Overview untouched));
    [discriminate|reflexivity|reflexivity].
Defined.

Lemma filter_ext_elem {B : Type} (P Q : B -> Prop)
    `{forall b, Decision (P b)} `{forall b, Decision (Q b)} (l : list B) :
  (forall b, b ∈ l -> P b <-> Q b) -> filter P l = filter Q l.
Proof.
  induction l as [|b l IH]; [done|]. intros Hl.
  rewrite !filter_cons.
  rewrite IH by (intros b' Hb'; apply Hl; by right).
  destruct (decide (P b)) as [HP|HP], (decide (Q b)) as [HQ|HQ];
    try done; exfalso; apply (Hl b (list_elem_of_here _ _)) in HP || apply HP;
    try done; by apply (Hl b (list_elem_of_here _ _)).
Qed.

Lemma head_options df c : head (options df c) = Some "All".
Proof. unfold options. by destruct (has_column df c). Qed.

Lemma passes_all_selected yrs r :
  passes (all_selected yrs) r = passes_years yrs r.
Proof.
  assert (forall c, passes_eq c (Some "All") r = true) as Hall.
  { intros c. unfold passes_eq.
    assert (active (Some "All") = None) as -> by (vm_compute; reflexivity).
    done. }
  unfold passes, all_selected.
  cbn [country years gender age_group location_sel].
  rewrite !Hall. cbn [andb]. by rewrite !andb_true_r.
Qed.

Lemma selections_untouched_without_year pg df :
  pg <> Conclusion -> has_column df "Year" = false ->
  selections pg untouched df = Returns (all_selected None).
Proof.
  intros Hpg Hy. rewrite selections_without_year by done.
  unfold untouched. cbn [selectbox]. by rewrite !head_options.
Qed.

Lemma selections_untouched_with_year pg df q qs :
  pg <> Conclusion -> has_column df "Year" = true ->
  year_keys df = q :: qs ->
  selections pg untouched df =
  Returns (all_selected (Some (astype_int (foldr Qc_min q qs),
                               astype_int (foldr Qc_max q qs)))).
Proof.
  intros Hpg Hy Hk. rewrite (selections_with_year _ _ _ q qs) by done.
  unfold untouched. cbn [selectbox slider]. by rewrite !head_options.
Qed.

Lemma constrained_present_all_selected df yrs :
  (is_Some yrs -> has_column df "Year" = true) ->
  constrained_present df (all_selected yrs).
Proof.
  intros Hy.
  assert (active (Some "All") = None) as Hall by (vm_compute; reflexivity).
  unfold constrained_present, all_selected.
  cbn [country years gender age_group location_sel]. rewrite !Hall.
  repeat split; try (by intros [? [=]]). done.
Qed.

(** X10: with the widgets as they first appear (every select box on "All",
    the slider on its full range) and a page other than Conclusion, the
    frame that reaches the page is the loaded frame itself when there is no
    Year column; when there is one and every Year that is a number is a
    whole number, it is the loaded frame without the records whose Year is
    not a number: the full range still drops the records with a null
    Year. *)
Theorem render_untouched_filter (df : DataFrame) (pg : page) :
  pg <> Conclusion ->
  (has_column df "Year" = false ->
   exists spec, selections pg untouched df = Returns spec /\
                apply_filters df spec = Ok df) /\
  (has_column df "Year" = true ->
   year_keys df <> [] ->
   (forall q, q ∈ year_keys df -> q = Qc_of_Z (astype_int q)) ->
   exists spec,
     selections pg untouched df = Returns spec /\
     apply_filters df spec =
       Ok (mkDF (columns df)
             (filter (fun r => is_Some (as_num (cell_at r "Year"))) (rows df)))).
Proof.
  intros Hpg. split.
  - intros Hy. eexists. split; [by apply selections_untouched_without_year|].
    apply apply_filters_unconstrained. by repeat split.
  - intros Hy Hne Hint. destruct (year_keys df) as [|q qs] eqn:Hk; [done|].
    eexists. split; [by apply selections_untouched_with_year|].
    rewrite apply_filters_present
      by (by apply constrained_present_all_selected).
    do 2 f_equal. apply filter_ext_elem. intros r Hr.
    rewrite passes_all_selected. cbn [passes_years]. unfold between.
    destruct (as_num (cell_at r "Year")) as [x|] eqn:Hx.
    + assert (x ∈ q :: qs) as Hin.
      { rewrite <- Hk. unfold year_keys. apply list_elem_of_omap.
        by exists r. }
      rewrite <- (Hint _ (foldr_Qc_min_elem q qs)).
      rewrite <- (Hint _ (foldr_Qc_max_elem q qs)).
      split; [intros _; by eexists|]. intros _. apply Is_true_true.
      apply andb_true_iff. split; apply Qc_leb_le.
      * by apply foldr_Qc_min_le.
      * by apply foldr_Qc_max_ge.
    + split; [done|]. by intros [? [=]].
Qed.

Lemma render_untouched_filter_witness :
  Overview <> Conclusion /\
  has_column survey "Year" = true /\
  exists spec out,
    selections Overview untouched survey = Returns spec /\
    apply_filters survey spec = Ok out /\
    length (rows out) = 4%nat /\ length (rows survey) = 5%nat.
Proof.
  split; [discriminate|]. split; [reflexivity|].
  assert (year_keys survey =
          [Qc_of_Z 2020; Qc_of_Z 2020; Qc_of_Z 2021; Qc_of_Z 2021]) as Hk
    by (vm_compute; reflexivity).
  destruct (proj2 (render_untouched_filter survey Overview
                     (fun H : Overview = Conclusion =>
                        eq_ind Overview
                          (fun p => match p with Overview => True | _ => False end)
                          I Conclusion H)) eq_refl)
    as (spec & Hspec & Hout).
  - rewrite Hk. discriminate.
  - intros q Hq. rewrite Hk in Hq.
    repeat (apply elem_of_cons in Hq as [->|Hq]; [vm_compute; reflexivity|]).
    by apply elem_of_nil in Hq.
  - eexists spec, _. split; [exact Hspec|]. split; [exact Hout|].
    split; vm_compute; reflexivity.
Defined.

Lemma conclusion_page_returns {sv : SortValues} df : exists c, conclusion_page df = Ok c.
Proof.
  unfold conclusion_page, getitem.
  destruct (has_column df "Fintech_Used"); cbn [mbind result_bind]; by eexists.
Qed.

(** X11: the Conclusion page never fails and shows the whole loaded frame:
    whatever the widgets would return, main builds none of them there,
    filters nothing and hands the frame as it was loaded to
    conclusion_page. *)
Theorem render_Conclusion {sv : SortValues} (df : DataFrame) (w : widgets) :
  exists c,
    conclusion_page df = Ok c /\
    render df Conclusion w = Returns (ConclusionView c).
Proof.
  destruct (conclusion_page_returns df) as [c Hc]. exists c. split; [done|].
  unfold render. rewrite selections_Conclusion. cbn [mbind outcome_bind].
  rewrite apply_filters_unconstrained by (by repeat split).
  cbn [lift mbind outcome_bind]. by rewrite Hc.
Qed.

(** ** trends_page behind the Year range *)

Lemma astype_int_bounds (q : Qc) (lo hi : Z) :
  (inject_Z lo <= q <= inject_Z hi)%Q -> (lo <= astype_int q <= hi)%Z.
Proof.
  unfold astype_int, Qle. destruct q as [[n d] Hq]. cbn.
  rewrite !Z.mul_1_r. intros [Hlo Hhi].
  pose proof (Z.quot_rem' n (Z.pos d)) as Hn.
  assert (- Z.pos d < Z.rem n (Z.pos d) < Z.pos d)%Z as Hr.
  { pose proof (Z.rem_bound_abs n (Z.pos d) ltac:(lia)). lia. }
  assert (0 <= n -> 0 <= Z.rem n (Z.pos d))%Z as Hr0
    by (intros; apply Z.rem_bound_pos; lia).
  assert (n <= 0 -> Z.rem n (Z.pos d) <= 0)%Z as Hr1
    by (intros; apply Z.rem_nonpos; lia).
  generalize dependent (Z.rem n (Z.pos d)). generalize dependent (Z.quot n (Z.pos d)).
  intros k r Hn Hr Hr0 Hr1. clear Hq.
  assert (0 < Z.pos d)%Z as Hd by lia. generalize dependent (Z.pos d).
  intros D Hlo Hhi Hn Hr Hd. split.
  - destruct (Z.le_gt_cases lo k); [done|exfalso]. nia.
  - destruct (Z.le_gt_cases k hi); [done|exfalso]. nia.
Qed.

Lemma trends_page_Some_columns df t :
  trends_page df = Ok (Some t) ->
  has_column df "Year" = true /\ has_column df "Fintech_Used" = true.
Proof.
  intros Ht. destruct (has_column df "Year") eqn:Hy.
  - split; [done|]. destruct (has_column df "Fintech_Used") eqn:Hfu; [done|].
    rewrite trends_page_without_fintech_used in Ht by done. discriminate.
  - rewrite trends_page_without_year in Ht by done. discriminate.
Qed.

Lemma astype_int64_in_range (q : Qc) :
  (- 2 ^ 63 <= astype_int q < 2 ^ 63)%Z -> astype_int64 q = astype_int q.
Proof. intros Hq. unfold astype_int64. by rewrite bool_decide_eq_true_2. Qed.

Lemma astype_int64_range (q : Qc) : (- 2 ^ 63 <= astype_int64 q < 2 ^ 63)%Z.
Proof. unfold astype_int64. cbv zeta. case_bool_decide; lia. Qed.

(** X12: behind a Year range that lies within int64 the trends table shows
    only years of that range: every year of the table computed from a
    frame that the filter block returned for the range [lo, hi], with
    -2^63 <= lo and hi < 2^63, is a whole number between lo and hi.  (A
    year beyond int64 is cast to -2^63 by line 148, whatever the range.) *)
Theorem trends_page_within_range (df out : DataFrame) (spec : FilterSpec)
    (lo hi : Z) (t : list TrendRow) :
  (- 2 ^ 63 <= lo)%Z -> (hi < 2 ^ 63)%Z ->
  years spec = Some (lo, hi) ->
  apply_filters df spec = Ok out ->
  trends_page out = Ok (Some t) ->
  forall a, a ∈ t ->
    exists z, Year a = Qc_of_Z z /\ (lo <= z <= hi)%Z.
Proof.
  intros Hlo Hhi Hyrs Hout Ht a Ha.
  destruct (trends_page_Some_columns _ _ Ht) as [Hy Hfu].
  destruct (trends_page_rows out t Hy Hfu Ht) as [Hyears _].
  assert (Year a ∈ map Year t) as Hin by (by apply list_elem_of_fmap_2).
  apply Hyears in Hin as (r & Hr & Hint).
  apply apply_filters_Ok in Hout as [_ ->]. cbn [rows] in Hr.
  apply list_elem_of_filter in Hr as [Hpass _].
  apply Is_true_true, passes_true in Hpass as (_ & Hrange & _).
  destruct (Hrange lo hi Hyrs) as (q & Hq & Hbounds).
  unfold int_year in Hint. rewrite Hq in Hint. cbn in Hint.
  injection Hint as <-.
  pose proof (astype_int_bounds q lo hi Hbounds) as Hz.
  exists (astype_int q). split; [|done].
  by rewrite astype_int64_in_range by lia.
Qed.

Lemma trends_page_within_range_witness :
  (- 2 ^ 63 <= 2021)%Z /\ (2021 < 2 ^ 63)%Z /\
  years (only_years 2021 2021) = Some (2021, 2021)%Z /\
  exists out t,
    apply_filters survey (only_years 2021 2021) = Ok out /\
    trends_page out = Ok (Some t) /\
    map Year t = [Qc_of_Z 2021] /\
    (forall a, a ∈ t ->
       exists z, Year a = Qc_of_Z z /\ (2021 <= z <= 2021)%Z).
Proof.
  split; [lia|]. split; [lia|]. split; [reflexivity|].
  set (out := mkDF (columns survey)
                (filter (fun r => passes (only_years 2021 2021) r) (rows survey))).
  assert (apply_filters survey (only_years 2021 2021) = Ok out) as Hout.
  { apply apply_filters_present. unfold constrained_present.
    repeat split; try (by intros [? ?]). }
  assert (trends_page out = Ok (Some [trend_row survey (Qc_of_Z 2021)])) as Ht
    by (vm_compute; reflexivity).
  exists out, [trend_row survey (Qc_of_Z 2021)].
  split; [exact Hout|]. split; [exact Ht|]. split; [reflexivity|].
  exact (trends_page_within_range survey out (only_years 2021 2021) 2021 2021
           [trend_row survey (Qc_of_Z 2021)] ltac:(lia) ltac:(lia)
           eq_refl Hout Ht).
Defined.

(** Where the range does not lie within int64 the statement fails: a
    record of the year 10^20 passes the range [0, 10^20] and is listed
    under the year -2^63. *)
Lemma trends_page_beyond_int64 :
  exists out,
    apply_filters survey_far_year (only_years 0 (10 ^ 20)) = Ok out /\
    length (rows out) = 1%nat /\
    trends_page out =
      Ok (Some [trend_row survey_far_year (Qc_of_Z (- 2 ^ 63))]) /\
    records_in_year survey_far_year (Qc_of_Z (- 2 ^ 63)) = 1%nat.
Proof.
  eexists. split.
  - apply apply_filters_present. unfold constrained_present.
    repeat split; try (by intros [? ?]).
  - split; [vm_compute; reflexivity|]. split; vm_compute; reflexivity.
Qed.

(** ** main: from the widgets to the page *)

Lemma options_nonempty df c : options df c <> [].
Proof. unfold options. by destruct (has_column df c). Qed.

Lemma untouched_picks : picks_an_option untouched.
Proof.
  intros label [|o opts] Ho; [done|]. cbn. apply list_elem_of_here.
Qed.

Lemma selections_from_widgets pg w df spec :
  picks_an_option w ->
  selections pg w df = Returns spec -> from_widgets df spec.
Proof.
  intros Hw Hsel.
  destruct (decide (pg = Conclusion)) as [->|Hpg].
  { rewrite selections_Conclusion in Hsel. injection Hsel as <-.
    repeat split. by intros [? ?]. }
  destruct (has_column df "Year") eqn:Hy.
  - destruct (year_keys df) as [|q qs] eqn:Hk.
    { rewrite selections_no_numeric_year in Hsel by done. discriminate. }
    rewrite (selections_with_year _ _ _ q qs) in Hsel by done.
    injection Hsel as <-.
    repeat split; cbn; try (apply Hw, options_nonempty). done.
  - rewrite selections_without_year in Hsel by done. injection Hsel as <-.
    repeat split; cbn; try (apply Hw, options_nonempty). by intros [? ?].
Qed.

Lemma selections_filtered pg w df spec :
  picks_an_option w ->
  selections pg w df = Returns spec ->
  apply_filters df spec =
  Ok (mkDF (columns df) (filter (fun r => passes spec r) (rows df))).
Proof.
  intros Hw Hsel.
  by apply apply_filters_present, from_widgets_present,
           (selections_from_widgets pg w).
Qed.

Lemma selections_returns pg w df :
  (has_column df "Year" = true -> year_keys df <> []) ->
  exists spec, selections pg w df = Returns spec.
Proof.
  intros Hk.
  destruct (decide (pg = Conclusion)) as [->|Hpg].
  { eexists. apply selections_Conclusion. }
  destruct (has_column df "Year") eqn:Hy.
  - destruct (year_keys df) as [|q qs] eqn:Hq; [by destruct Hk|].
    eexists. by apply selections_with_year.
  - eexists. by apply selections_without_year.
Qed.

(** X13: the unguarded read of Fintech_Used reaches the user.  On a frame
    with a Year column and no Fintech_Used column the Overview and Trends
    pages never render, whatever is selected in the widgets: they stop with
    ValueError at the Year slider when no record has a year, and otherwise
    with KeyError 'Fintech_Used' in kpis (Overview) or trends_page
    (Trends), also when the selection leaves no record. *)
Theorem render_without_fintech_used {sv : SortValues} (df : DataFrame) (pg : page) (w : widgets) :
  picks_an_option w ->
  has_column df "Year" = true ->
  has_column df "Fintech_Used" = false ->
  pg = Overview \/ pg = Trends ->
  render df pg w =
  Raises (match year_keys df with
          | [] => ValueError
          | _ => Error (KeyError "Fintech_Used")
          end).
Proof.
  intros Hw Hy Hfu Hpg.
  assert (pg <> Conclusion) as Hnc by (destruct Hpg as [-> | ->]; discriminate).
  destruct (year_keys df) as [|q qs] eqn:Hk.
  { unfold render. by rewrite selections_no_numeric_year. }
  destruct (selections_returns pg w df) as [spec Hspec].
  { intros _. by rewrite Hk. }
  unfold render. rewrite Hspec. cbn [mbind outcome_bind].
  rewrite (selections_filtered pg w) by done. cbn [lift mbind outcome_bind].
  destruct Hpg as [-> | ->].
  - unfold overview_page.
    rewrite kpis_year_without_fintech_used by (by rewrite has_column_mkDF).
    done.
  - rewrite trends_page_without_fintech_used by (by rewrite has_column_mkDF).
    done.
Qed.

Lemma render_without_fintech_used_witness :
  picks_an_option untouched /\
  has_column survey_country_year "Year" = true /\
  has_column survey_country_year "Fintech_Used" = false /\
  render (sv := ties_first_seen) survey_country_year Overview untouched =
    Raises (Error (KeyError "Fintech_Used")) /\
  render (sv := ties_first_seen) survey_country_year Trends untouched =
    Raises (Error (KeyError "Fintech_Used")).
Proof.
  split; [exact untouched_picks|]. split; [reflexivity|]. split; [reflexivity|].
  split.
  - exact (render_without_fintech_used (sv := ties_first_seen) survey_country_year Overview untouched
             untouched_picks eq_refl eq_refl (or_introl eq_refl)).
  - exact (render_without_fintech_used (sv := ties_first_seen) survey_country_year Trends untouched
             untouched_picks eq_refl eq_refl (or_intror eq_refl)).
Defined.

(** ** demographics_page *)

Lemma demographics_page_returns {sv : SortValues} df :
  exists v,
    demographics_page df = Ok v /\
    (is_Some (gender_usage v) <->
       has_column df "Gender" = true /\ has_column df "Fintech_Used" = true) /\
    (is_Some (age_groups v) <-> has_column df "Age_Group" = true) /\
    (is_Some (phone_location v) <->
       has_column df "Phone_Type" = true /\ has_column df "Urban_Rural" = true).
Proof.
  unfold demographics_page, getitem.
  destruct (has_column df "Gender") eqn:Hg,
           (has_column df "Fintech_Used") eqn:Hf,
           (has_column df "Age_Group") eqn:Ha,
           (has_column df "Phone_Type") eqn:Hp,
           (has_column df "Urban_Rural") eqn:Hu;
    cbn [andb mbind result_bind]; rewrite ?Hg, ?Hf, ?Ha, ?Hp, ?Hu;
    cbn [andb mbind result_bind];
    eexists; (split; [reflexivity|]);
    cbn [gender_usage age_groups phone_location];
    repeat split; try done; try (by intros [? ?]); try (by intros [? [=]]);
    try (by intros [[=] ?]); try (by intros [? [=]]); try (by intros [=]).
Qed.

(** X14: the Demographics page cannot fail on a missing column.  Every
    read of demographics_page is under a guard, and a select box offers
    only 'All' for an absent column, so whatever is selected the page
    renders -- except when the frame has a Year column without any year,
    which stops the slider (X9).  Each of its three charts is drawn exactly
    when its columns exist in the frame that was loaded. *)
Theorem render_Demographics {sv : SortValues} (df : DataFrame) (w : widgets) :
  picks_an_option w ->
  (has_column df "Year" = true -> year_keys df <> []) ->
  exists v,
    render df Demographics w = Returns (DemographicsView v) /\
    (is_Some (gender_usage v) <->
       has_column df "Gender" = true /\ has_column df "Fintech_Used" = true) /\
    (is_Some (age_groups v) <-> has_column df "Age_Group" = true) /\
    (is_Some (phone_location v) <->
       has_column df "Phone_Type" = true /\ has_column df "Urban_Rural" = true).
Proof.
  intros Hw Hk.
  destruct (selections_returns Demographics w df Hk) as [spec Hspec].
  set (out := mkDF (columns df) (filter (fun r => passes spec r) (rows df))).
  destruct (demographics_page_returns out) as (v & Hv & Hcharts).
  exists v. split.
  - unfold render. rewrite Hspec. cbn [mbind outcome_bind].
    rewrite (selections_filtered Demographics w) by done.
    cbn [lift mbind outcome_bind]. fold out. by rewrite Hv.
  - unfold out in Hcharts. by rewrite !has_column_mkDF in Hcharts.
Qed.

Lemma render_Demographics_witness :
  picks_an_option untouched /\
  exists v,
    render (sv := ties_first_seen) survey Demographics untouched = Returns (DemographicsView v) /\
    is_Some (gender_usage v) /\ is_Some (age_groups v) /\
    ~ is_Some (phone_location v).
Proof.
  split; [exact untouched_picks|].
  destruct (render_Demographics (sv := ties_first_seen) survey untouched untouched_picks)
    as (v & Hv & Hg & Ha & Hp).
  { intros _. vm_compute. discriminate. }
  exists v. split; [exact Hv|]. split; [|split].
  - apply Hg. split; reflexivity.
  - apply Ha. reflexivity.
  - intros Hs. apply Hp in Hs as [Hs _]. vm_compute in Hs. discriminate.
Defined.

(** ** usecases_page *)

Lemma gt_zero_mask_strings (s : list cell) :
  (exists t, Str t ∈ s) -> gt_zero_mask s = Raises TypeError.
Proof.
  intros [t Ht]. induction s as [|v s IH]; [by apply elem_of_nil in Ht|].
  cbn [gt_zero_mask]. apply elem_of_cons in Ht as [<-|Ht]; [done|].
  rewrite (IH Ht). by destruct v.
Qed.

Lemma gt_zero_mask_numbers (s : list cell) :
  (forall t, Str t ∉ s) -> gt_zero_mask s = Returns (map positive s).
Proof.
  induction s as [|v s IH]; intros Hs; [done|].
  cbn [gt_zero_mask]. rewrite IH.
  2: { intros t Ht. apply (Hs t). by right. }
  destruct v as [|t|q]; try done. destruct (Hs t). by left.
Qed.

Lemma select_rows_map df (f : Row -> bool) :
  select_rows df (map f (rows df)) =
  mkDF (columns df) (filter (fun r => f r) (rows df)).
Proof.
  unfold select_rows. f_equal.
  induction (rows df) as [|r l IH]; [done|]. cbn [map zip zip_with].
  destruct (f r) eqn:Hf.
  - rewrite !filter_cons_True by (cbn; rewrite ?Hf; done).
    cbn [map fst]. by rewrite IH.
  - rewrite !filter_cons_False by (cbn; rewrite ?Hf; cbn; tauto). done.
Qed.

Lemma usecases_page_numbers {sv : SortValues} df :
  has_column df "Monthly_Transactions" = true ->
  (forall r t, r ∈ rows df -> cell_at r "Monthly_Transactions" <> Str t) ->
  let sub := mkDF (columns df)
               (filter (fun r => positive (cell_at r "Monthly_Transactions"))
                  (rows df)) in
  usecases_page df =
  Returns (mkUsecases (top_n_by_frequency df "Use_Case_1" 15)
             (Some (if bool_decide (rows sub <> [])
                    then Histogram sub else NoPositiveValues))).
Proof.
  intros Hc Hs sub. unfold usecases_page, getitem. rewrite Hc.
  cbn [lift mbind outcome_bind].
  rewrite gt_zero_mask_numbers.
  2: { intros t Ht. apply list_elem_of_fmap in Ht as (r & Hr & Hin).
       by apply (Hs r t). }
  cbn [mbind outcome_bind].
  rewrite (map_map _ positive).
  rewrite (select_rows_map df (fun r => positive (cell_at r "Monthly_Transactions"))).
  fold sub. do 3 f_equal. unfold len.
  destruct (rows sub); [done|].
  rewrite bool_decide_eq_true_2 by (cbn; lia).
  by rewrite bool_decide_eq_true_2.
Qed.

(** X15: the second chart of usecases_page.  Without a
    Monthly_Transactions column nothing is shown for it; a column that holds
    a string makes the comparison [> 0] fail with TypeError; otherwise the
    histogram gets exactly the records whose value is a number above 0 --
    a missing value counts as not positive -- and when there is no such
    record the note is shown instead of an empty histogram. *)
Theorem usecases_page_transactions {sv : SortValues} (df : DataFrame) :
  (has_column df "Monthly_Transactions" = false ->
   usecases_page df =
   Returns (mkUsecases (top_n_by_frequency df "Use_Case_1" 15) None)) /\
  (has_column df "Monthly_Transactions" = true ->
   (exists r t, r ∈ rows df /\ cell_at r "Monthly_Transactions" = Str t) ->
   usecases_page df = Raises TypeError) /\
  (has_column df "Monthly_Transactions" = true ->
   (forall r t, r ∈ rows df -> cell_at r "Monthly_Transactions" <> Str t) ->
   let sub := mkDF (columns df)
                (filter (fun r => positive (cell_at r "Monthly_Transactions"))
                   (rows df)) in
   usecases_page df =
   Returns (mkUsecases (top_n_by_frequency df "Use_Case_1" 15)
              (Some (if bool_decide (rows sub <> [])
                     then Histogram sub else NoPositiveValues)))).
Proof.
  split; [|split].
  - intros Hc. unfold usecases_page. by rewrite Hc.
  - intros Hc (r & t & Hr & Ht). unfold usecases_page, getitem. rewrite Hc.
    cbn [lift mbind outcome_bind]. rewrite gt_zero_mask_strings; [done|].
    exists t. rewrite <- Ht.
    by apply (list_elem_of_fmap_2 (fun r => cell_at r "Monthly_Transactions")).
  - apply usecases_page_numbers.
Qed.

Lemma usecases_page_transactions_witness :
  usecases_page (sv := ties_first_seen) survey = Returns (mkUsecases None None) /\
  usecases_page (sv := ties_first_seen) (transactions_frame [num 3; Str "many"]) = Raises TypeError /\
  exists sub,
    usecases_page (sv := ties_first_seen) (transactions_frame [num 3; NaN; num 0]) =
      Returns (mkUsecases None (Some (Histogram sub))) /\
    length (rows sub) = 1%nat.
Proof.
  split; [|split].
  - exact (proj1 (usecases_page_transactions (sv := ties_first_seen) survey) eq_refl).
  - apply (proj1 (proj2 (usecases_page_transactions (sv := ties_first_seen)
                           (transactions_frame [num 3; Str "many"])))).
    + reflexivity.
    + exists (row_of [("Monthly_Transactions", Str "many")]), "many".
      split; [|reflexivity].
      unfold transactions_frame. cbn [rows map].
      apply list_elem_of_further, list_elem_of_here.
  - pose proof (proj2 (proj2 (usecases_page_transactions (sv := ties_first_seen)
                                (transactions_frame [num 3; NaN; num 0])))
                  eq_refl) as H.
    cbv zeta in H. rewrite H; clear H.
    + eexists. split.
      * rewrite bool_decide_eq_true_2; [reflexivity|].
        intros Hnil. apply (f_equal length) in Hnil.
        vm_compute in Hnil. discriminate.
      * vm_compute. reflexivity.
    + intros r t Hr. unfold transactions_frame in Hr. cbn [rows map] in Hr.
      repeat (apply elem_of_cons in Hr as [->|Hr]; [vm_compute; discriminate|]).
      by apply elem_of_nil in Hr.
Defined.

(** X16: load_data and usecases_page together.  For a table that has no
    Monthly_Transactions column the loader adds the column filled with 0,
    and 0 is not above 0: on the loaded frame usecases_page does not fail
    and shows the note that there are no positive values, never a
    histogram, however many records the table has. *)
Theorem usecases_page_after_load {sv : SortValues} (parse_number : string -> option Qc)
    (str_of_number : Qc -> string) (fs : gmap string file) (path : string)
    (raw df : DataFrame) :
  fs !! path = Some (Csv raw) ->
  has_column raw "Monthly_Transactions" = false ->
  load_data parse_number str_of_number fs path = Ok df ->
  length (rows df) = length (rows raw) /\
  usecases_page df =
  Returns (mkUsecases (top_n_by_frequency df "Use_Case_1" 15)
             (Some NoPositiveValues)).
Proof.
  intros Hf Hc Hdf.
  rewrite (load_data_Csv parse_number str_of_number _ _ _ Hf) in Hdf.
  injection Hdf as <-. cbn [rows]. split; [by rewrite length_map|].
  assert (forall r', r' ∈ map (clean_row parse_number str_of_number raw) (rows raw) ->
                     cell_at r' "Monthly_Transactions" = Num 0%Qc) as Hzero.
  { intros r' Hr'. apply list_elem_of_fmap in Hr' as (r & -> & _).
    rewrite cell_at_clean_row. rewrite decide_True; [done|].
    split; [|done]. apply (bool_decide_unpack _). by vm_compute. }
  rewrite usecases_page_numbers.
  - cbn [rows columns]. rewrite filter_none; [done|].
    intros r' Hr'. rewrite (Hzero r' Hr'). vm_compute. tauto.
  - rewrite has_column_app, Hc. cbn [orb]. apply bool_decide_eq_true.
    unfold added_columns. apply list_elem_of_filter. split; [done|].
    apply (bool_decide_unpack _). by vm_compute.
  - cbn [rows]. intros r' t Hr'. by rewrite (Hzero r' Hr').
Qed.

Lemma usecases_page_after_load_witness :
  disk !! "datasets/fintech_usage_africa.csv" = Some (Csv raw_table) /\
  has_column raw_table "Monthly_Transactions" = false /\
  exists df,
    load_data sample_parse sample_str disk "datasets/fintech_usage_africa.csv"
      = Ok df /\
    length (rows df) = 2%nat /\
    usecases_page (sv := ties_first_seen) df = Returns (mkUsecases None (Some NoPositiveValues)).
Proof.
  split; [reflexivity|]. split; [reflexivity|].
  eexists. split; [apply load_data_sample|].
  destruct (usecases_page_after_load (sv := ties_first_seen) sample_parse sample_str disk
              "datasets/fintech_usage_africa.csv" raw_table _
              eq_refl eq_refl load_data_sample) as [Hlen Hpage].
  split; [exact Hlen|]. rewrite Hpage. reflexivity.
Defined.

(** ** The options of the select boxes *)

Lemma elem_of_str_values t (s : list cell) : t ∈ str_values s <-> Str t ∈ s.
Proof.
  unfold str_values. rewrite list_elem_of_omap. split.
  - intros (v & Hv & Ht). destruct v; try discriminate. by injection Ht as <-.
  - intros Ht. by exists (Str t).
Qed.

Lemma NoDup_str_values (s : list cell) : NoDup s -> NoDup (str_values s).
Proof.
  induction 1 as [|v s Hv Hs IH]; [constructor|].
  unfold str_values. cbn [omap list_omap]. fold (str_values s).
  destruct v as [|t|q]; try done.
  constructor; [|done]. by rewrite elem_of_str_values.
Qed.

Lemma str_le_total : base.Total str_le.
Proof. intros a b. apply String.leb_total. Qed.


(** X17: what a select box of main offers: 'All' first; after it, when the
    column exists, the string values of the column, each once, in ascending
    order (each no greater than the next); nothing but 'All' when the
    column does not exist. *)
Theorem options_spec (df : DataFrame) (c : string) :
  head (options df c) = Some "All" /\
  Sorted str_le (tail (options df c)) /\
  NoDup (tail (options df c)) /\
  (forall t, t ∈ tail (options df c) <->
     has_column df c = true /\ exists r, r ∈ rows df /\ cell_at r c = Str t).
Proof.
  unfold options. destruct (has_column df c) eqn:Hc; cbn [head tail].
  - split; [done|]. split; [apply (@Sorted_merge_sort _ str_le _ str_le_total)|]. split.
    + rewrite merge_sort_Permutation. apply NoDup_str_values, NoDup_unique.
    + intros t. rewrite merge_sort_Permutation, elem_of_str_values.
      rewrite elem_of_unique, elem_of_dropna.
      change (map ?f ?l) with (f <$> l). rewrite list_elem_of_fmap. split.
      * intros [(r & Hr & Hin) _]. split; [done|]. by exists r.
      * intros (_ & r & Hin & Hr). split; [|done]. by exists r.
  - split; [done|]. split; [constructor|]. split; [constructor|].
    intros t. split; [by intros ?%elem_of_nil|]. by intros [? _].
Qed.



(** ** trends_page: what the table adds up to *)

Lemma sum_occurrences_cover {A : Type} `{EqDecision A} (u l : list A) :
  NoDup u -> (forall x, x ∈ l -> x ∈ u) ->
  sum_list_with (fun k => occurrences k l) u = length l.
Proof.
  intros Hu. induction l as [|a l IH]; intros Hl.
  { clear Hu Hl. induction u as [|b u IHu]; [done|].
    cbn [sum_list_with]. by rewrite IHu. }
  cbn [length]. rewrite <- IH by (intros x Hx; apply Hl; by right).
  rewrite (sum_list_with_split (fun k => occurrences k (a :: l)) a u Hu).
  rewrite (sum_list_with_split (fun k => occurrences k l) a u Hu).
  rewrite !decide_True by (apply Hl; by left).
  rewrite occurrences_cons, decide_True by done.
  assert (sum_list_with (fun k => occurrences k (a :: l))
            (filter (fun y => y <> a) u) =
          sum_list_with (fun k => occurrences k l)
            (filter (fun y => y <> a) u)) as ->; [|lia].
  clear. induction u as [|b u IHu]; [done|].
  rewrite filter_cons. destruct (decide (b <> a)); [|done].
  cbn [sum_list_with].
  rewrite IHu, occurrences_cons. by rewrite decide_False by done.
Qed.

Lemma length_omap_filter {B C : Type} (f : B -> option C) (l : list B) :
  length (omap f l) = length (filter (fun b => is_Some (f b)) l).
Proof.
  induction l as [|b l IH]; [done|].
  rewrite filter_cons. cbn [omap list_omap]. fold (omap f l).
  destruct (f b) as [c|] eqn:Hb.
  - rewrite decide_True by (by eexists). cbn. by rewrite IH.
  - rewrite decide_False by (by intros [? ?]). done.
Qed.

Lemma is_Some_int_year r :
  is_Some (int_year r) <-> is_Some (as_num (cell_at r "Year")).
Proof. unfold int_year. by rewrite fmap_is_Some. Qed.

Lemma sum_list_with_fmap {B C : Type} (f : C -> nat) (g : B -> C) (l : list B) :
  sum_list_with f (map g l) = sum_list_with (fun b => f (g b)) l.
Proof. induction l as [|b l IH]; [done|]. cbn. by rewrite IH. Qed.

Lemma sum_list_with_ext_elem {B : Type} (f g : B -> nat) (l : list B) :
  (forall b, b ∈ l -> f b = g b) -> sum_list_with f l = sum_list_with g l.
Proof.
  induction l as [|b l IH]; intros Hl; [done|]. cbn.
  rewrite (Hl b) by (by left). rewrite IH; [done|].
  intros b' Hb'. apply Hl. by right.
Qed.

(** X19: the trends table accounts for every record that has a year, once.
    The Total column adds up to the number of records whose Year holds a
    number, the Fintech_Users column to the number of fintech users among
    them; records without a year are in no row of the table. *)
Theorem trends_page_totals (df : DataFrame) (t : list TrendRow) :
  trends_page df = Ok (Some t) ->
  sum_list_with Total t =
    length (filter (fun r => is_Some (as_num (cell_at r "Year"))) (rows df)) /\
  sum_list_with Fintech_Users t =
    length (filter (fun r => is_Some (as_num (cell_at r "Year")))
              (fintech_rows df)) /\
  (sum_list_with Fintech_Users t <= sum_list_with Total t)%nat.
Proof.
  intros Ht. destruct (trends_page_Some_columns _ _ Ht) as [Hy Hfu].
  destruct (trends_page_returns df Hy Hfu) as (t' & Ht' & Hperm & _).
  rewrite Ht in Ht'. injection Ht' as <-.
  set (keys := omap int_year (rows df)) in *.
  assert (sum_list_with Total t = length keys) as HT.
  { rewrite Hperm, sum_list_with_fmap. cbn [trend_row Total].
    rewrite <- (sum_occurrences_unique keys).
    apply sum_list_with_ext_elem. intros y _. unfold records_in_year, keys.
    by rewrite occurrences_omap. }
  assert (sum_list_with Fintech_Users t =
          length (omap int_year (fintech_rows df))) as HF.
  { rewrite Hperm, sum_list_with_fmap. cbn [trend_row Fintech_Users].
    rewrite <- (sum_occurrences_cover (unique keys)
                  (omap int_year (fintech_rows df))).
    - apply sum_list_with_ext_elem. intros y _. unfold users_in_int_year.
      by rewrite occurrences_omap.
    - apply NoDup_unique.
    - intros y. rewrite elem_of_unique. unfold keys.
      rewrite !list_elem_of_omap. intros (r & Hr & Hyr). exists r.
      split; [|done]. unfold fintech_rows in Hr.
      by apply list_elem_of_filter in Hr as [_ Hr]. }
  assert (forall l : list Row,
            length (omap int_year l) =
            length (filter (fun r => is_Some (as_num (cell_at r "Year"))) l))
    as Hlen.
  { intros l. rewrite length_omap_filter. f_equal.
    apply list_filter_iff. intros r. apply is_Some_int_year. }
  rewrite HT, HF. unfold keys. rewrite !Hlen. split; [done|]. split; [done|].
  unfold fintech_rows. apply filter_filter_length_le.
Qed.

Lemma trends_page_totals_witness :
  exists t,
    trends_page survey = Ok (Some t) /\
    length (rows survey) = 5%nat /\
    sum_list_with Total t = 4%nat /\
    sum_list_with Fintech_Users t = 2%nat /\
    length (fintech_rows survey) = 3%nat.
Proof.
  eexists. split; [apply trends_page_survey|].
  destruct (trends_page_totals survey _ trends_page_survey) as (HT & HF & _).
  split; [reflexivity|]. split; [|split].
  - rewrite HT. vm_compute. reflexivity.
  - rewrite HF. vm_compute. reflexivity.
  - vm_compute. reflexivity.
Defined.

(** ** load_data: what it leaves alone, and loading twice *)

Section load_more.
Variable parse_number : string -> option Qc.
Variable str_of_number : Qc -> string.

#[local] Abbreviation to_numeric := (to_numeric parse_number).
#[local] Abbreviation astype_str := (astype_str str_of_number).
#[local] Abbreviation load_data := (load_data parse_number str_of_number).
#[local] Abbreviation clean := (clean_row parse_number str_of_number).
#[local] Abbreviation normalize := (fun v => astype_str (fillna "Unknown" v)).

Lemma load_data_Ok_Csv fs path df :
  load_data fs path = Ok df -> exists raw, fs !! path = Some (Csv raw).
Proof.
  unfold App.load_data, read_csv.
  destruct (fs !! path) as [[| | | | |raw]|]; try discriminate. by exists raw.
Qed.

Lemma to_numeric_idemp v : to_numeric (to_numeric v) = to_numeric v.
Proof.
  destruct v as [|s|q]; [done| |done]. cbn. by destruct (parse_number s).
Qed.

Lemma normalize_idemp v : normalize (normalize v) = normalize v.
Proof. by destruct v. Qed.

Lemma set_cell_id c (f : cell -> cell) (r : Row) v :
  r !! c = Some v -> f v = v -> set_cell c f r = r.
Proof.
  intros Hr Hf. unfold set_cell, cell_at. rewrite Hr. simpl.
  rewrite Hf. by apply insert_id.
Qed.

Lemma foldl_set_cell_id (f : cell -> cell) (cs : list string) (r : Row) :
  (forall c, c ∈ cs -> exists v, r !! c = Some v /\ f v = v) ->
  foldl (fun r c => set_cell c f r) r cs = r.
Proof.
  induction cs as [|c cs IH]; intros Hcs; [done|]. cbn [foldl].
  destruct (Hcs c) as (v & Hv & Hf); [by left|].
  rewrite (set_cell_id c f r v Hv Hf). apply IH.
  intros c' Hc'. apply Hcs. by right.
Qed.

Lemma is_Some_set_cell c (f : cell -> cell) (r : Row) k :
  is_Some (set_cell c f r !! k) <-> k = c \/ is_Some (r !! k).
Proof.
  unfold set_cell. destruct (decide (k = c)) as [->|Hne].
  - rewrite lookup_insert_eq. split; [by left|by eexists].
  - rewrite lookup_insert_ne by done. naive_solver.
Qed.

Lemma is_Some_foldl_set_cell (f : cell -> cell) (cs : list string) (r : Row) k :
  is_Some (foldl (fun r c => set_cell c f r) r cs !! k) <->
  k ∈ cs \/ is_Some (r !! k).
Proof.
  revert r. induction cs as [|c cs IH]; intros r.
  { cbn [foldl]. rewrite elem_of_nil. tauto. }
  cbn [foldl]. rewrite IH, is_Some_set_cell, elem_of_cons. tauto.
Qed.

Lemma is_Some_foldl_add raw (v : cell) (ns : list string) (r : Row) k :
  is_Some (foldl (fun r n => if has_column raw n then r else <[n := v]> r) r ns
           !! k) <->
  (k ∈ ns /\ has_column raw k = false) \/ is_Some (r !! k).
Proof.
  revert r. induction ns as [|n ns IH]; intros r.
  { cbn [foldl]. rewrite elem_of_nil. tauto. }
  cbn [foldl]. rewrite IH, elem_of_cons. destruct (has_column raw n) eqn:Hn.
  - split; [tauto|]. intros [[[->|?] ?]|?]; [congruence|tauto..].
  - destruct (decide (k = n)) as [->|Hne].
    + rewrite lookup_insert_eq. split; [tauto|]. intros _. right. by eexists.
    + rewrite lookup_insert_ne by done. tauto.
Qed.

(** The keys of a cleaned row: those of the row and every column the
    loader wrote. *)
Lemma is_Some_clean_row raw r k :
  is_Some (clean raw r !! k) <->
  (k ∈ num_cols /\ has_column raw k = false) \/
  (k ∈ str_cols_all /\ has_column raw k = true) \/
  (k = "Year" /\ has_column raw k = true) \/
  is_Some (r !! k).
Proof.
  unfold clean_row. rewrite is_Some_foldl_add, is_Some_foldl_set_cell.
  rewrite list_elem_of_filter, Is_true_true.
  destruct (has_column raw "Year") eqn:Hy.
  - rewrite is_Some_set_cell. split; [naive_solver|].
    intros [?|[?|[[-> ?]|?]]]; tauto.
  - split; [tauto|]. intros [?|[?|[[-> ?]|?]]]; [tauto|tauto|congruence|tauto].
Qed.

Lemma lookup_cell_at (r : Row) k : is_Some (r !! k) -> r !! k = Some (cell_at r k).
Proof. intros [v Hv]. unfold cell_at. by rewrite Hv. Qed.

Lemma added_columns_loaded raw rs :
  added_columns (mkDF (columns raw ++ added_columns raw) rs) = [].
Proof.
  unfold added_columns at 1. apply filter_none. intros n Hn.
  rewrite has_column_app. destruct (has_column raw n) eqn:Hraw; [done|].
  cbn [orb]. rewrite bool_decide_eq_true_2; [done|].
  unfold added_columns. by apply list_elem_of_filter.
Qed.

Lemma has_column_loaded raw rs c :
  c ∉ num_cols ->
  has_column (mkDF (columns raw ++ added_columns raw) rs) c = has_column raw c.
Proof.
  intros Hc. rewrite has_column_app. rewrite bool_decide_eq_false_2.
  - apply orb_false_r.
  - unfold added_columns. rewrite list_elem_of_filter. tauto.
Qed.

Lemma str_cols_not_num c : c ∈ str_cols_all -> c ∉ num_cols.
Proof.
  intros Hc Hn. revert Hc.
  unfold num_cols in Hn. unfold str_cols_all.
  repeat (apply elem_of_cons in Hn as [->|Hn];
          [apply (bool_decide_unpack _); by vm_compute|]).
  by apply elem_of_nil in Hn.
Qed.

Lemma Year_not_num : "Year" ∉ num_cols.
Proof. apply (bool_decide_unpack _). by vm_compute. Qed.

Lemma Year_not_str : "Year" ∉ str_cols_all.
Proof. apply (bool_decide_unpack _). by vm_compute. Qed.

(** Cleaning a cleaned row again, against the loaded frame, changes
    nothing. *)
Lemma clean_row_idemp raw rs r :
  clean (mkDF (columns raw ++ added_columns raw) rs) (clean raw r) = clean raw r.
Proof.
  set (df := mkDF (columns raw ++ added_columns raw) rs).
  set (r' := clean raw r).
  unfold clean_row at 1.
  assert (forall n, n ∈ num_cols -> has_column df n = true) as Hnum.
  { intros n Hn. unfold df. rewrite has_column_app.
    destruct (has_column raw n) eqn:Hraw; [done|]. cbn [orb].
    apply bool_decide_eq_true. unfold added_columns.
    by apply list_elem_of_filter. }
  assert ((if has_column df "Year" then set_cell "Year" to_numeric r' else r')
          = r') as ->.
  { unfold df. rewrite has_column_loaded by apply Year_not_num.
    destruct (has_column raw "Year") eqn:Hy; [|done].
    apply (set_cell_id _ _ _ (cell_at r' "Year")).
    - apply lookup_cell_at, is_Some_clean_row. right. right. by left.
    - unfold r'. rewrite cell_at_clean_row.
      rewrite decide_False by (intros [? _]; by apply Year_not_num).
      rewrite decide_False by (intros [? _]; by apply Year_not_str).
      rewrite decide_True by done. apply to_numeric_idemp. }
  rewrite foldl_set_cell_id.
  - clear -Hnum. generalize num_cols, Hnum. intros ns.
    induction ns as [|n ns IH]; intros Hns; [done|]. cbn [foldl].
    rewrite Hns by (by left). apply IH. intros n' Hn'. apply Hns. by right.
  - intros c Hc. apply list_elem_of_filter in Hc as [Hc Hin].
    apply Is_true_true in Hc. unfold df in Hc.
    rewrite has_column_loaded in Hc by (by apply str_cols_not_num).
    exists (cell_at r' c). split.
    + apply lookup_cell_at, is_Some_clean_row. right. by left.
    + unfold r'. rewrite (cell_at_clean_row parse_number str_of_number).
      rewrite decide_False
        by (intros [? _]; by apply (str_cols_not_num c)).
      rewrite decide_True by done. apply normalize_idemp.
Qed.

End load_more.

(** X20: what load_data leaves alone.  The columns of the table keep their
    order and the added numeric columns come after them; a column that is
    neither Year nor one of the eight string columns is returned cell for
    cell as it was read: a missing Barrier stays missing, and a
    Monthly_Transactions column that exists is not made numeric. *)
Theorem load_data_untouched (parse_number : string -> option Qc)
    (str_of_number : Qc -> string) (fs : gmap string file) (path : string)
    (raw df : DataFrame) :
  fs !! path = Some (Csv raw) ->
  load_data parse_number str_of_number fs path = Ok df ->
  columns df = columns raw ++ added_columns raw /\
  (forall c, c ∉ "Year" :: str_cols_all -> has_column raw c = true ->
     map (fun r => cell_at r c) (rows df) = map (fun r => cell_at r c) (rows raw)).
Proof.
  intros Hf Hdf.
  rewrite (load_data_Csv parse_number str_of_number _ _ _ Hf) in Hdf.
  injection Hdf as <-. cbn [columns rows]. split; [done|].
  intros c Hc Hraw. rewrite map_map. apply map_ext. intros r.
  rewrite cell_at_clean_row.
  rewrite decide_False by (intros [_ ?]; congruence).
  rewrite decide_False by (intros [? _]; apply Hc; by right).
  rewrite decide_False by (intros [-> _]; apply Hc; by left). done.
Qed.

Lemma load_data_untouched_witness :
  disk !! "datasets/fintech_usage_africa.csv" = Some (Csv raw_table) /\
  exists df,
    load_data sample_parse sample_str disk "datasets/fintech_usage_africa.csv"
      = Ok df /\
    columns df = ["Country"; "Year"; "Fintech_Used"; "Barrier";
                  "Monthly_Transactions"; "Avg_Transaction_Value"] /\
    map (fun r => cell_at r "Barrier") (rows df) = [Str "Trust"; NaN].
Proof.
  split; [reflexivity|]. eexists. split; [apply load_data_sample|].
  destruct (load_data_untouched sample_parse sample_str disk
              "datasets/fintech_usage_africa.csv" raw_table _
              eq_refl load_data_sample) as [Hcols Hcells].
  split; [exact Hcols|].
  rewrite (Hcells "Barrier"); [reflexivity| |reflexivity].
  apply (bool_decide_unpack _). vm_compute. exact I.
Defined.

(** X21: loading is idempotent.  A table that is itself a result of
    load_data is returned unchanged when it is loaded: the years are
    numbers or nulls already, the string columns are strings, no numeric
    column is missing. *)
Theorem load_data_idempotent (parse_number : string -> option Qc)
    (str_of_number : Qc -> string) (fs fs' : gmap string file)
    (path path' : string) (df : DataFrame) :
  load_data parse_number str_of_number fs path = Ok df ->
  fs' !! path' = Some (Csv df) ->
  load_data parse_number str_of_number fs' path' = Ok df.
Proof.
  intros Hdf Hf'.
  destruct (load_data_Ok_Csv _ _ _ _ _ Hdf) as [raw Hf].
  rewrite (load_data_Csv parse_number str_of_number _ _ _ Hf) in Hdf.
  injection Hdf as <-.
  rewrite (load_data_Csv parse_number str_of_number _ _ _ Hf').
  cbn [columns rows]. rewrite added_columns_loaded, app_nil_r.
  do 2 f_equal. rewrite map_map. apply map_ext. intros r.
  apply clean_row_idemp.
Qed.

Lemma load_data_idempotent_witness :
  exists df,
    load_data sample_parse sample_str disk "datasets/fintech_usage_africa.csv"
      = Ok df /\
    load_data sample_parse sample_str {[ "copy.csv" := Csv df ]} "copy.csv"
      = Ok df.
Proof.
  eexists. split; [apply load_data_sample|].
  apply (load_data_idempotent sample_parse sample_str disk _
           "datasets/fintech_usage_africa.csv" "copy.csv" _ load_data_sample).
  apply lookup_singleton_eq.
Defined.

(** ** The smoke test *)

(** X22: test_load_data passes exactly when the data file is a table that
    can be read and has at least one record -- the loader neither drops nor
    adds a record, whatever the columns of the table; on a table without
    records the assertion fails, and in every other case the test ends with
    the error of read_csv. *)
Theorem test_load_data_passes (parse_number : string -> option Qc)
    (str_of_number : Qc -> string) (fs : gmap string file) :
  (test_load_data parse_number str_of_number fs = Passed <->
   exists raw, fs !! "datasets/fintech_usage_africa.csv" = Some (Csv raw) /\
               rows raw <> []) /\
  (test_load_data parse_number str_of_number fs = AssertionError <->
   exists raw, fs !! "datasets/fintech_usage_africa.csv" = Some (Csv raw) /\
               rows raw = []) /\
  (forall e, test_load_data parse_number str_of_number fs = Errored e <->
             read_csv fs "datasets/fintech_usage_africa.csv" = Raise e).
Proof.
  unfold test_load_data.
  destruct (fs !! "datasets/fintech_usage_africa.csv")
    as [[| | | | |raw]|] eqn:Hf.
  1-5,7: assert (exists e, read_csv fs "datasets/fintech_usage_africa.csv"
                           = Raise e) as [e He]
           by (unfold read_csv; rewrite Hf; by eexists);
         rewrite (proj2 (load_data_error parse_number str_of_number _ _ _) He);
         rewrite He;
         (split; [|split]);
         [ split; [discriminate|by intros (? & [=] & _)]
         | split; [discriminate|by intros (? & [=] & _)]
         | intros e'; split; congruence ].
  rewrite (load_data_Csv parse_number str_of_number _ _ _ Hf).
  unfold len, read_csv. rewrite Hf. cbn [rows]. rewrite length_map.
  destruct (rows raw) as [|r l] eqn:Hrows.
  - rewrite bool_decide_eq_false_2 by (cbn; lia).
    split; [|split].
    + split; [discriminate|]. intros (raw' & [= <-] & Hne). congruence.
    + split; [|done]. intros _. by exists raw.
    + intros e. split; discriminate.
  - rewrite bool_decide_eq_true_2 by (cbn; lia).
    split; [|split].
    + split; [|done]. intros _. exists raw. by rewrite Hrows.
    + split; [discriminate|]. intros (raw' & [= <-] & Hnil). congruence.
    + intros e. split; discriminate.
Qed.

(** ** conclusion_page on a loaded frame *)

(** X5: on a frame that load_data returned, conclusion_page returns: the
    Fintech_Used column, where the frame has it, holds nothing but strings,
    so the .str accessor of line 240 has strings to work on; and its
    percent_active lies between 0 and 100 and is the adoption_rate that kpis
    returns on the same frame. *)
Theorem conclusion_page_percent_active {sv : SortValues}
    (parse_number : string -> option Qc) (str_of_number : Qc -> string)
    (fs : gmap string file) (path : string) (df : DataFrame) :
  load_data parse_number str_of_number fs path = Ok df ->
  (has_column df "Fintech_Used" = true ->
   forall r, r ∈ rows df -> exists s, cell_at r "Fintech_Used" = Str s) /\
  exists c,
    conclusion_page df = Ok c /\
    (0 <= percent_active c <= 100)%Q /\
    (forall k, kpis df = Ok k -> (percent_active c == adoption_rate k)%Q).
Proof.
  intros Hdf. split.
  - destruct (load_data_Ok_Csv _ _ _ _ _ Hdf) as [raw Hf].
    rewrite (load_data_Csv parse_number str_of_number _ _ _ Hf) in Hdf.
    injection Hdf as <-. intros Hfu r Hr. cbn [rows] in Hr.
    rewrite (has_column_loaded parse_number raw _ "Fintech_Used") in Hfu
      by (apply (bool_decide_unpack _); by vm_compute).
    apply list_elem_of_fmap in Hr as (r0 & -> & _).
    rewrite cell_at_clean_row.
    rewrite decide_False by (intros [_ ?]; congruence).
    rewrite decide_True.
    + apply normalize_string.
    + split; [|done]. apply (bool_decide_unpack _). by vm_compute.
  - clear Hdf. unfold conclusion_page, getitem.
    destruct (has_column df "Fintech_Used") eqn:Hfu; cbn [mbind result_bind].
    + eexists. split; [done|]. cbn [percent_active].
      unfold active_users, len.
      rewrite (length_filter_fmap (fun r => cell_at r "Fintech_Used")
                 (fun v => is_yes v)).
      fold (fintech_rows df). split.
      * apply adoption_rate_bounds, length_fintech_rows_le.
      * intros k Hk. rewrite kpis_with_fintech_used in Hk by done.
        injection Hk as <-. reflexivity.
    + eexists. split; [done|]. cbn [percent_active]. split; [lra|].
      intros k Hk. destruct (kpis_Ok_columns _ _ Hk) as [?|Hy]; [congruence|].
      rewrite kpis_without_both in Hk by done. injection Hk as <-.
      cbn [adoption_rate]. case_bool_decide; [|reflexivity].
      symmetry. apply percent_zero.
Qed.

Lemma conclusion_page_percent_active_witness :
  exists df c,
    load_data sample_parse sample_str disk "datasets/fintech_usage_africa.csv"
      = Ok df /\
    map (fun r => cell_at r "Fintech_Used") (rows df)
      = [Str "Yes"; Str "Unknown"] /\
    conclusion_page (sv := ties_first_seen) df = Ok c /\
    (percent_active c == 50)%Q.
Proof.
  destruct (conclusion_page_percent_active (sv := ties_first_seen)
              sample_parse sample_str disk
              "datasets/fintech_usage_africa.csv" _ load_data_sample)
    as (_ & c & Hc & _ & Hk).
  eexists _, c. split; [apply load_data_sample|].
  split; [vm_compute; reflexivity|]. split; [exact Hc|].
  erewrite Hk; [|apply kpis_with_fintech_used; reflexivity].
  vm_compute. reflexivity.
Defined.
